(** * Development scripts of the business-card editor: a shallow embedding

    The repository is a flat collection of Python scripts.  Each one is run by
    hand, reads an image or the generated TypeScript file
    [business-card-adapter.ts], prints diagnostics and possibly writes the
    file back.  This development embeds the scripts that the specification
    makes statements about and settles those statements.

    Conventions.
    - A Python [str] is the list of its code points ([N]); string literals of
      the scripts are written [lit "..."].
    - Python integers that can be negative ([str.find] returning [-1], slice
      bounds) are [Z]; positions that the code keeps non-negative are [nat].
    - A script is a computation in the monad [IO.M]: it threads the file
      system and the log of what the run did, and ends normally, by
      [exit(code)], or by an uncaught exception. *)

From Stdlib Require Import NArith ZArith String Ascii List Bool Lia.
From Stdlib Require Import DecimalString.
From stdpp Require Import base decidable option list numbers countable gmap.

Set Default Proof Using "Type".
Local Open Scope Z_scope.

(* ====================================================================== *)
(** * Part I: definitions *)
(* ====================================================================== *)

(** ** Python strings *)

Module PyStr.

Abbreviation char := N (only parsing).
Abbreviation str := (list N) (only parsing).

(** A literal of the source, as code points. *)
Fixpoint lit (s : string) : str :=
  match s with
  | EmptyString => []
  | String a s' => N_of_ascii a :: lit s'
  end.

Definition chr (a : ascii) : char := N_of_ascii a.

Definition nl : char := 10%N.

(** [str(n)] for a non-negative integer, as used by f-strings. *)
Definition dec (n : nat) : str := lit (NilEmpty.string_of_uint (Nat.to_uint n)).

Definition len (s : str) : Z := Z.of_nat (length s).

(** [s.startswith(p)] *)
Fixpoint startswith (p s : str) : bool :=
  match p, s with
  | [], _ => true
  | _ :: _, [] => false
  | a :: p', b :: s' => (a =? b)%N && startswith p' s'
  end.

(** [s.endswith(p)] *)
Definition endswith (p s : str) : bool := startswith (rev p) (rev s).

(** Lowest position of [sub] in [s]; positions are counted from [i]. *)
Fixpoint find_at (sub s : str) (i : nat) : option nat :=
  if startswith sub s then Some i
  else match s with
       | [] => None
       | _ :: s' => find_at sub s' (S i)
       end.

(** Highest position of [sub] in [s]; positions are counted from [i]. *)
Fixpoint rfind_at (sub s : str) (i : nat) : option nat :=
  match s with
  | [] => if startswith sub [] then Some i else None
  | _ :: s' =>
      match rfind_at sub s' (S i) with
      | Some j => Some j
      | None => if startswith sub s then Some i else None
      end
  end.

(** How Python adjusts a slice bound against the length. *)
Definition clamp (n i : Z) : Z :=
  if i <? 0 then Z.max 0 (i + n) else Z.min i n.

(** [s[a:b]] *)
Definition slice (s : str) (a b : Z) : str :=
  let a' := clamp (len s) a in
  let b' := clamp (len s) b in
  take (Z.to_nat (b' - a')) (drop (Z.to_nat a') s).

(** [s[a:]] and [s[:b]] *)
Definition slice_from (s : str) (a : Z) : str := slice s a (len s).
Definition slice_to (s : str) (b : Z) : str := slice s 0 b.

(** [s.find(sub, start)], [-1] when there is no occurrence. *)
Definition find (s sub : str) (start : Z) : Z :=
  let a := clamp (len s) start in
  if len s <? start then -1
  else match find_at sub (drop (Z.to_nat a) s) (Z.to_nat a) with
       | Some i => Z.of_nat i
       | None => -1
       end.

(** [s.rfind(sub, start, end)] *)
Definition rfind (s sub : str) (start end_ : Z) : Z :=
  let a := clamp (len s) start in
  let b := clamp (len s) end_ in
  if b <? a then -1
  else match rfind_at sub (take (Z.to_nat (b - a)) (drop (Z.to_nat a) s))
               (Z.to_nat a) with
       | Some i => Z.of_nat i
       | None => -1
       end.

(** [sub in s] *)
Definition contains (sub s : str) : bool :=
  match find_at sub s 0 with Some _ => true | None => false end.

(** [s.replace(old, new)]: the occurrences of [old] are replaced from left
    to right without overlap.  [skip] counts the characters of a replaced
    occurrence that are still to be dropped. *)
Fixpoint replace_go (old new s : str) (skip : nat) : str :=
  match s with
  | [] => []
  | c :: s' =>
      match skip with
      | S k => replace_go old new s' k
      | O =>
          if startswith old s
          then new ++ replace_go old new s' (length old - 1)
          else c :: replace_go old new s' 0
      end
  end.

Definition replace (old new s : str) : str :=
  match old with
  | [] => new ++ flat_map (fun c => c :: new) s
  | _ :: _ => replace_go old new s 0
  end.

(** [s.count(c)] for a one-character [c] *)
Definition count_char (c : char) (s : str) : Z :=
  Z.of_nat (length (filter (fun x => x = c) s)).

(** [s.split(c)] for a one-character separator *)
Fixpoint split (c : char) (s : str) : list str :=
  match s with
  | [] => [[]]
  | x :: s' =>
      if (x =? c)%N then [] :: split c s'
      else match split c s' with
           | l :: ls => (x :: l) :: ls
           | [] => [[x]]
           end
  end.

(** [s.split(c, 1)]: at most one split, at the first [c]. *)
Fixpoint split1 (c : char) (s : str) : list str :=
  match s with
  | [] => [[]]
  | x :: s' =>
      if (x =? c)%N then [[]; s']
      else match split1 c s' with
           | l :: ls => (x :: l) :: ls
           | [] => [[x]]
           end
  end.

(** [sep.join(ls)] *)
Fixpoint join (sep : str) (ls : list str) : str :=
  match ls with
  | [] => []
  | [l] => l
  | l :: ls' => l ++ sep ++ join sep ls'
  end.

(** The characters [str.strip()] removes: Unicode white space. *)
Definition is_space (c : char) : bool :=
  ((9 <=? c) && (c <=? 13) || (28 <=? c) && (c <=? 32)
   || (c =? 133) || (c =? 160) || (c =? 5760)
   || (8192 <=? c) && (c <=? 8202)
   || (c =? 8232) || (c =? 8233) || (c =? 8239) || (c =? 8287)
   || (c =? 12288))%N.

Fixpoint lstrip (s : str) : str :=
  match s with
  | c :: s' => if is_space c then lstrip s' else s
  | [] => []
  end.

Definition rstrip (s : str) : str := rev (lstrip (rev s)).
Definition strip (s : str) : str := rstrip (lstrip s).

(** [f.readlines()] on the decoded text of a file: every line keeps its
    terminating newline; a last line without one is kept as it is. *)
Fixpoint readlines (s : str) : list str :=
  match s with
  | [] => []
  | c :: s' =>
      if (c =? nl)%N then [c] :: readlines s'
      else match readlines s' with
           | l :: ls => (c :: l) :: ls
           | [] => [[c]]
           end
  end.

End PyStr.

(** ** Runs of a script: files, console, exits and exceptions *)

Module IO.
Import PyStr.

(** The exceptions the embedded scripts can end with. *)
Inductive exn :=
| FileNotFoundError (path : str)
| IndexError
| ApiError (msg : str).

(** What a run does to the outside, in order. *)
Inductive event :=
| OpenRead (path : str)
| OpenWrite (path : str)
| Print (text : str)
| MakeDirs (path : str)
| ApiCall (image_data : str).

Record world := World {
  files : gmap (list N) (list N);
  log : list event
}.

(** How a computation ends: with a value, by [exit(code)], or by an
    exception that nothing caught. *)
Inductive outcome (A : Type) :=
| Ret (a : A)
| Exited (code : Z)
| Raised (e : exn).
Arguments Ret {A} a.
Arguments Exited {A} code.
Arguments Raised {A} e.

Definition M (A : Type) : Type := world -> outcome A * world.

#[export] Instance M_ret : MRet M := fun A a w => (Ret a, w).

#[export] Instance M_bind : MBind M := fun A B f m w =>
  match m w with
  | (Ret a, w') => f a w'
  | (Exited c, w') => (Exited c, w')
  | (Raised e, w') => (Raised e, w')
  end.

Definition emit (e : event) : M unit := fun w =>
  (Ret tt, World (files w) (log w ++ [e])).

(** [print(text)] *)
Definition print (text : str) : M unit := emit (Print text).

Definition print_all (texts : list str) : M unit := fun w =>
  (Ret tt, World (files w) (log w ++ map Print texts)).

(** [exit(code)] / [sys.exit(code)] *)
Definition exit {A} (code : Z) : M A := fun w => (Exited code, w).

Definition raise {A} (e : exn) : M A := fun w => (Raised e, w).

(** [with open(path, 'r') as f: f.read()] *)
Definition read_file (path : str) : M str := fun w =>
  let w' := World (files w) (log w ++ [OpenRead path]) in
  match files w !! path with
  | Some content => (Ret content, w')
  | None => (Raised (FileNotFoundError path), w)
  end.

(** [with open(path, 'w') as f: f.write(content)] *)
Definition write_file (path content : str) : M unit := fun w =>
  (Ret tt, World (<[path := content]> (files w)) (log w ++ [OpenWrite path])).

(** [try: body / except Exception as e: handler(e)].  [exit] raises
    [SystemExit], which is not an [Exception] and passes through. *)
Definition try_except {A} (body : M A) (handler : exn -> M A) : M A := fun w =>
  match body w with
  | (Raised e, w') => handler e w'
  | r => r
  end.

(** [for x in xs: body(x)] *)
Fixpoint for_each {A} (xs : list A) (body : A -> M unit) : M unit :=
  match xs with
  | [] => mret tt
  | x :: xs' => body x ≫= fun _ => for_each xs' body
  end.

(** [for x in xs: s = body(x, s)], for a loop that updates variables [s] *)
Fixpoint for_fold {A S} (body : A -> S -> M S) (xs : list A) (s : S) : M S :=
  match xs with
  | [] => mret s
  | x :: xs' => body x s ≫= for_fold body xs'
  end.

Definition paths_read (l : list event) : list str :=
  omap (fun e => match e with OpenRead p => Some p | _ => None end) l.

Definition paths_written (l : list event) : list str :=
  omap (fun e => match e with OpenWrite p => Some p | _ => None end) l.

Definition printed (l : list event) : list str :=
  omap (fun e => match e with Print t => Some t | _ => None end) l.

Definition api_calls (l : list event) : list str :=
  omap (fun e => match e with ApiCall d => Some d | _ => None end) l.

(** Every file opened for writing was opened for reading earlier in the
    same run. *)
Fixpoint writes_follow_reads (seen : list str) (l : list event) : bool :=
  match l with
  | [] => true
  | OpenRead p :: l' => writes_follow_reads (p :: seen) l'
  | OpenWrite p :: l' => bool_decide (p ∈ seen) && writes_follow_reads seen l'
  | _ :: l' => writes_follow_reads seen l'
  end.

Definition run {A} (m : M A) (fs : gmap (list N) (list N)) : outcome A * world :=
  m (World fs []).

End IO.

(** ** fix-fonts.py *)

Module FixFonts.
Import PyStr IO.
Local Open Scope nat_scope.

Definition filepath : str :=
  lit "d:\dramac-ai-suite\src\lib\editor\business-card-adapter.ts".

Definition front_font_lines : list nat :=
  [672; 1191; 1398; 1598; 1814; 2030; 2314; 2521; 2746; 2964].

Definition back_font_lines : list nat :=
  [714; 1046; 1326; 1473; 1716; 1926; 2155; 2408; 2630; 2902; 3102].

Definition front_ff_delete_lines : list nat :=
  [3175; 3334; 3499; 3647; 3808; 3938].

Definition back_ff_lines : list nat :=
  [3264; 3424; 3591; 3763; 3894; 4023].

Definition geometric : str := lit "FONT_STACKS.geometric".
Definition const_ff : str := lit "const ff = FONT_STACKS.geometric".
Definition const_sans : str := lit "const sansFont = FONT_STACKS.geometric".
Definition const_serif : str := lit "const serifFont = FONT_STACKS.serif".

(** The arrow of the progress messages, U+2192. *)
Definition arrow : str := [8594%N].

(** The variables the loops of the script update: the list [lines], the
    counter [changes_made], and what has been printed so far. *)
Record state := State {
  lines : list str;
  changes_made : nat;
  out : list str
}.

(** [f"L{line_num}: <what>"] *)
Definition msg (line_num : nat) (what : str) : str :=
  lit "L" ++ dec line_num ++ lit ": " ++ what.

(** One of the three branches of the first loop that rewrite a listed line:
<<
    old = lines[i]
    lines[i] = lines[i].replace('FONT_STACKS.geometric', new)
    if old != lines[i]: changes_made += 1; print(...)
>> *)
Definition replace_listed (new what : str) (i : nat) (st : state) : state :=
  match lines st !! i with
  | None => st
  | Some old =>
      let line' := replace geometric new old in
      if bool_decide (old = line')
      then State (<[i := line']> (lines st)) (changes_made st) (out st)
      else State (<[i := line']> (lines st)) (S (changes_made st))
                 (out st ++ [msg (S i) what])
  end.

(** The branch for [front_ff_delete_lines]: the line is emptied, not
    removed, "to not shift line numbers". *)
Definition delete_listed (i : nat) (st : state) : state :=
  match lines st !! i with
  | None => st
  | Some line =>
      if contains const_ff line
      then State (<[i := []]> (lines st)) (S (changes_made st))
                 (out st ++ [msg (S i)
                   (lit "DELETED const ff = FONT_STACKS.geometric (ff is now a param)")])
      else st
  end.

Definition in_list (n : nat) (l : list nat) : bool := bool_decide (n ∈ l).

(** Body of the first [for i, line in enumerate(lines)] loop. *)
Definition listed_step (st : state) (i : nat) : state :=
  let line_num := S i in
  if in_list line_num front_font_lines then
    replace_listed (lit "ff") (lit "FRONT font " ++ arrow ++ lit " ff") i st
  else if in_list line_num back_font_lines then
    replace_listed (lit "cfg.fontFamily")
      (lit "BACK font " ++ arrow ++ lit " cfg.fontFamily") i st
  else if in_list line_num front_ff_delete_lines then
    delete_listed i st
  else if in_list line_num back_ff_lines then
    replace_listed (lit "cfg.fontFamily")
      (lit "BACK ff " ++ arrow ++ lit " cfg.fontFamily") i st
  else st.

(** A [for i, line in enumerate(lines)] loop: no loop of the script changes
    the length of [lines], so the indices are those of the list at entry. *)
Definition enumerate_lines (step : state -> nat -> state) (st : state) : state :=
  foldl step st (seq 0 (length (lines st))).

(** The look-back of the monogram loops:
<<
    for j in range(max(0, i-15), i):
        if 'registerBackLayout' in lines[j]: is_back = True; break
>> *)
Definition is_back (ls : list str) (i : nat) : bool :=
  existsb (fun j => match ls !! j with
                    | Some l => contains (lit "registerBackLayout") l
                    | None => false
                    end)
          (seq (i - 15) (i - (i - 15))).

(** Body of the second loop. *)
Definition sans_step (st : state) (i : nat) : state :=
  match lines st !! i with
  | None => st
  | Some line =>
      if contains const_sans line then
        if is_back (lines st) i then
          State (<[i := replace geometric (lit "cfg.fontFamily") line]> (lines st))
                (S (changes_made st))
                (out st ++ [msg (S i)
                  (lit "BACK monogram sansFont " ++ arrow ++ lit " cfg.fontFamily")])
        else
          State (<[i := replace geometric (lit "ff") line]> (lines st))
                (S (changes_made st))
                (out st ++ [msg (S i)
                  (lit "FRONT monogram sansFont " ++ arrow ++ lit " ff")])
      else st
  end.

(** Body of the third loop. *)
Definition serif_step (st : state) (i : nat) : state :=
  match lines st !! i with
  | None => st
  | Some line =>
      if contains const_serif line then
        if is_back (lines st) i then
          State (<[i := replace (lit "FONT_STACKS.serif") (lit "cfg.fontFamily") line]>
                   (lines st))
                (S (changes_made st))
                (out st ++ [msg (S i)
                  (lit "BACK monogram serifFont " ++ arrow ++ lit " cfg.fontFamily")])
        else st
      else st
  end.

(** The three loops on the lines of [content]. *)
Definition patch (content : str) : state :=
  enumerate_lines serif_step
    (enumerate_lines sans_step
       (enumerate_lines listed_step (State (split nl content) 0 []))).

(** What the script writes back. *)
Definition written (content : str) : str := join [nl] (lines (patch content)).

(** The whole script. *)
Definition main : M unit :=
  content ← read_file filepath;
  let st := patch content in
  print_all (out st);;
  print (nl :: lit "Total changes: " ++ dec (changes_made st));;
  write_file filepath (join [nl] (lines st));;
  print (lit "File written successfully.").

End FixFonts.

(** ** fix-ff-errors.py *)

Module FixFFErrors.
Import PyStr IO.
Local Open Scope nat_scope.

Definition FILE : str :=
  lit "d:\dramac-ai-suite\src\lib\editor\business-card-adapter.ts".

Definition ff_error_lines : list nat :=
  [3292; 3298; 3308; 3322; 3329;
   3476; 3482; 3494;
   3626; 3632; 3642;
   3784; 3790; 3802;
   3915; 3921; 3932].

Section Regex.

(** [str.isalnum()] on the code points above ASCII: the table of the Unicode
    database that Python's [re] consults for [\w] and [\b]. *)
Variable unicode_alnum : N -> bool.

(** The class [\w] of a [str] pattern. *)
Definition is_word (c : char) : bool :=
  ((48 <=? c) && (c <=? 57) || (65 <=? c) && (c <=? 90)
   || (97 <=? c) && (c <=? 122) || (c =? 95)
   || (128 <=? c) && unicode_alnum c)%N.

Definition starts_with_word (s : str) : bool :=
  match s with
  | c :: _ => is_word c
  | [] => false
  end.

(** [re.sub(r'\bff\b', 'cfg.fontFamily', s)]: an occurrence of [ff] is
    replaced when it is neither preceded nor followed by a word character.
    [prev_word] tells whether the character before [s] is one. *)
Fixpoint sub_ff (prev_word : bool) (s : str) : str :=
  match s with
  | [] => []
  | c :: s' =>
      match s' with
      | c2 :: s'' =>
          if negb prev_word && (c =? 102)%N && (c2 =? 102)%N
             && negb (starts_with_word s'')
          then lit "cfg.fontFamily" ++ sub_ff true s''
          else c :: sub_ff (is_word c) s'
      | [] => c :: sub_ff (is_word c) s'
      end
  end.

Definition re_sub_ff (s : str) : str := sub_ff false s.

(** Body of [for line_num in ff_error_lines], on the variables [lines] and
    [changes].  [lines[idx]] raises [IndexError] out of range. *)
Definition fix_line (line_num : nat) (st : list str * nat) : M (list str * nat) :=
  let idx := line_num - 1 in
  match st.1 !! idx with
  | None => raise IndexError
  | Some old =>
      let new := re_sub_ff old in
      if bool_decide (new = old) then mret st
      else
        print (lit "  L" ++ dec line_num ++ lit ": " ++ rstrip old);;
        print (lit "       -> " ++ rstrip new);;
        mret (<[idx := new]> st.1, S st.2)
  end.

(** The edit of line 3950. *)
Definition fix_3950 (st : list str * nat) : M (list str * nat) :=
  let idx_3950 := 3950 - 1 in
  match st.1 !! idx_3950 with
  | None => raise IndexError
  | Some line_3950 =>
      if contains (lit "const ff = ff") line_3950 then
        print (lit "  L3950: REMOVING: " ++ rstrip line_3950);;
        mret (<[idx_3950 := []]> st.1, S st.2)
      else mret st
  end.

(** The whole script. [f.writelines(lines)] writes the lines one after the
    other. *)
Definition main : M unit :=
  content ← read_file FILE;
  st ← for_fold fix_line ff_error_lines (readlines content, 0);
  st ← fix_3950 st;
  print (nl :: lit "Total changes: " ++ dec st.2);;
  write_file FILE (concat st.1);;
  print (lit "File saved.").

End Regex.

End FixFFErrors.

(** ** swap-front-back.py *)

Module SwapFrontBack.
Import PyStr IO.
Local Open Scope nat_scope.

Definition lbrace : char := 123%N.
Definition rbrace : char := 125%N.
Definition dquote : char := 34%N.
Definition squote : char := 39%N.
Definition backtick : char := 96%N.
Definition backslash : char := 92%N.
Definition dollar : char := 36%N.
Definition slash : char := 47%N.
Definition star : char := 42%N.

(** [content[pos] == c], for a [pos] the code has checked to be in range. *)
Definition is_at (content : str) (pos : nat) (c : char) : bool :=
  bool_decide (content !! pos = Some c).

Section Loops.

Variable content : str.

(** Every loop of [find_matching_brace] moves [pos] forward while
    [pos < length]; [fuel] bounds the number of iterations and
    [length content] is always enough. *)

(** The loop that skips a quoted string (and, with the same body, a template
    literal nested in a template expression):
<<
    while pos < length and content[pos] != quote:
        if content[pos] == '\\': pos += 1
        pos += 1
>> *)
Fixpoint skip_quoted (fuel : nat) (quote : char) (pos : nat) : nat :=
  match fuel with
  | O => pos
  | S fuel' =>
      if (pos <? length content) && negb (is_at content pos quote) then
        let pos := if is_at content pos backslash then pos + 1 else pos in
        skip_quoted fuel' quote (pos + 1)
      else pos
  end.

(** The loop over a template expression, entered after [${] with [td = 1]:
<<
    while td > 0 and pos < length:
        if content[pos] == '{': td += 1
        elif content[pos] == '}': td -= 1
        elif content[pos] == '`': (skip the nested template literal)
        pos += 1
>> *)
Fixpoint skip_template_expr (fuel : nat) (td pos : nat) : nat :=
  match fuel with
  | O => pos
  | S fuel' =>
      if (0 <? td) && (pos <? length content) then
        if is_at content pos lbrace then
          skip_template_expr fuel' (td + 1) (pos + 1)
        else if is_at content pos rbrace then
          skip_template_expr fuel' (td - 1) (pos + 1)
        else if is_at content pos backtick then
          let pos := skip_quoted (length content) backtick (pos + 1) in
          skip_template_expr fuel' td (pos + 1)
        else skip_template_expr fuel' td (pos + 1)
      else pos
  end.

(** The loop over a template literal, entered after the opening backtick:
<<
    while pos < length and content[pos] != '`':
        if content[pos] == '\\': pos += 1
        elif content[pos] == '$' and pos + 1 < length and content[pos + 1] == '{':
            pos += 1; td = 1; pos += 1
            (loop over the template expression)
            continue
        pos += 1
>> *)
Fixpoint skip_template (fuel : nat) (pos : nat) : nat :=
  match fuel with
  | O => pos
  | S fuel' =>
      if (pos <? length content) && negb (is_at content pos backtick) then
        if is_at content pos backslash then skip_template fuel' (pos + 1 + 1)
        else if is_at content pos dollar && (pos + 1 <? length content)
                && is_at content (pos + 1) lbrace then
          skip_template fuel'
            (skip_template_expr (length content) 1 (pos + 1 + 1))
        else skip_template fuel' (pos + 1)
      else pos
  end.

(** [while pos < length and content[pos] != '\n': pos += 1] *)
Fixpoint skip_line_comment (fuel : nat) (pos : nat) : nat :=
  match fuel with
  | O => pos
  | S fuel' =>
      if (pos <? length content) && negb (is_at content pos nl)
      then skip_line_comment fuel' (pos + 1)
      else pos
  end.

(** [while pos + 1 < length and not (content[pos] == '*' and content[pos + 1] == '/'): pos += 1] *)
Fixpoint skip_block_comment (fuel : nat) (pos : nat) : nat :=
  match fuel with
  | O => pos
  | S fuel' =>
      if (pos + 1 <? length content)
         && negb (is_at content pos star && is_at content (pos + 1) slash)
      then skip_block_comment fuel' (pos + 1)
      else pos
  end.

(** The main loop, [while depth > 0 and pos < length]; it returns the final
    [pos]. *)
Fixpoint scan (fuel : nat) (depth pos : nat) : nat :=
  match fuel with
  | O => pos
  | S fuel' =>
      if (0 <? depth) && (pos <? length content) then
        if is_at content pos lbrace then scan fuel' (depth + 1) (pos + 1)
        else if is_at content pos rbrace then scan fuel' (depth - 1) (pos + 1)
        else if is_at content pos dquote then
          scan fuel' depth (skip_quoted (length content) dquote (pos + 1) + 1)
        else if is_at content pos squote then
          scan fuel' depth (skip_quoted (length content) squote (pos + 1) + 1)
        else if is_at content pos backtick then
          scan fuel' depth (skip_template (length content) (pos + 1) + 1)
        else if is_at content pos slash && (pos + 1 <? length content) then
          if is_at content (pos + 1) slash then
            scan fuel' depth (skip_line_comment (length content) pos + 1)
          else if is_at content (pos + 1) star then
            scan fuel' depth
              (skip_block_comment (length content) (pos + 2) + 1 + 1)
          else scan fuel' depth (pos + 1)
        else scan fuel' depth (pos + 1)
      else pos
  end.

End Loops.

(** How a call of [find_matching_brace] ends. *)
Inductive brace_result :=
| Returns (pos : nat)
| RaisesIndexError
| RaisesAssertionError.

(** [find_matching_brace(content, open_pos)] *)
Definition find_matching_brace (content : str) (open_pos : nat) : brace_result :=
  match content !! open_pos with
  | None => RaisesIndexError
  | Some c =>
      if (c =? lbrace)%N
      then Returns (scan content (length content) 1 (open_pos + 1) - 1)
      else RaisesAssertionError
  end.

(** *** The matching brace as the specification words it

    The contexts in which a brace does not count: single- and double-quoted
    strings (with backslash escapes), template literals, whose [${...}]
    expressions are code again (with their own strings, comments and
    templates), line comments and block comments. *)
Inductive context :=
| InBlock               (* code between a counted [{] and its [}] *)
| InExpr                (* code of a template expression [${...}] *)
| InQuoted (q : char)   (* a quoted string *)
| InTemplate            (* the text of a template literal *)
| InLineComment
| InBlockComment.

Definition is_code (c : context) : bool :=
  match c with InBlock | InExpr => true | _ => false end.

(** One step of the reference lexer on the stack of open contexts, at the
    character [c] followed by [next]: the stack after the step and the
    number of characters the step consumes. *)
Definition lex_step (stack : list context) (c : char) (next : option char)
  : list context * nat :=
  match stack with
  | [] => ([], 1)
  | InQuoted q :: rest =>
      if (c =? backslash)%N then (stack, 2)
      else if (c =? q)%N then (rest, 1) else (stack, 1)
  | InTemplate :: rest =>
      if (c =? backslash)%N then (stack, 2)
      else if (c =? backtick)%N then (rest, 1)
      else if (c =? dollar)%N && bool_decide (next = Some lbrace)
      then (InExpr :: stack, 2)
      else (stack, 1)
  | InLineComment :: rest =>
      if (c =? nl)%N then (rest, 1) else (stack, 1)
  | InBlockComment :: rest =>
      if (c =? star)%N && bool_decide (next = Some slash)
      then (rest, 2) else (stack, 1)
  | (InBlock | InExpr) :: rest =>
      if (c =? lbrace)%N then (InBlock :: stack, 1)
      else if (c =? rbrace)%N then (rest, 1)
      else if (c =? dquote)%N || (c =? squote)%N then (InQuoted c :: stack, 1)
      else if (c =? backtick)%N then (InTemplate :: stack, 1)
      else if (c =? slash)%N && bool_decide (next = Some slash)
      then (InLineComment :: stack, 2)
      else if (c =? slash)%N && bool_decide (next = Some star)
      then (InBlockComment :: stack, 2)
      else (stack, 1)
  end.

(** The reference lexer runs from the character after the opening brace,
    with the block of that brace as the only open context, and stops at the
    closing brace that closes it. [skip] counts characters already consumed
    by the previous step. *)
Fixpoint spec_scan (s : str) (stack : list context) (skip pos : nat)
  : option nat :=
  match s with
  | [] => None
  | c :: s' =>
      match skip with
      | S k => spec_scan s' stack k (pos + 1)
      | O =>
          let '(stack', n) := lex_step stack c (head s') in
          match stack' with
          | [] => Some pos
          | _ => spec_scan s' stack' (n - 1) (pos + 1)
          end
      end
  end.

(** The index of the closing brace that matches the opening brace at
    [open_pos], when the braces outside strings, templates and comments are
    balanced from there on. *)
Definition spec_matching_brace (content : str) (open_pos : nat) : option nat :=
  if is_at content open_pos lbrace
  then spec_scan (drop (open_pos + 1) content) [InBlock] 0 (open_pos + 1)
  else None.

(** [find_front_function(content, func_name)]: the dictionary it returns. *)
Record func_info := FuncInfo {
  start : nat;
  end_ : nat;
  body : str;
  full : str;
  brace_start : nat;
  brace_end : nat
}.

(** [find_front_function].  The pattern [rf'function {func_name}\('] is the
    literal text [function <name>(] for the names of [FUNC_NAMES], which
    hold letters only.  The result is the printed lines and what is
    returned ([None] for Python's [None]). *)
Definition find_front_function (content func_name : str)
  : list str * option func_info :=
  let pattern := lit "function " ++ func_name ++ lit "(" in
  match find_at pattern content 0 with
  | None => ([lit "ERROR: Could not find function " ++ func_name], None)
  | Some func_start =>
      let match_end := func_start + length pattern in
      match find_at [lbrace] (drop match_end content) match_end with
      | None =>
          ([lit "ERROR: Could not find opening brace for " ++ func_name], None)
      | Some brace_pos =>
          match find_matching_brace content brace_pos with
          | Returns brace_close =>
              ([], Some (FuncInfo func_start (brace_close + 1)
                           (slice content (Z.of_nat (brace_pos + 1)) (Z.of_nat brace_close))
                           (slice content (Z.of_nat func_start) (Z.of_nat (brace_close + 1)))
                           brace_pos brace_close))
          | _ => ([], None)
          end
      end
  end.

Section Main.

(** [main] reads both files, rewrites them with [swap_theme_colors] and
    [process_adapter] and writes them back.  The two rewriting functions
    print and return the new text; what they compute does not matter for
    which files [main] touches, so they are taken as they come. *)
Variable swap_theme_colors : str -> list str * str.
Variable process_adapter : str -> list str * str.

(** The two paths [main] builds from the location of the script. *)
Variables adapter_path helpers_path : str.

Definition main : M unit :=
  print (lit "Reading files...");;
  adapter_content ← read_file adapter_path;
  helpers_content ← read_file helpers_path;
  print (nl :: lit "=== Step 1: Swapping theme colors ===");;
  let '(out1, helpers_content) := swap_theme_colors helpers_content in
  print_all out1;;
  write_file helpers_path helpers_content;;
  print (lit "Theme colors swapped and saved.");;
  print (nl :: lit "=== Step 2: Swapping function bodies ===");;
  let '(out2, adapter_content) := process_adapter adapter_content in
  print_all out2;;
  write_file adapter_path adapter_content;;
  print (nl :: lit "Function bodies swapped and saved.");;
  print (nl :: lit "=== Done! Run 'npx tsc --noEmit' to verify. ===").

End Main.

End SwapFrontBack.

(** ** fix-cyan-tech.py *)

Module FixCyanTech.
Import PyStr IO.
Local Open Scope Z_scope.

Definition FILE : str :=
  lit "d:\dramac-ai-suite\src\lib\editor\business-card-adapter.ts".

Definition start_marker : str :=
  lit "function layoutCyanTech(W: number, H: number, cfg: CardConfig, fs: FontSizes, ff: string): LayerV2[] {".

Definition end_marker : str := lit "// Register cyan-tech back layout".

(** ['registerBackLayout("cyan-tech"'] *)
Definition end_marker2 : str :=
  lit "registerBackLayout(" ++ [34%N] ++ lit "cyan-tech" ++ [34%N].

(** [str(n)] for an integer. *)
Definition dec_int (n : Z) : str := lit (NilEmpty.string_of_int (Z.to_int n)).

Section Main.

(** The text of the new function, a literal of some 110 lines in the
    script. *)
Variable new_function : str.

(** Where the replaced region ends:
<<
    end_idx = content.find(end_marker, start_idx)
    if end_idx == -1:
        end_marker = 'registerBackLayout("cyan-tech"'
        end_idx = content.find(end_marker, start_idx)
        end_idx = content.rfind('\n', 0, end_idx)
        end_idx = content.rfind('\n', 0, end_idx) + 1
>> *)
Definition find_end (content : str) (start_idx : Z) : Z :=
  let end_idx := find content end_marker start_idx in
  if end_idx =? -1 then
    let end_idx := find content end_marker2 start_idx in
    let end_idx := rfind content [nl] 0 end_idx in
    rfind content [nl] 0 end_idx + 1
  else end_idx.

(** The new content, [content[:start_idx] + new_function + content[end_idx:]]. *)
Definition splice (content : str) (start_idx end_idx : Z) : str :=
  slice_to content start_idx ++ new_function ++ slice_from content end_idx.

(** The whole script. *)
Definition main : M unit :=
  content ← read_file FILE;
  let start_idx := find content start_marker 0 in
  (if start_idx =? -1 then
     print (lit "ERROR: Could not find layoutCyanTech function");;
     exit 1
   else mret tt);;
  let end_idx := find_end content start_idx in
  print (lit "Found function at char " ++ dec_int start_idx
         ++ lit ", end at char " ++ dec_int end_idx);;
  print (lit "Replacing " ++ dec_int (end_idx - start_idx) ++ lit " characters");;
  write_file FILE (splice content start_idx end_idx);;
  print (lit "cyan-tech front layout rewritten successfully.").

End Main.

End FixCyanTech.

(** ** add-logo-to-templates.py *)

Module AddLogo.
Import PyStr IO.
Local Open Scope nat_scope.

(** The warning sign U+26A0 and the check mark U+2713 of the messages. *)
Definition warning_sign : str := [9888%N].
Definition check_mark : str := [10003%N].

(** Index of the first element of [l] that satisfies [P], counted from [i]. *)
Fixpoint first_index {A} (P : A -> bool) (l : list A) (i : nat) : option nat :=
  match l with
  | [] => None
  | x :: l' => if P x then Some i else first_index P l' (S i)
  end.

(** The second loop of [find_function_range], over the lines from [start]:
<<
    brace_depth += lines[i].count("{") - lines[i].count("}")
    stripped = lines[i].strip()
    if stripped == "return layers;" and brace_depth <= 1: return start, i
>> *)
Fixpoint find_return (ls : list str) (brace_depth : Z) (i : nat) : option nat :=
  match ls with
  | [] => None
  | l :: ls' =>
      let brace_depth := (brace_depth + (count_char 123 l - count_char 125 l))%Z in
      if bool_decide (strip l = lit "return layers;") && (brace_depth <=? 1)%Z
      then Some i
      else find_return ls' brace_depth (S i)
  end.

(** [find_function_range(func_name)] on the global [lines]: what it prints
    and the pair it returns. *)
Definition find_function_range (lines : list str) (func_name : str)
  : list str * (option nat * option nat) :=
  match first_index (contains (lit "function " ++ func_name ++ lit "(")) lines 0 with
  | None =>
      ([lit "  " ++ warning_sign ++ lit " Could not find function " ++ func_name],
       (None, None))
  | Some start =>
      match find_return (drop start lines) 0 start with
      | Some i => ([], (Some start, Some i))
      | None =>
          ([lit "  " ++ warning_sign ++ lit " Could not find 'return layers;' for "
              ++ func_name],
           (Some start, None))
      end
  end.

(** [lines.insert(i, x)] *)
Definition list_insert_at {A} (i : nat) (x : A) (l : list A) : list A :=
  take i l ++ x :: drop i l.

(** [for j, cl in enumerate(code_lines): lines.insert(ret_line + j, cl)] *)
Fixpoint insert_all (ret_line j : nat) (code_lines lines : list str) : list str :=
  match code_lines with
  | [] => lines
  | cl :: rest => insert_all ret_line (S j) rest (list_insert_at (ret_line + j) cl lines)
  end.

(** [insert_before_return(func_name, code_lines)]: the new [lines], what is
    printed, and the returned flag. *)
Definition insert_before_return (lines : list str) (func_name : str)
    (code_lines : list str) : list str * list str * bool :=
  let '(out, (_, ret)) := find_function_range lines func_name in
  match ret with
  | None => (lines, out, false)
  | Some ret_line =>
      (insert_all ret_line 0 code_lines lines,
       out ++ [lit "  " ++ check_mark ++ lit " Inserted " ++ dec (length code_lines)
                 ++ lit " lines before return in " ++ func_name],
       true)
  end.

(** The block of seven lines the script inserts for a template. *)
Definition code (x_expr y_expr size_expr color_expr : str) : list str :=
  [ [];
    lit "  // -- Logo watermark --";
    lit "  layers.push(...buildWatermarkLogo(";
    lit "    cfg.logoUrl, cfg.company || " ++ [34%N] ++ lit "Co" ++ [34%N] ++ lit ",";
    lit "    Math.round(" ++ x_expr ++ lit "), Math.round(" ++ y_expr ++ lit "),";
    lit "    Math.round(" ++ size_expr ++ lit "), " ++ color_expr ++ lit ", 1.0, ff";
    lit "  ));" ].

Definition white : str := [34%N] ++ lit "#FFFFFF" ++ [34%N].

(** [templates_no_company] and the first five fields of
    [templates_with_company]. *)
Definition templates : list (str * (str * str * str * str)) :=
  [ (lit "layoutMonogramLuxe",  (lit "W * 0.48", lit "H * 0.72", lit "H * 0.10", lit "t.frontText"));
    (lit "layoutGeometricMark", (lit "W * 0.09", lit "H * 0.06", lit "H * 0.06", lit "t.frontText"));
    (lit "layoutFrameMinimal",  (lit "W * 0.75", lit "H * 0.08", lit "H * 0.08", lit "t.frontText"));
    (lit "layoutSplitVertical", (lit "W * 0.70", lit "H * 0.10", lit "H * 0.10", white));
    (lit "layoutDiagonalMono",  (lit "W * 0.06", lit "H * 0.08", lit "H * 0.08", lit "t.frontText"));
    (lit "layoutHexSplit",      (lit "W * 0.45", lit "H * 0.06", lit "H * 0.10", lit "t.frontText"));
    (lit "layoutFlowingLines",  (lit "W * 0.08", lit "H * 0.08", lit "H * 0.10", lit "t.frontText ?? t.frontBg"));
    (lit "layoutNeonWatermark", (lit "W * 0.08", lit "H * 0.08", lit "H * 0.10", lit "t.accent"));
    (lit "layoutBlueprintTech", (lit "W * 0.15", lit "H * 0.06", lit "H * 0.10", lit "t.frontText"));
    (lit "layoutDiagonalGold",  (lit "W * 0.05", lit "H * 0.05", lit "H * 0.12", lit "t.accent"));
    (lit "layoutLuxuryDivider", (lit "W * 0.20", lit "H * 0.12", lit "H * 0.12", lit "t.frontText"));
    (lit "layoutGoldConstruct", (lit "W * 0.15", lit "H * 0.05", lit "H * 0.10", white));
    (lit "layoutCorporateChevron",
       (lit "W * 0.07", lit "H * 0.42", lit "H * 0.06",
        lit "t.accent || " ++ [34%N] ++ lit "#1C1C1E" ++ [34%N]));
    (lit "layoutZigzagOverlay", (lit "W * 0.03", lit "H * 0.07", lit "H * 0.06", white));
    (lit "layoutDotCircle",     (lit "W * 0.67", lit "H * 0.14", lit "H * 0.10", white)) ].

(** The insertion the two loops of the script make for one entry of the
    tables. *)
Definition add_logo (lines : list str) (entry : str * (str * str * str * str))
  : list str * list str * bool :=
  let '(func_name, (x_expr, y_expr, size_expr, color_expr)) := entry in
  insert_before_return lines func_name (code x_expr y_expr size_expr color_expr).

End AddLogo.

(** ** The functions of [os.path] the scripts call (as in [posixpath]) *)

Module OsPath.
Import PyStr.
Local Open Scope Z_scope.

Definition sep : char := 47%N.
Definition extsep : char := 46%N.

(** [os.path.join(a, b)] *)
Definition join (a b : str) : str :=
  if startswith [sep] b then b
  else if bool_decide (a = []) || endswith [sep] a then a ++ b
  else a ++ [sep] ++ b.

Fixpoint lstrip_sep (s : str) : str :=
  match s with
  | c :: s' => if (c =? sep)%N then lstrip_sep s' else s
  | [] => []
  end.

(** [head.rstrip('/')] *)
Definition rstrip_sep (s : str) : str := rev (lstrip_sep (rev s)).

(** [os.path.dirname(p)] *)
Definition dirname (p : str) : str :=
  let i := rfind p [sep] 0 (len p) + 1 in
  let head := slice_to p i in
  if negb (bool_decide (head = []))
     && negb (bool_decide (head = repeat sep (length head)))
  then rstrip_sep head
  else head.

(** The loop of [_splitext] that skips the leading dots of the file name;
    it runs over the characters between [filenameIndex] and [dotIndex]. *)
Definition has_non_dot (p : str) (filenameIndex dotIndex : Z) : bool :=
  existsb (fun c => negb (c =? extsep)%N) (slice p filenameIndex dotIndex).

(** [os.path.splitext(p)] *)
Definition splitext (p : str) : str * str :=
  let sepIndex := rfind p [sep] 0 (len p) in
  let dotIndex := rfind p [extsep] 0 (len p) in
  if (sepIndex <? dotIndex) && has_non_dot p (sepIndex + 1) dotIndex
  then (slice_to p dotIndex, slice_from p dotIndex)
  else (p, []).

End OsPath.

(** ** analyze-business-cards.py *)

Module AnalyzeBusinessCards.
Import PyStr IO.
Local Open Scope nat_scope.

(** The body of the loop of [load_env] over the lines of [.env.local]. *)
Definition add_env_line (env_vars : gmap (list N) (list N)) (line : str)
  : gmap (list N) (list N) :=
  let line := strip line in
  if negb (bool_decide (line = [])) && negb (startswith (lit "#") line)
     && contains (lit "=") line
  then match split1 61 line with
       | [key; value] => <[strip key := strip value]> env_vars
       | _ => env_vars
       end
  else env_vars.

(** The dictionary [load_env] builds from the text of the file. *)
Definition parse_env (content : str) : gmap (list N) (list N) :=
  foldl add_env_line ∅ (readlines content).

Definition images : list str :=
  [ lit "d470b54b4667bbb67204e858d6f0a01f.jpg";
    lit "d528f0b618c11009c08bd2a93beb890e.jpg";
    lit "dd0acc18c0824cdca8a1969e711c4e4e.jpg";
    lit "Digital Marketing Agency Visiting Card.jpg";
    lit "eadf9c427d539e35f32ac013c0d85254.jpg";
    lit "ed5aed70cf66b85baf0a7a9af5b80f2c.jpg";
    lit "f7aaa659853a816e36f98a2513b16387.jpg";
    lit "f8d2061b39a68b3adb11ece796042007.jpg";
    lit "Message Us on WhatsApp for Custom Design Orders!.jpg" ].

(** The marks U+2705 and U+274C of the messages. *)
Definition ok_mark : str := [9989%N].
Definition cross_mark : str := [10060%N].

(** ['=' * 80] *)
Definition rule : str := repeat 61%N 80.

(** [str(e)] *)
Definition exn_text (e : exn) : str :=
  match e with
  | ApiError m => m
  | FileNotFoundError p => lit "[Errno 2] No such file or directory: '" ++ p ++ lit "'"
  | IndexError => lit "list index out of range"
  end.

Section Main.

(** [__file__], the path of the script. *)
Variable script_file : str.

(** [base64.standard_b64encode(data).decode('utf-8')] *)
Variable b64encode : str -> str.

(** The vision model behind [client.messages.create]: for the [n]-th call
    of the run and the image data sent, either the text of the error raised
    or the text of the analysis, [message.content[0].text]. *)
Variable messages_create : nat -> str -> str + str.

Definition env_path : str :=
  OsPath.join (OsPath.dirname (OsPath.dirname script_file)) (lit ".env.local").

Definition base_dir : str :=
  OsPath.join (OsPath.dirname (OsPath.dirname script_file))
              (lit "business-card-examples").

Definition output_dir : str := OsPath.join base_dir (lit "analysis").

Definition output_file (filename : str) : str :=
  OsPath.join output_dir ((OsPath.splitext filename).1 ++ lit ".md").

(** [load_env()] *)
Definition load_env : M (gmap (list N) (list N)) :=
  content ← read_file env_path;
  mret (parse_env content).

(** The call of the vision model. *)
Definition call_model (image_data : str) : M str := fun w =>
  let w' := World (files w) (log w ++ [ApiCall image_data]) in
  match messages_create (length (api_calls (log w))) image_data with
  | inl err => (Raised (ApiError err), w')
  | inr analysis => (Ret analysis, w')
  end.

(** The body of [for i, filename in enumerate(images)]. *)
Definition analyze (item : nat * str) : M unit :=
  let '(i, filename) := item in
  let filepath := OsPath.join base_dir filename in
  print (nl :: rule);;
  print (lit "[" ++ dec (i + 1) ++ lit "/" ++ dec (length images)
         ++ lit "] Analyzing: " ++ filename);;
  print rule;;
  data ← read_file filepath;
  let image_data := b64encode data in
  try_except
    (analysis ← call_model image_data;
     write_file (output_file filename)
       (lit "# Business Card Analysis: " ++ filename ++ [nl; nl] ++ analysis);;
     print analysis;;
     print (nl :: ok_mark ++ lit " Saved to: " ++ output_file filename))
    (fun e =>
       print (cross_mark ++ lit " Error analyzing " ++ filename ++ lit ": "
              ++ exn_text e)).

(** The loop over [images]. *)
Definition analyze_all (files : list str) : M unit :=
  for_each (zip (seq 0 (length files)) files) analyze.

(** The whole script.  [env.get('ANTHROPIC_API_KEY')] is [None] for a
    missing key, and [not api_key] also holds for an empty value. *)
Definition main : M unit :=
  env ← load_env;
  match env !! lit "ANTHROPIC_API_KEY" with
  | None | Some [] =>
      print (lit "ERROR: ANTHROPIC_API_KEY not found in .env.local");;
      exit 1
  | Some (_ :: _) =>
      emit (MakeDirs output_dir);;
      analyze_all images;;
      print (nl :: rule);;
      print (lit "All analyses saved to: " ++ output_dir);;
      print rule
  end.

End Main.

End AnalyzeBusinessCards.

(** ** analyze-6ed0.py: detection of the white region *)

Module Analyze6ed0.
Local Open Scope nat_scope.

(** The first three channels of a pixel, [arr[py, px, :3]]. *)
Definition pixel : Type := Z * Z * Z.

(** The image: [w, h = img.size] and [arr = np.array(img)]. *)
Record image := Image {
  w : nat;
  h : nat;
  arr : nat -> nat -> pixel
}.

(** [r > 200 and g > 200 and b > 200] *)
Definition is_white (p : pixel) : bool :=
  let '(r, g, b) := p in
  (200 <? r)%Z && (200 <? g)%Z && (200 <? b)%Z.

(** The inner loop over a row:
<<
    whites = []
    for px in range(w):
        r, g, b = arr[py, px, :3]
        if r > 200 and g > 200 and b > 200: whites.append(px)
>> *)
Definition whites (img : image) (py : nat) : list nat :=
  foldl (fun whites px =>
           if is_white (arr img py px) then whites ++ [px] else whites)
        [] (seq 0 (w img)).

(** What the script prints for the row: the extent [whites[0]]-[whites[-1]]
    with [len(whites)], or that there are no white pixels. *)
Inductive row_report :=
| WhiteExtent (first last count : nat)
| NoWhitePixels.

Definition report (img : image) (py : nat) : row_report :=
  match whites img py with
  | [] => NoWhitePixels
  | first :: _ =>
      WhiteExtent first (List.last (whites img py) first) (length (whites img py))
  end.

End Analyze6ed0.

(** ** Sample inputs *)

Module Samples.
Import PyStr IO.

(** A file of two lines that [fix-fonts.py] has nothing to do on. *)
Definition two_plain_lines : str :=
  lit "const a = 1;" ++ [nl] ++ lit "const b = 2;".

(** A file of 3950 empty lines. *)
Definition empty_lines_3950 : str := repeat nl 3950.

(** A one-line file with a monogram declaration. *)
Definition sans_declaration : str :=
  lit "const sansFont = FONT_STACKS.geometric;".

(** No character above ASCII counts as alphanumeric. *)
Definition ascii_only : N -> bool := fun _ => false.

(** A block whose template literal holds an expression with a string that
    holds an opening brace: [{`${"{"}`}]. *)
Definition brace_in_template_expr : str :=
  lit "{`${" ++ [34%N] ++ lit "{" ++ [34%N] ++ lit "}`}".

(** A file with the start marker of [fix-cyan-tech.py] and neither of its
    end markers. *)
Definition start_marker_only : str :=
  lit "// head" ++ [nl] ++ FixCyanTech.start_marker ++ [nl]
  ++ lit "  return [];" ++ [nl] ++ lit "}" ++ [nl].

(** A text standing for the new function of [fix-cyan-tech.py]. *)
Definition replacement : str := lit "function layoutCyanTech() { return []; }".

(** A block with strings and comments that hold braces. *)
Definition braces_in_strings_and_comments : str :=
  lit "{ a = '}'; /* } */ b = " ++ [34%N] ++ lit "{{" ++ [34%N]
  ++ lit "; // }" ++ [nl] ++ lit " c = `}${ {x: 1} }{`; { } } tail".

(** A file without the start marker. *)
Definition no_marker : str := lit "// nothing here" ++ [nl].

(** A layout function as [add-logo-to-templates.py] expects it. *)
Definition hex_split_lines : list str :=
  [ lit "function layoutHexSplit(W: number, H: number): LayerV2[] {";
    lit "  const layers: LayerV2[] = [];";
    lit "  return layers;";
    lit "}" ].

(** The location of [analyze-business-cards.py] in a checkout. *)
Definition script_file : str := lit "/repo/scripts/analyze-business-cards.py".

(** An encoder standing for base64: the samples do not depend on it. *)
Definition plain_encoder : str -> str := fun data => data.

(** A model that answers every call. *)
Definition model_ok : nat -> str -> str + str :=
  fun _ _ => inr (lit "## CARD OVERVIEW").

(** A model that fails on the first call and answers afterwards. *)
Definition model_fails_once : nat -> str -> str + str :=
  fun n _ => match n with
             | O => inl (lit "overloaded")
             | S _ => inr (lit "## CARD OVERVIEW")
             end.

Definition env_text : str :=
  lit "# keys" ++ [nl] ++ lit "ANTHROPIC_API_KEY = sk-test" ++ [nl].

Definition env_text_without_key : str :=
  lit "# keys" ++ [nl] ++ [nl] ++ lit "OTHER=1" ++ [nl].

(** The files of a checkout in which every image of the list exists. *)
Definition image_files (script : str) : gmap (list N) (list N) :=
  list_to_map
    (map (fun name => (OsPath.join (AnalyzeBusinessCards.base_dir script) name,
                       lit "JPEG"))
         AnalyzeBusinessCards.images).

Definition checkout : gmap (list N) (list N) :=
  <[AnalyzeBusinessCards.env_path script_file := env_text]>
    (image_files script_file).

(** The same with the first image missing. *)
Definition checkout_first_image_missing : gmap (list N) (list N) :=
  delete (OsPath.join (AnalyzeBusinessCards.base_dir script_file)
            (lit "d470b54b4667bbb67204e858d6f0a01f.jpg"))
         checkout.

(** An image of one row, [10, 10, 10], [250, 250, 250], [201, 201, 200],
    [255, 201, 230], [0, 0, 0]. *)
Definition one_row : Analyze6ed0.image :=
  Analyze6ed0.Image 5 1
    (fun _ px => match px with
                 | 0%nat => (10, 10, 10)
                 | 1%nat => (250, 250, 250)
                 | 2%nat => (201, 201, 200)
                 | 3%nat => (255, 201, 230)
                 | _ => (0, 0, 0)
                 end).

End Samples.

(** ** fix-contact-overflow.py *)

Module FixContactOverflow.
Import PyStr IO.
Local Open Scope nat_scope.

Definition FILE : str :=
  lit "d:\dramac-ai-suite\src\lib\editor\business-card-adapter.ts".

Local Set Warnings "-abstract-large-number".

Definition call_lines : list nat :=
  [3244; 3398; 3592; 3851; 4202; 4357; 4513; 4653; 4867; 4990;
   5547; 5689; 5775; 5843].

Local Set Warnings "abstract-large-number".

(** The variables the loops update: the list [lines], the list
    [call_lines], which the script changes while it iterates over it, and
    the counter [changes]. *)
Record state := State {
  lines : list str;
  calls : list nat;
  changes : nat
}.

(** ['}));' in line or '}))' in line] *)
Definition closes (line : str) : bool :=
  contains (lit "}));") line || contains (lit "}))") line.

(** The search of the inner loop, [for k in range(idx, min(idx + 20,
    len(lines)))], for the first line that closes the call; [window] holds
    the lines of the range and [k] is the index of its first line. *)
Fixpoint find_closing (window : list str) (k : nat) : option nat :=
  match window with
  | [] => None
  | line :: rest => if closes line then Some k else find_closing rest (S k)
  end.

(** [lines.insert(k, x)] for [0 <= k <= len(lines)]. *)
Definition list_insert_at {A} (k : nat) (x : A) (l : list A) : list A :=
  take k l ++ x :: drop k l.

(** The index [k - 1] of [lines[k - 1]], for [k < len(lines)]: Python
    counts [-1] from the end. *)
Definition prev_index (k len : nat) : nat :=
  match k with
  | O => len - 1
  | S k' => k'
  end.

(** [prev_line[:len(prev_line) - len(prev_line.lstrip())]] *)
Definition indent_of (prev_line : str) : str :=
  take (length prev_line - length (lstrip prev_line)) prev_line.

(** The body of the inner loop at the closing line [k], up to its [break]. *)
Definition add_max_y (ln k : nat) (st : state) : M state :=
  let idx := ln - 1 in
  let block := concat (take (k + 1 - idx) (drop idx (lines st))) in
  if contains (lit "maxY") block then
    print (lit "  SKIP L" ++ dec ln ++ lit ": maxY already present");;
    mret st
  else
    let prev_line_idx := prev_index k (length (lines st)) in
    match lines st !! prev_line_idx with
    | None => raise IndexError
    | Some prev_line =>
        let prop_indent := indent_of prev_line in
        let prev_stripped := rstrip prev_line in
        let lines1 :=
          if endswith (lit ",") prev_stripped then lines st
          else <[prev_line_idx := prev_stripped ++ lit "," ++ [nl]]> (lines st) in
        let lines2 :=
          list_insert_at k (prop_indent ++ lit "maxY: H * 0.95," ++ [nl]) lines1 in
        print (lit "  ADDED maxY at L" ++ dec (k + 1)
               ++ lit " (for contactWithIcons at L" ++ dec ln ++ lit ")");;
        mret (State lines2
                (map (fun c => if ln <? c then c + 1 else c) (calls st))
                (S (changes st)))
    end.

(** The body of [for ln in call_lines], at the position [pos] of the list:
    the loop reads the element as it is when it gets there.  The call lines
    are 3244 or more, so that [idx = ln - 1] is a position from the left. *)
Definition visit (pos : nat) (st : state) : M state :=
  match calls st !! pos with
  | None => mret st
  | Some ln =>
      let idx := ln - 1 in
      let stop := Nat.min (idx + 20) (length (lines st)) in
      match find_closing (take (stop - idx) (drop idx (lines st))) idx with
      | None => mret st
      | Some k => add_max_y ln k st
      end
  end.

(** The whole script. *)
Definition main : M unit :=
  content ← read_file FILE;
  st ← for_fold visit (seq 0 (length call_lines))
         (State (readlines content) call_lines 0);
  print (nl :: lit "Total changes: " ++ dec (changes st));;
  write_file FILE (concat (lines st));;
  print (lit "File saved.").

End FixContactOverflow.

(** ** analyze-6ed0.py: the bounding boxes of the two cards *)

Module CardBounds.
Import Analyze6ed0.
Local Open Scope nat_scope.

(** The four variables of a bounding-box loop: [white_top], [white_bottom]
    ([None] at first), [white_left] and [white_right]. *)
Record bounds := Bounds {
  top : option nat;
  bottom : option nat;
  left : nat;
  right : nat
}.

(** [np.where(mask)[0]] on the row [y]: the positions of the row where the
    mask holds, in increasing order. *)
Definition where_ (mask : pixel -> bool) (img : image) (y : nat) : list nat :=
  filter (fun x => mask (arr img y x) = true) (seq 0 (w img)).

(** The body of [for y in range(h)]:
<<
    if len(bright) > 50:
        if white_top is None: white_top = y
        white_bottom = y
        white_left = min(white_left, bright[0])
        white_right = max(white_right, bright[-1])
>> *)
Definition step (mask : pixel -> bool) (min_count : nat) (img : image)
    (b : bounds) (y : nat) : bounds :=
  let bright := where_ mask img y in
  if min_count <? length bright then
    Bounds (match top b with None => Some y | Some t => Some t end)
           (Some y)
           (Nat.min (left b) (hd 0 bright))
           (Nat.max (right b) (List.last bright 0))
  else b.

(** The loop, entered with [None], [None], [w] and [0]. *)
Definition scan (mask : pixel -> bool) (min_count : nat) (img : image) : bounds :=
  foldl (step mask min_count img) (Bounds None None (w img) 0) (seq 0 (h img)).

(** [(row[:, 0] > 220) & (row[:, 1] > 220) & (row[:, 2] > 220)] *)
Definition is_bright (p : pixel) : bool :=
  let '(r, g, b) := p in
  (220 <? r)%Z && (220 <? g)%Z && (220 <? b)%Z.

(** [(row[:, 0] < 80) & (row[:, 1] < 80) & (row[:, 2] < 80)] *)
Definition is_dark (p : pixel) : bool :=
  let '(r, g, b) := p in
  (r <? 80)%Z && (g <? 80)%Z && (b <? 80)%Z.

(** The white card: rows with more than 50 bright pixels. *)
Definition white_card (img : image) : bounds := scan is_bright 50 img.

(** The dark card: rows with more than 100 dark pixels. *)
Definition dark_card (img : image) : bounds := scan is_dark 100 img.

End CardBounds.

(** ** add-logo-to-templates.py: the guard around the company text, and the
    script *)

Module AddLogoScript.
Import PyStr IO AddLogo.
Local Open Scope nat_scope.

Definition FILE : str :=
  lit "d:\dramac-ai-suite\src\lib\editor\business-card-adapter.ts".

(** The information sign U+24D8 of the message for a guard that is there. *)
Definition info_sign : str := [9432%N].

(** [lines[i]] for an integer [i]: Python counts a negative index from the
    end; [None] stands for [IndexError]. *)
Definition py_get {A} (l : list A) (i : Z) : option A :=
  let n := Z.of_nat (length l) in
  if (0 <=? i)%Z then l !! Z.to_nat i
  else if (0 <=? n + i)%Z then l !! Z.to_nat (n + i)
  else None.

(** [lines.insert(i, x)]: the index is brought into [0 .. len(lines)] the
    way a slice bound is. *)
Definition py_insert {A} (i : Z) (x : A) (l : list A) : list A :=
  let k := Z.to_nat (clamp (Z.of_nat (length l)) i) in
  take k l ++ x :: drop k l.

(** How the search for the company text ends. *)
Inductive search_result :=
| FoundAt (i : nat)
| NotFound
| SearchRaisesIndexError.

(** [for i in range(start, ret_line + 10): if company_name_text in lines[i]],
    over [count] indices from [i] on. *)
Fixpoint search (lines : list str) (text : str) (i count : nat) : search_result :=
  match count with
  | O => NotFound
  | S count' =>
      match lines !! i with
      | None => SearchRaisesIndexError
      | Some line =>
          if contains text line then FoundAt i
          else search lines text (S i) count'
      end
  end.

(** [while push_start > start and "layers.push(" not in lines[push_start]:
    push_start -= 1] *)
Fixpoint find_push (lines : list str) (start push_start : nat) : option nat :=
  match push_start with
  | O => Some O
  | S p =>
      if start <? S p then
        match lines !! S p with
        | None => None
        | Some line =>
            if contains (lit "layers.push(") line then Some (S p)
            else find_push lines start p
        end
      else Some (S p)
  end.

(** [while comment_line > start and lines[comment_line].strip() == "":
    comment_line -= 1], entered with a [comment_line] that is not
    negative. *)
Fixpoint skip_blank (lines : list str) (start comment_line : nat) : option nat :=
  match comment_line with
  | O => Some O
  | S c =>
      if start <? S c then
        match lines !! S c with
        | None => None
        | Some line =>
            if bool_decide (strip line = []) then skip_blank lines start c
            else Some (S c)
        end
      else Some (S c)
  end.

(** The search for the end of the push block,
<<
    for j in range(i, min(i + 30, len(lines))):
        paren_depth += lines[j].count("(") - lines[j].count(")")
        if "}));" in lines[j] or (paren_depth <= 0 and lines[j].strip().endswith("));")):
            push_end = j; break
>>
    over the lines [window] of the range, the first of which has index [j]. *)
Fixpoint find_push_end (window : list str) (paren_depth : Z) (j : nat)
  : option nat :=
  match window with
  | [] => None
  | line :: rest =>
      let paren_depth := (paren_depth + (count_char 40%N line - count_char 41%N line))%Z in
      if contains (lit "}));") line
         || (paren_depth <=? 0)%Z && endswith (lit "));") (strip line)
      then Some j
      else find_push_end rest paren_depth (S j)
  end.

(** How a call of [wrap_company_with_guard] ends. *)
Inductive guard_result :=
| GuardReturns (lines : list str) (flag : bool)
| GuardRaisesIndexError.

(** The body of the search loop at the line [i] that holds the company
    text: the lines printed and how the call ends. *)
Definition guard_at (lines : list str) (func_name : str) (start i : nat)
  : list str * guard_result :=
  match find_push lines start i with
  | None => ([], GuardRaisesIndexError)
  | Some push_start =>
      let prev_line :=
        match push_start with
        | O => Some []
        | S p => strip <$> lines !! p
        end in
      match prev_line with
      | None => ([], GuardRaisesIndexError)
      | Some prev_line =>
          if contains (lit "if (!cfg.logoUrl)") prev_line then
            ([lit "  " ++ info_sign ++ lit " " ++ func_name
                ++ lit " company already guarded"],
             GuardReturns lines true)
          else
            let comment_line : option Z :=
              match push_start with
              | O => Some (-1)%Z
              | S p => Z.of_nat <$> skip_blank lines start p
              end in
            match comment_line with
            | None => ([], GuardRaisesIndexError)
            | Some comment_line =>
                match py_get lines comment_line with
                | None => ([], GuardRaisesIndexError)
                | Some line =>
                    let push_start : Z :=
                      if startswith (lit "//") (strip line) then comment_line
                      else Z.of_nat push_start in
                    let stop := Nat.min (i + 30) (length lines) in
                    let push_end :=
                      default i (find_push_end (take (stop - i) (drop i lines)) 0 i) in
                    let lines := py_insert push_start (lit "  if (!cfg.logoUrl) {") lines in
                    let lines := py_insert (Z.of_nat (push_end + 2)) (lit "  }") lines in
                    ([lit "  " ++ check_mark ++ lit " Added if (!cfg.logoUrl) guard in "
                        ++ func_name],
                     GuardReturns lines true)
                end
            end
      end
  end.

(** [wrap_company_with_guard(func_name, company_name_text)] on the global
    [lines]. *)
Definition wrap_company_with_guard (lines : list str)
    (func_name company_name_text : str) : list str * guard_result :=
  match find_function_range lines func_name with
  | (out, (Some start, Some ret_line)) =>
      match search lines company_name_text start (ret_line + 10 - start) with
      | FoundAt i =>
          let '(out', r) := guard_at lines func_name start i in
          (out ++ out', r)
      | NotFound =>
          (out ++ [lit "  " ++ warning_sign ++ lit " Could not find company text '"
                     ++ company_name_text ++ lit "' in " ++ func_name],
           GuardReturns lines false)
      | SearchRaisesIndexError => (out, GuardRaisesIndexError)
      end
  | (out, _) => (out, GuardReturns lines false)
  end.

Definition templates_no_company : list (str * (str * str * str * str)) :=
  take 12 templates.

(** [templates_with_company]: the entries with their [company_marker]. *)
Definition templates_with_company : list (str * (str * str * str * str) * str) :=
  [ (lit "layoutCorporateChevron",
       (lit "W * 0.07", lit "H * 0.42", lit "H * 0.06",
        lit "t.accent || " ++ [34%N] ++ lit "#1C1C1E" ++ [34%N]),
     lit "Company Branding");
    (lit "layoutZigzagOverlay",
       (lit "W * 0.03", lit "H * 0.07", lit "H * 0.06", white),
     lit "name: " ++ [34%N] ++ lit "Company" ++ [34%N]);
    (lit "layoutDotCircle",
       (lit "W * 0.67", lit "H * 0.14", lit "H * 0.10", white),
     lit "Logo Text") ].

(** The body of the first loop of the script, on [lines] and [changes]. *)
Definition no_company_step (entry : str * (str * str * str * str))
    (st : list str * nat) : M (list str * nat) :=
  print (nl :: lit "[" ++ entry.1 ++ lit "]");;
  let '(lines, out, made) := add_logo st.1 entry in
  print_all out;;
  mret (lines, if made then S st.2 else st.2).

(** The body of the second loop. *)
Definition with_company_step (entry : str * (str * str * str * str) * str)
    (st : list str * nat) : M (list str * nat) :=
  let '(template, company_marker) := entry in
  print (nl :: lit "[" ++ template.1 ++ lit "]");;
  let '(lines, out, made) := add_logo st.1 template in
  print_all out;;
  let changes := if made then S st.2 else st.2 in
  let '(out, r) := wrap_company_with_guard lines template.1 company_marker in
  print_all out;;
  match r with
  | GuardReturns lines _ => mret (lines, changes)
  | GuardRaisesIndexError => raise IndexError
  end.

(** The whole script. *)
Definition main : M unit :=
  content ← read_file FILE;
  let lines := split nl content in
  let original_count := length lines in
  print (lit "=== Adding buildWatermarkLogo to 15 templates ===" ++ [nl]);;
  st ← for_fold no_company_step templates_no_company (lines, 0);
  st ← for_fold with_company_step templates_with_company st;
  write_file FILE (join [nl] st.1);;
  print (nl :: lit "=== Done! " ++ dec st.2 ++ lit " templates updated. Lines: "
         ++ dec original_count ++ lit " " ++ [8594%N] ++ lit " "
         ++ dec (length st.1) ++ lit " ===").

End AddLogoScript.

(** ** swap-front-back.py: [find_back_registration] *)

Module SwapBackRegistration.
Import PyStr SwapFrontBack.
Local Open Scope nat_scope.

Definition rparen : char := 41%N.
Definition semicolon : char := 59%N.

(** What [\s*] takes at the start of a text: the number of white space
    characters the text opens with.  In a pattern for [str], [\s] is the
    white space of [str.isspace()]. *)
Fixpoint spaces (s : str) : nat :=
  match s with
  | c :: s' => if is_space c then S (spaces s') else 0
  | [] => 0
  end.

(** A match of [=>\s*\{] at the start of [s]: its length.  A brace is no
    white space, so that [\s*] has to take all the white space there is. *)
Definition arrow_here (s : str) : option nat :=
  if startswith (lit "=>") s then
    let n := spaces (drop 2 s) in
    if startswith [lbrace] (drop (2 + n) s) then Some (2 + n + 1) else None
  else None.

(** [re.search(r'=>\s*\{', s)]: the start of the lowest match and its
    length; positions are counted from [i]. *)
Fixpoint search_arrow (s : str) (i : nat) : option (nat * nat) :=
  match arrow_here s with
  | Some n => Some (i, n)
  | None =>
      match s with
      | [] => None
      | _ :: s' => search_arrow s' (S i)
      end
  end.

(** [re.match(r'\s*\)\s*;', rest)]: the length of the match. *)
Definition match_close (rest : str) : option nat :=
  let n := spaces rest in
  if startswith [rparen] (drop n rest) then
    let m := spaces (drop (n + 1) rest) in
    if startswith [semicolon] (drop (n + 1 + m) rest)
    then Some (n + 1 + m + 1)
    else None
  else None.

(** [find_back_registration(content, template_id)]: the printed lines and
    the dictionary it returns ([None] for Python's [None]).  The pattern
    [rf'registerBackLayout\("{re.escape(template_id)}"'] is the literal text
    [registerBackLayout("<id>"] for the identifiers of [SWAPPED], which hold
    letters and hyphens only.  The position handed to [find_matching_brace]
    is the one of the brace the arrow search ended with. *)
Definition find_back_registration (content template_id : str)
  : list str * option func_info :=
  let pattern := lit "registerBackLayout(" ++ [dquote] ++ template_id ++ [dquote] in
  match find_at pattern content 0 with
  | None =>
      ([lit "ERROR: Could not find registerBackLayout for " ++ template_id], None)
  | Some reg_start =>
      let match_end := reg_start + length pattern in
      match search_arrow (drop match_end content) 0 with
      | None =>
          ([lit "ERROR: Could not find arrow function for " ++ template_id], None)
      | Some (arrow_start, arrow_len) =>
          let brace_pos := match_end + arrow_start + (arrow_len - 1) in
          match find_matching_brace content brace_pos with
          | Returns brace_close =>
              let reg_end := brace_close + 1 in
              let reg_end :=
                match match_close (drop reg_end content) with
                | Some n => reg_end + n
                | None => reg_end
                end in
              ([], Some (FuncInfo reg_start reg_end
                           (slice content (Z.of_nat (brace_pos + 1)) (Z.of_nat brace_close))
                           (slice content (Z.of_nat reg_start) (Z.of_nat reg_end))
                           brace_pos brace_close))
          | _ => ([], None)
          end
      end
  end.

End SwapBackRegistration.

(** ** analyze-6ed0.py: the blocks of rows within a card *)

Module CardBlocks.
Local Open Scope nat_scope.

Section Blocks.

(** [has_dark] for the row [y] (for the dark card, [has_light]): whether
    more than three pixels of the row, between the bounds of the card, are
    darker than 180 (lighter than 120) on the average of their channels.
    numpy computes it from the image. *)
Variable has_dark : nat -> bool.

(** The variables of the loop: [prev_has_dark], [block_start] and
    [blocks]. *)
Record state := State {
  prev_has_dark : bool;
  block_start : option nat;
  blocks : list (nat * nat)
}.

(** The body of [for y in range(white_top, white_bottom + 1)]:
<<
    if has_dark and not prev_has_dark:
        block_start = y
    elif not has_dark and prev_has_dark and block_start is not None:
        blocks.append((block_start, y))
        block_start = None
    prev_has_dark = has_dark
>> *)
Definition step (st : state) (y : nat) : state :=
  let has := has_dark y in
  if has && negb (prev_has_dark st) then State has (Some y) (blocks st)
  else
    match block_start st with
    | Some s =>
        if negb has && prev_has_dark st
        then State has None (blocks st ++ [(s, y)])
        else State has (Some s) (blocks st)
    | None => State has None (blocks st)
    end.

(** The loop and what follows it,
<<
    if block_start is not None:
        blocks.append((block_start, white_bottom))
>> *)
Definition find_blocks (top bottom : nat) : list (nat * nat) :=
  let st := foldl step (State false None []) (seq top (bottom + 1 - top)) in
  match block_start st with
  | Some s => blocks st ++ [(s, bottom)]
  | None => blocks st
  end.

End Blocks.

End CardBlocks.

(** ** analyze-6ed0.py: the colour clusters *)

Module ColorClusters.
Import Analyze6ed0.
Local Open Scope nat_scope.

(** [range(0, n, 4)], the positions a slice [::4] takes. *)
Definition every_fourth (n : nat) : list nat :=
  map (fun k => 4 * k) (seq 0 ((n + 3) / 4)).

(** [arr[::4, ::4, :3].reshape(-1, 3)]: every fourth pixel of every fourth
    row, row after row. *)
Definition sampled (img : image) : list pixel :=
  flat_map (fun y => map (fun x => arr img y x) (every_fourth (w img)))
           (every_fourth (h img)).

(** [(c // 10) * 10] on the three channels. *)
Definition rounded (p : pixel) : pixel :=
  let '(r, g, b) := p in
  ((r / 10) * 10, (g / 10) * 10, (b / 10) * 10)%Z.

(** [unique_colors[key] = unique_colors.get(key, 0) + 1] on a dictionary
    kept as the list of its items in the order of insertion: a key that is
    there keeps its place, a new key goes to the end. *)
Fixpoint bump (key : pixel) (d : list (pixel * nat)) : list (pixel * nat) :=
  match d with
  | [] => [(key, 0 + 1)]
  | (k, n) :: d' =>
      if decide (k = key) then (k, n + 1) :: d' else (k, n) :: bump key d'
  end.

(** The loop [for c in rounded]. *)
Definition unique_colors (img : image) : list (pixel * nat) :=
  foldl (fun d c => bump (rounded c) d) [] (sampled img).

(** [sorted(items, key=lambda x: -x[1])]: the sort is stable, so that an
    item comes after the items that have a larger count and before the
    later items that have the same or a smaller one. *)
Fixpoint insert_by_count (x : pixel * nat) (l : list (pixel * nat))
  : list (pixel * nat) :=
  match l with
  | [] => [x]
  | y :: l' => if x.2 <? y.2 then y :: insert_by_count x l' else x :: l
  end.

Definition sorted_by_count (items : list (pixel * nat)) : list (pixel * nat) :=
  foldr insert_by_count [] items.

Definition sorted_colors (img : image) : list (pixel * nat) :=
  sorted_by_count (unique_colors img).

(** The clusters the script prints, [sorted_colors[:30]]. *)
Definition top_clusters (img : image) : list (pixel * nat) :=
  take 30 (sorted_colors img).

End ColorClusters.

(** ** More sample inputs *)

Module MoreSamples.
Import PyStr IO.

(** A block with strings, comments and a template literal that hold
    braces, and no template expression. *)
Definition block_without_template_expr : str :=
  lit "{ a = '}'; /* } */ b = " ++ [34%N] ++ lit "{{" ++ [34%N]
  ++ lit "; // }" ++ [nl] ++ lit " c = `}{`; { } } tail".

(** A file with one layout function. *)
Definition adapter_text : str :=
  lit "// head" ++ [nl]
  ++ lit "function layoutHexSplit(W: number): LayerV2[] {" ++ [nl]
  ++ lit "  return [];" ++ [nl]
  ++ lit "}" ++ [nl]
  ++ lit "// tail" ++ [nl].

(** Two lines to insert, and the sample function with them inserted before
    its [return layers;]. *)
Definition logo_lines : list str :=
  [lit "  // logo"; lit "  layers.push(logo);"].

Definition hex_split_with_logo : list str :=
  [ lit "function layoutHexSplit(W: number, H: number): LayerV2[] {";
    lit "  const layers: LayerV2[] = [];";
    lit "  // logo";
    lit "  layers.push(logo);";
    lit "  return layers;";
    lit "}" ].

(** A layout function whose company text sits in a push with a comment
    above it. *)
Definition dot_circle : list str :=
  [ lit "// cards";
    lit "function layoutDotCircle(W: number, H: number): LayerV2[] {";
    lit "  const layers: LayerV2[] = [];";
    lit "  // Company";
    lit "  layers.push(styledText({";
    lit "    name: 'Logo Text',";
    lit "  }));";
    lit "  return layers;";
    lit "}" ].

(** The same function with the guard around the push. *)
Definition dot_circle_guarded : list str :=
  [ lit "// cards";
    lit "function layoutDotCircle(W: number, H: number): LayerV2[] {";
    lit "  const layers: LayerV2[] = [];";
    lit "  if (!cfg.logoUrl) {";
    lit "  // Company";
    lit "  layers.push(styledText({";
    lit "    name: 'Logo Text',";
    lit "  }));";
    lit "  }";
    lit "  return layers;";
    lit "}" ].

(** A new text for [layoutCyanTech], which opens with the header the script
    looks for, and a file with the function and the comment that ends the
    replaced region. *)
Definition cyan_new_function : str :=
  FixCyanTech.start_marker ++ [nl] ++ lit "  return [];" ++ [nl]
  ++ lit "}" ++ [nl; nl].

Definition cyan_adapter : str :=
  lit "// head" ++ [nl] ++ FixCyanTech.start_marker ++ [nl]
  ++ lit "  return old;" ++ [nl] ++ lit "}" ++ [nl; nl]
  ++ FixCyanTech.end_marker ++ [nl] ++ lit "// tail" ++ [nl].

End MoreSamples.

Module BackSamples.
Import PyStr.

(** A file with the back layout of one template. *)
Definition registration_text : str :=
  lit "// backs" ++ [nl]
  ++ lit "registerBackLayout(" ++ [34%N] ++ lit "hex-split" ++ [34%N]
  ++ lit ", (W, H, cfg, theme) => {" ++ [nl]
  ++ lit "  return [];" ++ [nl]
  ++ lit "}  );" ++ [nl]
  ++ lit "// tail" ++ [nl].

End BackSamples.

Module BlockSamples.
Local Open Scope nat_scope.

(** Rows 2, 3 and 5 hold dark pixels. *)
Definition dark_rows (y : nat) : bool := bool_decide (y ∈ [2; 3; 5]%nat).

End BlockSamples.


Module CyanSamples.
Import PyStr.

(** A file in which the call that registers the back layout has another
    comment above it. *)
Definition adapter_without_comment : str :=
  lit "// head" ++ [nl] ++ FixCyanTech.start_marker ++ [nl]
  ++ lit "  return old;" ++ [nl] ++ lit "}" ++ [nl]
  ++ lit "// back" ++ [nl]
  ++ FixCyanTech.end_marker2 ++ lit ", back);" ++ [nl].

(** The part of it before the line above the call, without its newline. *)
Definition before_the_comment : str :=
  lit "// head" ++ [nl] ++ FixCyanTech.start_marker ++ [nl]
  ++ lit "  return old;" ++ [nl] ++ lit "}".

End CyanSamples.

(* ====================================================================== *)
(** * Part II: properties *)
(* ====================================================================== *)

(** ** Python strings *)

Section PyStrFacts.
Import PyStr.
Local Open Scope nat_scope.

Lemma startswith_nil_l (s : list N) : startswith [] s = true.
Proof. by destruct s. Qed.

Lemma startswith_spec (p s : list N) :
  startswith p s = true <-> exists t, s = p ++ t.
Proof.
  revert s; induction p as [|a p IH]; intros s.
  - rewrite startswith_nil_l. split; [eauto|done].
  - destruct s as [|b s]; simpl.
    + split; [done|]. by intros [t Ht].
    + rewrite andb_true_iff, N.eqb_eq, IH. split.
      * intros [-> [t ->]]. eauto.
      * intros [t [= -> ->]]. eauto.
Qed.

Lemma split_nonempty (c : N) (s : list N) : split c s <> [].
Proof.
  induction s as [|x s IH]; simpl; [done|].
  destruct (x =? c)%N; [done|]. by destruct (split c s).
Qed.

Lemma join_cons (sep l : list N) (ls : list (list N)) :
  ls <> [] -> join sep (l :: ls) = l ++ sep ++ join sep ls.
Proof. by destruct ls. Qed.

(** Joining what was split gives the text back. *)
Lemma join_split (c : N) (s : list N) : join [c] (split c s) = s.
Proof.
  induction s as [|x s IH]; simpl; [done|].
  destruct (x =? c)%N eqn:E.
  - apply N.eqb_eq in E as ->.
    rewrite join_cons by apply split_nonempty. simpl. by rewrite IH.
  - pose proof (split_nonempty c s) as Hne.
    destruct (split c s) as [|l ls]; [done|].
    destruct ls; simpl in *; by rewrite <- IH.
Qed.

Lemma split_no_sep (c : N) (s : list N) : Forall (fun l => c ∉ l) (split c s).
Proof.
  induction s as [|x s IH]; simpl.
  - constructor; [|done]. apply not_elem_of_nil.
  - destruct (x =? c)%N eqn:E.
    + constructor; [apply not_elem_of_nil|done].
    + apply N.eqb_neq in E.
      pose proof (split_nonempty c s) as Hne.
      destruct (split c s) as [|l ls]; [done|].
      inversion IH; subst. constructor; [|done].
      rewrite elem_of_cons. intros [->|]; done.
Qed.

Lemma split_app_no_sep (c : N) (l s : list N) :
  c ∉ l ->
  split c (l ++ s) = (l ++ hd [] (split c s)) :: tl (split c s).
Proof.
  intros Hl. induction l as [|x l IH]; simpl.
  - pose proof (split_nonempty c s). by destruct (split c s).
  - apply not_elem_of_cons in Hl as [Hx Hl].
    destruct (x =? c)%N eqn:E; [apply N.eqb_eq in E; congruence|].
    by rewrite IH.
Qed.

(** Splitting what was joined gives the lines back, when there is at least
    one line and no line holds the separator. *)
Lemma split_join (c : N) (ls : list (list N)) :
  ls <> [] -> Forall (fun l => c ∉ l) ls -> split c (join [c] ls) = ls.
Proof.
  induction ls as [|l ls IH]; [done|]. intros _ Hall.
  inversion Hall as [|? ? Hl Hls]; subst.
  destruct ls as [|l' ls].
  - simpl. rewrite <- (app_nil_r l) at 1.
    rewrite split_app_no_sep by done. simpl. by rewrite app_nil_r.
  - rewrite join_cons by done.
    rewrite split_app_no_sep by done.
    change ([c] ++ join [c] (l' :: ls)) with (c :: join [c] (l' :: ls)).
    cbn [split]. rewrite N.eqb_refl. cbn [hd tl].
    rewrite app_nil_r, IH; done.
Qed.

Lemma replace_go_no_char (c : N) (old new s : list N) (skip : nat) :
  c ∉ s -> c ∉ new -> c ∉ replace_go old new s skip.
Proof.
  intros Hs Hnew. revert skip.
  induction s as [|x s IH]; intros skip; simpl; [done|].
  apply not_elem_of_cons in Hs as [Hx Hs].
  destruct skip; [|by apply IH].
  destruct (startswith old (x :: s)).
  - rewrite elem_of_app. intros [?|?]; [done|]. by eapply IH.
  - rewrite elem_of_cons. intros [?|?]; [done|]. by eapply IH.
Qed.

(** A replacement introduces no character that is neither in the text nor
    in the new text. *)
Lemma replace_no_char (c : N) (old new s : list N) :
  c ∉ s -> c ∉ new -> c ∉ replace old new s.
Proof.
  intros Hs Hnew. destruct old as [|o old]; simpl.
  - rewrite elem_of_app. intros [?|Hin]; [done|].
    induction s as [|x s IH]; simpl in Hin; [by apply not_elem_of_nil in Hin|].
    apply not_elem_of_cons in Hs as [Hx Hs].
    rewrite elem_of_cons, elem_of_app in Hin.
    destruct Hin as [?|[?|?]]; [done|done|by apply IH].
  - by apply replace_go_no_char.
Qed.

Lemma find_at_none (sub s : list N) (i : nat) :
  find_at sub s i = None ->
  startswith sub s = false /\
  match s with [] => True | _ :: s' => find_at sub s' (S i) = None end.
Proof.
  destruct s as [|x s]; cbn [find_at]; destruct (startswith sub _); done.
Qed.

Lemma find_at_shift (sub s : list N) (i j : nat) :
  find_at sub s i = None -> find_at sub s j = None.
Proof.
  revert i j. induction s as [|x s IH]; intros i j; cbn [find_at];
    destruct (startswith sub _); try done.
  apply IH.
Qed.

Lemma replace_go_absent (old new s : list N) (i : nat) :
  find_at old s i = None -> replace_go old new s 0 = s.
Proof.
  revert i. induction s as [|x s IH]; intros i H; [done|].
  apply find_at_none in H as [H1 H2]. cbn [replace_go]. rewrite H1.
  f_equal. by eapply IH.
Qed.

(** Replacing a text that does not occur changes nothing. *)
Lemma replace_absent (old new s : list N) :
  contains old s = false -> replace old new s = s.
Proof.
  unfold contains. destruct (find_at old s 0) eqn:E; [done|]. intros _.
  destruct old as [|o old].
  - destruct s; simpl in E; done.
  - by eapply replace_go_absent.
Qed.

(** [writelines] of what [readlines] gave writes the text that was read. *)
Lemma concat_readlines (s : list N) : concat (readlines s) = s.
Proof.
  induction s as [|c s IH]; [done|]. cbn [readlines].
  destruct (c =? nl)%N.
  - simpl. by rewrite IH.
  - destruct (readlines s) as [|l ls] eqn:E.
    + simpl in *. by rewrite <- IH.
    + simpl in *. by rewrite IH.
Qed.

End PyStrFacts.

(** ** Logs of a run *)

Section LogFacts.
Import PyStr IO.

Lemma api_calls_app (l1 l2 : list event) :
  api_calls (l1 ++ l2) = api_calls l1 ++ api_calls l2.
Proof. apply omap_app. Qed.

Lemma paths_written_app (l1 l2 : list event) :
  paths_written (l1 ++ l2) = paths_written l1 ++ paths_written l2.
Proof. apply omap_app. Qed.

Lemma paths_read_app (l1 l2 : list event) :
  paths_read (l1 ++ l2) = paths_read l1 ++ paths_read l2.
Proof. apply omap_app. Qed.

Lemma api_calls_nil : api_calls [] = [].
Proof. reflexivity. Qed.

Lemma api_calls_cons (e : event) (l : list event) :
  api_calls (e :: l)
  = match e with ApiCall d => d :: api_calls l | _ => api_calls l end.
Proof. by destruct e. Qed.

Lemma paths_written_nil : paths_written [] = [].
Proof. reflexivity. Qed.

Lemma paths_written_cons (e : event) (l : list event) :
  paths_written (e :: l)
  = match e with OpenWrite p => p :: paths_written l | _ => paths_written l end.
Proof. by destruct e. Qed.

Lemma paths_read_nil : paths_read [] = [].
Proof. reflexivity. Qed.

Lemma paths_read_cons (e : event) (l : list event) :
  paths_read (e :: l)
  = match e with OpenRead p => p :: paths_read l | _ => paths_read l end.
Proof. by destruct e. Qed.

Lemma paths_written_map_print (ts : list (list N)) :
  paths_written (map Print ts) = [].
Proof. by induction ts. Qed.

Lemma paths_read_map_print (ts : list (list N)) :
  paths_read (map Print ts) = [].
Proof. by induction ts. Qed.

Lemma paths_written_prints (l : list event) (ts : list (list N)) :
  paths_written (l ++ map Print ts) = paths_written l.
Proof.
  by rewrite paths_written_app, paths_written_map_print, app_nil_r.
Qed.

(** Printing does not matter for which files are written after being
    read. *)
Lemma writes_follow_reads_prints
    (seen : list (list N)) (ts : list (list N)) (l : list event) :
  writes_follow_reads seen (map Print ts ++ l) = writes_follow_reads seen l.
Proof. by induction ts. Qed.

End LogFacts.

Create Rewrite HintDb logs.

#[local] Hint Rewrite
  api_calls_app paths_written_app paths_read_app
  api_calls_cons api_calls_nil paths_written_cons paths_written_nil
  paths_read_cons paths_read_nil paths_written_map_print paths_read_map_print
  @app_nil_r : logs.

(** Brings the projections of a log built from explicit events to normal
    form. *)
Ltac simpl_logs := repeat (autorewrite with logs; cbn beta iota).

(** ** fix-fonts.py *)

Section FixFontsFacts.
Import PyStr IO FixFonts.
Local Open Scope nat_scope.

(** What every loop of the script keeps: the number of lines, and that no
    line holds a newline. *)
Local Abbreviation keeps n st :=
  (length (lines st) = n /\ Forall (fun l => nl ∉ l) (lines st)).

Ltac no_newline :=
  match goal with |- ?P => apply (bool_decide_unpack P); vm_compute; exact I end.

Lemma keeps_insert (n i : nat) (x : list N) (ls : list (list N)) c o :
  keeps n (State ls c o) -> nl ∉ x -> keeps n (State (<[i := x]> ls) c o).
Proof.
  simpl. intros [Hlen Hall] Hx. split.
  - by rewrite length_insert.
  - by apply Forall_insert.
Qed.

Lemma keeps_lookup (ls : list (list N)) (i : nat) (l : list N) :
  Forall (fun l => nl ∉ l) ls -> ls !! i = Some l -> nl ∉ l.
Proof. intros Hall Hl. by eapply (Forall_lookup_1 _ _ _ _ Hall Hl). Qed.

Lemma replace_listed_keeps n new what i st :
  nl ∉ new -> keeps n st -> keeps n (replace_listed new what i st).
Proof.
  intros Hnew Hst. unfold replace_listed.
  destruct (lines st !! i) as [old|] eqn:E; [|done].
  assert (nl ∉ replace geometric new old) as Hr.
  { apply replace_no_char; [|done]. eapply keeps_lookup; [apply Hst|done]. }
  destruct st as [ls c o]. simpl in *.
  case_bool_decide; by apply (keeps_insert n).
Qed.

Lemma delete_listed_keeps n i st : keeps n st -> keeps n (delete_listed i st).
Proof.
  intros Hst. unfold delete_listed.
  destruct (lines st !! i) as [line|]; [|done].
  destruct (contains const_ff line); [|done].
  destruct st as [ls c o]. apply (keeps_insert n); [done|apply not_elem_of_nil].
Qed.

Lemma listed_step_keeps n st i : keeps n st -> keeps n (listed_step st i).
Proof.
  intros Hst. unfold listed_step.
  repeat match goal with |- context [if ?b then _ else _] => destruct b end;
    try done;
    try (apply replace_listed_keeps; [no_newline|done]).
  by apply delete_listed_keeps.
Qed.

Lemma sans_step_keeps n st i : keeps n st -> keeps n (sans_step st i).
Proof.
  intros Hst. unfold sans_step.
  destruct (lines st !! i) as [line|] eqn:E; [|done].
  destruct (contains const_sans line); [|done].
  assert (nl ∉ line) by (eapply keeps_lookup; [apply Hst|done]).
  destruct st as [ls c o].
  destruct (is_back _ _); apply (keeps_insert n); try done;
    apply replace_no_char; try done; no_newline.
Qed.

Lemma serif_step_keeps n st i : keeps n st -> keeps n (serif_step st i).
Proof.
  intros Hst. unfold serif_step.
  destruct (lines st !! i) as [line|] eqn:E; [|done].
  destruct (contains const_serif line); [|done].
  assert (nl ∉ line) by (eapply keeps_lookup; [apply Hst|done]).
  destruct st as [ls c o].
  destruct (is_back _ _); [|done]. apply (keeps_insert n); try done.
  apply replace_no_char; try done; no_newline.
Qed.

Lemma enumerate_lines_keeps n step st :
  (forall st i, keeps n st -> keeps n (step st i)) ->
  keeps n st -> keeps n (enumerate_lines step st).
Proof.
  intros Hstep. unfold enumerate_lines.
  generalize (seq 0 (length (lines st))) as xs. intros xs. revert st.
  induction xs as [|x xs IH]; intros st Hst; simpl; [done|].
  apply IH, Hstep, Hst.
Qed.

Lemma patch_keeps content :
  keeps (length (split nl content)) (patch content).
Proof.
  unfold patch.
  apply enumerate_lines_keeps; [apply serif_step_keeps|].
  apply enumerate_lines_keeps; [apply sans_step_keeps|].
  apply enumerate_lines_keeps; [apply listed_step_keeps|].
  simpl. split; [done|apply split_no_sep].
Qed.

(** C8: fix-fonts.py preserves the number of lines of the file: for every
    content read, the content written back has as many newline-separated
    lines as the content read.  Every edit rewrites a line in place, with a
    text that has no newline, or empties it; the list is joined as it is. *)
Theorem fix_fonts_preserves_line_count (content : list N) :
  length (split nl (written content)) = length (split nl content).
Proof.
  destruct (patch_keeps content) as [Hlen Hall]. unfold written.
  rewrite split_join; [done| |done].
  intros Hnil. rewrite Hnil in Hlen. simpl in Hlen.
  pose proof (split_nonempty nl content) as Hne.
  destruct (split nl content); [done|discriminate].
Qed.

(** *** Runs that change nothing *)

Lemma state_eta st : State (lines st) (changes_made st) (out st) = st.
Proof. by destruct st. Qed.

Lemma replace_listed_id new what i st :
  (forall old, lines st !! i = Some old -> contains geometric old = false) ->
  replace_listed new what i st = st.
Proof.
  intros H. unfold replace_listed.
  destruct (lines st !! i) as [old|] eqn:E; [|done].
  rewrite (replace_absent _ _ _ (H old eq_refl)).
  rewrite bool_decide_eq_true_2 by done.
  rewrite list_insert_id by done. apply state_eta.
Qed.

Lemma delete_listed_id i st :
  (forall line, lines st !! i = Some line -> contains const_ff line = false) ->
  delete_listed i st = st.
Proof.
  intros H. unfold delete_listed.
  destruct (lines st !! i) as [line|] eqn:E; [|done].
  by rewrite (H line eq_refl).
Qed.

Lemma foldl_fixed {A B} (f : A -> B -> A) (a : A) (xs : list B) :
  (forall x, f a x = a) -> foldl f a xs = a.
Proof.
  intros H. induction xs as [|x xs IH]; simpl; [done|]. by rewrite H.
Qed.

Lemma in_list_true n l : in_list n l = true -> n ∈ l.
Proof. unfold in_list. intros H. by apply bool_decide_eq_true_1 in H. Qed.

Lemma listed_step_id st i :
  (forall line, lines st !! i = Some line ->
     S i ∈ front_font_lines ++ back_font_lines ++ back_ff_lines ->
     contains geometric line = false) ->
  (forall line, lines st !! i = Some line ->
     S i ∈ front_ff_delete_lines -> contains const_ff line = false) ->
  listed_step st i = st.
Proof.
  intros H1 H2. unfold listed_step.
  destruct (in_list (S i) front_font_lines) eqn:E1.
  { apply replace_listed_id. intros old Hold. apply H1; [done|].
    apply in_list_true in E1. rewrite !elem_of_app. auto. }
  destruct (in_list (S i) back_font_lines) eqn:E2.
  { apply replace_listed_id. intros old Hold. apply H1; [done|].
    apply in_list_true in E2. rewrite !elem_of_app. auto. }
  destruct (in_list (S i) front_ff_delete_lines) eqn:E3.
  { apply delete_listed_id. intros line Hline. apply H2; [done|].
    by apply in_list_true. }
  destruct (in_list (S i) back_ff_lines) eqn:E4; [|done].
  apply replace_listed_id. intros old Hold. apply H1; [done|].
  apply in_list_true in E4. rewrite !elem_of_app. auto.
Qed.

Lemma sans_step_id st i :
  (forall line, line ∈ lines st -> contains const_sans line = false) ->
  sans_step st i = st.
Proof.
  intros H. unfold sans_step.
  destruct (lines st !! i) as [line|] eqn:E; [|done].
  rewrite H; [done|]. by eapply list_elem_of_lookup_2.
Qed.

Lemma serif_step_id st i :
  (forall line, line ∈ lines st -> contains const_serif line = false) ->
  serif_step st i = st.
Proof.
  intros H. unfold serif_step.
  destruct (lines st !! i) as [line|] eqn:E; [|done].
  rewrite H; [done|]. by eapply list_elem_of_lookup_2.
Qed.

(** When no listed line holds the text searched on it and no line holds a
    monogram declaration, the three loops leave the state as it is. *)
Lemma patch_unchanged (content : list N) :
  (forall i line, split nl content !! i = Some line ->
     S i ∈ front_font_lines ++ back_font_lines ++ back_ff_lines ->
     contains geometric line = false) ->
  (forall i line, split nl content !! i = Some line ->
     S i ∈ front_ff_delete_lines -> contains const_ff line = false) ->
  (forall line, line ∈ split nl content ->
     contains const_sans line = false /\ contains const_serif line = false) ->
  patch content = State (split nl content) 0 [].
Proof.
  intros H1 H2 H3. unfold patch, enumerate_lines.
  rewrite (foldl_fixed listed_step).
  2:{ intros i. apply listed_step_id; simpl; [apply H1|apply H2]. }
  rewrite (foldl_fixed sans_step).
  2:{ intros i. apply sans_step_id. simpl. intros line Hl. by apply H3. }
  rewrite (foldl_fixed serif_step); [done|].
  intros i. apply serif_step_id. simpl. intros line Hl. by apply H3.
Qed.

End FixFontsFacts.

(** ** fix-ff-errors.py *)

Section FixFFErrorsFacts.
Import PyStr IO FixFFErrors.
Local Open Scope nat_scope.

Variable unicode_alnum : N -> bool.

(** One round of the loop either raises [IndexError] and leaves the world as
    it is, or keeps the number of lines and only prints. *)
Lemma fix_line_cases (line_num : nat) (st : list (list N) * nat) (w : world) :
  (length st.1 <= line_num - 1 /\
   fix_line unicode_alnum line_num st w = (Raised IndexError, w))
  \/ (line_num - 1 < length st.1 /\
      exists st' ts,
        fix_line unicode_alnum line_num st w
        = (Ret st', World (files w) (log w ++ map Print ts))
        /\ length st'.1 = length st.1).
Proof.
  unfold fix_line. destruct (st.1 !! (line_num - 1)) as [old|] eqn:E.
  - right. split; [by eapply lookup_lt_Some|].
    case_bool_decide.
    + exists st, []. destruct w. simpl. by rewrite app_nil_r.
    + exists (<[line_num - 1 := re_sub_ff unicode_alnum old]> st.1, S st.2),
        [lit "  L" ++ dec line_num ++ lit ": " ++ rstrip old;
         lit "       -> " ++ rstrip (re_sub_ff unicode_alnum old)].
      split; [|simpl; apply length_insert].
      unfold mbind, M_bind, print, emit, mret, M_ret. cbn [files log map].
      by rewrite <- app_assoc.
  - left. split; [by apply lookup_ge_None|done].
Qed.

Lemma for_fold_cons {A S} (body : A -> S -> M S) x xs s w :
  for_fold body (x :: xs) s w
  = match body x s w with
    | (Ret s', w') => for_fold body xs s' w'
    | (Exited c, w') => (Exited c, w')
    | (Raised e, w') => (Raised e, w')
    end.
Proof. reflexivity. Qed.

(** With every listed line in range the loop ends normally; it keeps the
    number of lines and only prints. *)
Lemma fix_lines_in_range (xs : list nat) (st : list (list N) * nat) (w : world) :
  Forall (fun n => n - 1 < length st.1) xs ->
  exists st' ts,
    for_fold (fix_line unicode_alnum) xs st w
    = (Ret st', World (files w) (log w ++ map Print ts))
    /\ length st'.1 = length st.1.
Proof.
  revert st w. induction xs as [|x xs IH]; intros st w Hall.
  - exists st, []. destruct w. simpl. by rewrite app_nil_r.
  - inversion Hall as [|? ? Hx Hxs]; subst. rewrite for_fold_cons.
    destruct (fix_line_cases x st w) as [[Hge _]|[_ (st1 & ts1 & -> & Hlen1)]];
      [lia|].
    destruct (IH st1 (World (files w) (log w ++ map Print ts1)))
      as (st2 & ts2 & -> & Hlen2).
    { by rewrite Hlen1. }
    exists st2, (ts1 ++ ts2). simpl. rewrite map_app, app_assoc.
    split; [done|congruence].
Qed.

(** With a listed line out of range the loop raises [IndexError], having
    only printed. *)
Lemma fix_lines_out_of_range (xs : list nat) (st : list (list N) * nat) (w : world) :
  Exists (fun n => length st.1 <= n - 1) xs ->
  exists ts,
    for_fold (fix_line unicode_alnum) xs st w
    = (Raised IndexError, World (files w) (log w ++ map Print ts)).
Proof.
  revert st w. induction xs as [|x xs IH]; intros st w Hex.
  - inversion Hex.
  - rewrite for_fold_cons.
    destruct (fix_line_cases x st w) as [[Hge ->]|[Hlt (st1 & ts1 & -> & Hlen1)]].
    + exists []. destruct w. simpl. by rewrite app_nil_r.
    + inversion Hex as [? ? Hx|? ? Hxs]; subst; [lia|].
      destruct (IH st1 (World (files w) (log w ++ map Print ts1))) as (ts2 & ->).
      { by rewrite Hlen1. }
      exists (ts1 ++ ts2). simpl. by rewrite map_app, app_assoc.
Qed.

Lemma fix_3950_cases (st : list (list N) * nat) (w : world) :
  (length st.1 < 3950 /\ fix_3950 st w = (Raised IndexError, w))
  \/ (3950 <= length st.1 /\
      exists st' ts,
        fix_3950 st w = (Ret st', World (files w) (log w ++ map Print ts))).
Proof.
  unfold fix_3950. change (3950 - 1) with 3949.
  destruct (st.1 !! 3949) as [l|] eqn:E.
  - right. apply lookup_lt_Some in E. split; [lia|].
    destruct (contains _ l).
    + by eexists _, [_].
    + exists st, []. destruct w. simpl. by rewrite app_nil_r.
  - left. apply lookup_ge_None in E. split; [lia|done].
Qed.

Lemma ff_error_lines_below :
  Forall (fun n => n - 1 < 3950) ff_error_lines.
Proof.
  unfold ff_error_lines. repeat (apply Forall_cons; split; [lia|]).
  apply Forall_nil_2.
Qed.

Lemma main_read (fs : gmap (list N) (list N)) (content : list N) :
  fs !! FILE = Some content ->
  read_file FILE (World fs []) = (Ret content, World fs [OpenRead FILE]).
Proof. intros H. unfold read_file. simpl. by rewrite H. Qed.


(** *** Runs that change nothing *)

Lemma fix_line_id (line_num : nat) (st : list (list N) * nat) (w : world) :
  (exists old, st.1 !! (line_num - 1) = Some old /\ re_sub_ff unicode_alnum old = old) ->
  fix_line unicode_alnum line_num st w = (Ret st, w).
Proof.
  intros (old & Hold & Hsub). unfold fix_line. rewrite Hold.
  by rewrite bool_decide_eq_true_2.
Qed.

Lemma fix_lines_id (xs : list nat) (st : list (list N) * nat) (w : world) :
  Forall (fun n => exists old, st.1 !! (n - 1) = Some old
                               /\ re_sub_ff unicode_alnum old = old) xs ->
  for_fold (fix_line unicode_alnum) xs st w = (Ret st, w).
Proof.
  induction 1 as [|x xs Hx Hxs IH]; [done|].
  by rewrite for_fold_cons, fix_line_id.
Qed.

(** When no listed line is modified, the script writes back the text it
    read. *)
Lemma fix_ff_errors_unchanged
    (fs : gmap (list N) (list N)) (content : list N) :
  fs !! FILE = Some content ->
  Forall (fun n => exists old, readlines content !! (n - 1) = Some old
                               /\ re_sub_ff unicode_alnum old = old)
         ff_error_lines ->
  (exists l, readlines content !! 3949 = Some l
             /\ contains (lit "const ff = ff") l = false) ->
  exists w, run (main unicode_alnum) fs = (Ret tt, w)
            /\ files w = <[FILE := content]> fs
            /\ paths_written (log w) = [FILE].
Proof.
  intros Hfile Hlines (l & Hl & Hno). unfold run, main.
  unfold mbind at 1. unfold M_bind at 1. rewrite (main_read _ _ Hfile).
  unfold mbind at 1. unfold M_bind at 1.
  rewrite (fix_lines_id ff_error_lines (readlines content, 0)) by done.
  unfold mbind at 1. unfold M_bind at 1.
  unfold fix_3950. change (3950 - 1) with 3949. cbn [fst]. rewrite Hl, Hno.
  eexists. split; [reflexivity|]. cbn [fst]. rewrite concat_readlines. done.
Qed.

End FixFFErrorsFacts.

(** ** Runs that change nothing write back what they read *)

Section RoundTrip.
Import PyStr IO.
Local Open Scope nat_scope.

Lemma fix_fonts_main_run (fs : gmap (list N) (list N)) (content : list N) :
  fs !! FixFonts.filepath = Some content ->
  exists w, run FixFonts.main fs = (Ret tt, w)
            /\ files w = <[FixFonts.filepath := FixFonts.written content]> fs
            /\ paths_read (log w) = [FixFonts.filepath]
            /\ paths_written (log w) = [FixFonts.filepath].
Proof.
  intros Hfile. unfold run, FixFonts.main.
  unfold mbind at 1. unfold M_bind at 1. unfold read_file at 1.
  cbn [files log]. rewrite Hfile.
  eexists. split; [reflexivity|]. cbn [files log]. split; [done|].
  unfold print_all, print, emit, write_file, mbind, M_bind. cbn [files log].
  by rewrite !paths_read_app, !paths_written_app, paths_read_map_print,
    paths_written_map_print.
Qed.


Lemma two_plain_lines_split :
  split nl Samples.two_plain_lines = [lit "const a = 1;"; lit "const b = 2;"].
Proof. vm_compute. reflexivity. Qed.


End RoundTrip.

(** ** analyze-6ed0.py: the white region of a row *)

Section WhiteRegion.
Import Analyze6ed0.
Local Open Scope nat_scope.

Lemma is_white_spec (r g b : Z) :
  is_white (r, g, b) = true <-> (200 < r /\ 200 < g /\ 200 < b)%Z.
Proof. unfold is_white. rewrite !andb_true_iff, !Z.ltb_lt. tauto. Qed.

(** The loop appends the white positions in the order of the scan. *)
Lemma whites_loop (P : nat -> bool) (acc : list nat) (xs : list nat) :
  foldl (fun whites px => if P px then whites ++ [px] else whites) acc xs
  = acc ++ filter (fun px => P px = true) xs.
Proof.
  revert acc. induction xs as [|x xs IH]; intros acc; simpl.
  - by rewrite filter_nil, app_nil_r.
  - rewrite IH, filter_cons. destruct (P x) eqn:E.
    + rewrite decide_True by done. by rewrite <- app_assoc.
    + rewrite decide_False by congruence. done.
Qed.

Lemma whites_filter (img : image) (py : nat) :
  whites img py
  = filter (fun px => is_white (arr img py px) = true) (seq 0 (w img)).
Proof. unfold whites. by rewrite whites_loop. Qed.

Lemma elem_of_whites (img : image) (py px : nat) :
  px ∈ whites img py <-> px < w img /\ is_white (arr img py px) = true.
Proof.
  rewrite whites_filter, list_elem_of_filter, elem_of_seq. split.
  - intros [? [? ?]]. split; [lia|done].
  - intros [? ?]. split; [done|lia].
Qed.

Lemma last_default_irrelevant {A} (x : A) (l : list A) (d d' : A) :
  List.last (x :: l) d = List.last (x :: l) d'.
Proof.
  revert x. induction l as [|y l IH]; intros x; [done|].
  change (List.last (y :: l) d = List.last (y :: l) d'). apply IH.
Qed.

(** In the selection of an ascending range the first element is the least
    and the last the greatest. *)
Lemma filter_seq_extent (P : nat -> bool) (n a x : nat) (l : list nat) :
  filter (fun px => P px = true) (seq a n) = x :: l ->
  forall y, y ∈ x :: l -> x <= y <= List.last (x :: l) x.
Proof.
  revert a x l. induction n as [|n IH]; intros a x l Hf; [done|].
  simpl in Hf. rewrite filter_cons in Hf.
  destruct (decide (P a = true)) as [Ha|Ha]; [|by eapply IH].
  injection Hf as <- Hl.
  assert (forall y, y ∈ l -> S a <= y) as Hlow.
  { intros y Hy. rewrite <- Hl, list_elem_of_filter, elem_of_seq in Hy. lia. }
  destruct l as [|x' l'].
  - intros y Hy. apply list_elem_of_singleton in Hy as ->. simpl. lia.
  - specialize (IH (S a) x' l' Hl).
    change (List.last (a :: x' :: l') a) with (List.last (x' :: l') a).
    rewrite (last_default_irrelevant x' l' a x').
    intros y Hy. apply elem_of_cons in Hy as [->|Hy].
    + assert (x' ∈ x' :: l') as Hx' by apply list_elem_of_here.
      specialize (IH x' Hx'). specialize (Hlow x' Hx'). lia.
    + specialize (IH y Hy). specialize (Hlow y Hy). lia.
Qed.

Lemma last_elem_of {A} (x : A) (l : list A) : List.last (x :: l) x ∈ x :: l.
Proof.
  revert x. induction l as [|y l IH]; intros x; [apply list_elem_of_here|].
  change (List.last (x :: y :: l) x) with (List.last (y :: l) x).
  rewrite (last_default_irrelevant y l x y).
  apply list_elem_of_further, IH.
Qed.

(** C7: in the white-region detection of analyze-6ed0.py a pixel of the
    scanned row counts as white exactly when its R, G and B values all
    exceed 200; the extent printed for the row runs from the first to the
    last pixel so classified, with their number, and a row without such a
    pixel is reported as having no white pixels. *)
Theorem white_region_of_row (img : image) (py : nat) :
  (forall px,
     px ∈ whites img py <->
     px < w img /\
     let '(r, g, b) := arr img py px in (200 < r /\ 200 < g /\ 200 < b)%Z)
  /\ match report img py with
     | NoWhitePixels => forall px, px ∉ whites img py
     | WhiteExtent first last count =>
         first ∈ whites img py /\ last ∈ whites img py
         /\ (forall px, px ∈ whites img py -> first <= px <= last)
         /\ count = length (whites img py)
     end.
Proof.
  split.
  - intros px. rewrite elem_of_whites.
    destruct (arr img py px) as [[r g] b]. by rewrite is_white_spec.
  - unfold report. destruct (whites img py) as [|x l] eqn:E.
    + intros px. apply not_elem_of_nil.
    + split; [apply list_elem_of_here|]. split; [apply last_elem_of|].
      split; [|done]. rewrite whites_filter in E.
      by apply (filter_seq_extent _ _ _ _ _ E).
Qed.

(** On the sample row the second and the fourth pixel are white; the third,
    whose blue value is exactly 200, is not. *)
Example white_region_of_sample_row :
  whites Samples.one_row 0 = [1; 3]
  /\ report Samples.one_row 0 = WhiteExtent 1 3 2.
Proof. split; reflexivity. Qed.

End WhiteRegion.

(** ** swap-front-back.py: the matching brace *)

Section MatchingBrace.
Import PyStr SwapFrontBack.
Local Open Scope nat_scope.

(** On a block whose strings and comments hold braces, the function returns
    the brace that the reference lexer finds. *)
Example find_matching_brace_strings_and_comments :
  find_matching_brace Samples.braces_in_strings_and_comments 0 = Returns 60
  /\ spec_matching_brace Samples.braces_in_strings_and_comments 0 = Some 60
  /\ Samples.braces_in_strings_and_comments !! 60 = Some rbrace.
Proof. repeat split; vm_compute; reflexivity. Qed.

(** C1 (fails on the code): on the block [{`${"{"}`}], of ten characters,
    the opening brace at 0 is closed by the brace at 9; the brace between
    the double quotes is inside a string of the template expression.  The
    loop over the template expression counts that brace, runs to the end of
    the text, and [find_matching_brace] returns 11, which is not a position
    of the text. *)
Theorem find_matching_brace_counts_brace_in_expr_string :
  length Samples.brace_in_template_expr = 10
  /\ spec_matching_brace Samples.brace_in_template_expr 0 = Some 9
  /\ Samples.brace_in_template_expr !! 9 = Some rbrace
  /\ find_matching_brace Samples.brace_in_template_expr 0 = Returns 11
  /\ Samples.brace_in_template_expr !! 11 = None.
Proof. repeat split; vm_compute; reflexivity. Qed.

End MatchingBrace.

(** ** Markers that are not found *)

Section MissingMarkers.
Import PyStr IO.
Local Open Scope nat_scope.

Lemma find_at_lt (sub s : list N) (i j : nat) :
  find_at sub s i = Some j -> i <= j.
Proof.
  revert i. induction s as [|x s IH]; intros i; cbn [find_at];
    destruct (startswith sub _); try (intros [= <-]; lia); try done.
  intros H. apply IH in H. lia.
Qed.

Lemma first_index_none_find_return
    (lines : list (list N)) (func_name : list N) :
  AddLogo.first_index
    (contains (lit "function " ++ func_name ++ lit "(")) lines 0 = None ->
  AddLogo.find_function_range lines func_name
  = ([lit "  " ++ AddLogo.warning_sign ++ lit " Could not find function "
        ++ func_name], (None, None)).
Proof. intros H. unfold AddLogo.find_function_range. by rewrite H. Qed.




End MissingMarkers.

(** ** Running a patch a second time *)

Section SecondRun.
Import PyStr IO AddLogo.
Local Open Scope nat_scope.

(** The brace depth after the lines [ls], from the depth [d]. *)
Local Abbreviation depth_after d ls :=
  (foldl (fun d l => (d + (count_char 123 l - count_char 125 l))%Z) d ls).

Local Abbreviation is_function func_name :=
  (contains (lit "function " ++ func_name ++ lit "(")).

Lemma length_list_insert_at {A} (i : nat) (x : A) (l : list A) :
  length (list_insert_at i x l) = S (length l).
Proof.
  unfold list_insert_at. rewrite length_app. simpl.
  rewrite length_take, length_drop. lia.
Qed.

Lemma length_insert_all (ret_line j : nat) (code_lines lines : list (list N)) :
  length (insert_all ret_line j code_lines lines)
  = length lines + length code_lines.
Proof.
  revert j lines. induction code_lines as [|cl rest IH]; intros j lines; simpl.
  - lia.
  - rewrite IH, length_list_insert_at. lia.
Qed.

(** The insertions put the block, in order, before the line [ret_line]. *)
Lemma insert_all_splice (code_lines pre mid post : list (list N)) :
  insert_all (length pre) (length mid) code_lines (pre ++ mid ++ post)
  = pre ++ mid ++ code_lines ++ post.
Proof.
  revert mid. induction code_lines as [|cl rest IH]; intros mid; simpl; [done|].
  unfold list_insert_at.
  replace (take (length pre + length mid) (pre ++ mid ++ post))
    with (pre ++ mid).
  2:{ rewrite app_assoc, take_app_length'; [done|]. by rewrite length_app. }
  replace (drop (length pre + length mid) (pre ++ mid ++ post)) with post.
  2:{ rewrite app_assoc, drop_app_length'; [done|]. by rewrite length_app. }
  specialize (IH (mid ++ [cl])). rewrite length_app in IH. simpl in IH.
  replace (S (length mid)) with (length mid + 1) by lia.
  rewrite <- !app_assoc in *. simpl in *. by rewrite IH.
Qed.

Lemma first_index_bounds {A} (P : A -> bool) (l : list A) (i s : nat) :
  first_index P l i = Some s -> i <= s < i + length l.
Proof.
  revert i. induction l as [|x l IH]; intros i; simpl; [done|].
  destruct (P x); [intros [= <-]; lia|]. intros H. apply IH in H. lia.
Qed.

Lemma first_index_shift {A} (P : A -> bool) (l : list A) (i k : nat) :
  first_index P l (i + k) = (fun s => s + k) <$> first_index P l i.
Proof.
  revert i. induction l as [|x l IH]; intros i; simpl; [done|].
  destruct (P x); [done|]. apply (IH (S i)).
Qed.

Lemma first_index_app {A} (P : A -> bool) (l1 l2 : list A) (i : nat) :
  first_index P (l1 ++ l2) i
  = match first_index P l1 i with
    | Some s => Some s
    | None => first_index P l2 (i + length l1)
    end.
Proof.
  revert i. induction l1 as [|x l1 IH]; intros i; simpl.
  - by rewrite Nat.add_0_r.
  - destruct (P x); [done|]. rewrite IH.
    by replace (S i + length l1) with (i + S (length l1)) by lia.
Qed.

Lemma find_return_bounds (ls : list (list N)) (d : Z) (i r : nat) :
  find_return ls d i = Some r -> i <= r < i + length ls.
Proof.
  revert d i. induction ls as [|l ls IH]; intros d i; simpl; [done|].
  destruct (_ && _); [intros [= <-]; lia|]. intros H. apply IH in H. lia.
Qed.

Lemma find_return_shift (ls : list (list N)) (d : Z) (i k : nat) :
  find_return ls d (i + k) = (fun r => r + k) <$> find_return ls d i.
Proof.
  revert d i. induction ls as [|l ls IH]; intros d i; simpl; [done|].
  destruct (_ && _); [done|]. apply (IH _ (S i)).
Qed.

(** When the scan of [A ++ L] stops at the first line of [L], the scan of
    [L] alone, entered with the depth reached after [A], stops there too. *)
Lemma find_return_app_exact (A L : list (list N)) (d : Z) (i : nat) :
  find_return (A ++ L) d i = Some (i + length A) ->
  find_return L (depth_after d A) (i + length A) = Some (i + length A).
Proof.
  revert d i. induction A as [|a A IH]; intros d i; simpl.
  - by rewrite Nat.add_0_r.
  - destruct (_ && _); [intros [= H]; lia|].
    replace (i + S (length A)) with (S i + length A) by lia. apply IH.
Qed.

(** A line that stops the scan of [L] is reached, unless the scan stops
    before, in [A]. *)
Lemma find_return_app_some (A L : list (list N)) (d : Z) (i : nat) :
  is_Some (find_return L (depth_after d A) (i + length A)) ->
  is_Some (find_return (A ++ L) d i).
Proof.
  revert d i. induction A as [|a A IH]; intros d i; simpl.
  - by rewrite Nat.add_0_r.
  - destruct (_ && _); [done|].
    replace (i + S (length A)) with (S i + length A) by lia. apply IH.
Qed.

Lemma depth_after_neutral (A : list (list N)) (d : Z) :
  Forall (fun l => (count_char 123 l - count_char 125 l = 0)%Z) A ->
  depth_after d A = d.
Proof.
  intros H. revert d. induction H as [|a A Ha _ IH]; intros d; simpl; [done|].
  rewrite Ha, Z.add_0_r. apply IH.
Qed.

(** The block inserted for a template holds no brace, and none of its lines
    holds the head of the template's function. *)
Lemma templates_code_neutral :
  forall func_name x_expr y_expr size_expr color_expr,
    (func_name, (x_expr, y_expr, size_expr, color_expr)) ∈ templates ->
    Forall (fun l => (count_char 123 l - count_char 125 l = 0)%Z)
           (code x_expr y_expr size_expr color_expr)
    /\ first_index (is_function func_name)
         (code x_expr y_expr size_expr color_expr) 0 = None
    /\ length (code x_expr y_expr size_expr color_expr) = 7.
Proof.
  assert (Forall (fun entry : list N * (list N * list N * list N * list N) =>
            forallb (fun l => (count_char 123 l - count_char 125 l =? 0)%Z)
                    (code entry.2.1.1.1 entry.2.1.1.2 entry.2.1.2 entry.2.2)
            = true
            /\ first_index (is_function entry.1)
                 (code entry.2.1.1.1 entry.2.1.1.2 entry.2.1.2 entry.2.2) 0
               = None)
           templates) as Hall.
  { unfold templates.
    repeat (apply Forall_cons; split; [split; vm_compute; reflexivity|]).
    apply Forall_nil_2. }
  intros func_name x_expr y_expr size_expr color_expr Hin.
  rewrite Forall_forall in Hall. specialize (Hall _ Hin). cbn [fst snd] in Hall.
  destruct Hall as [Hb Hf]. split; [|split; [done|reflexivity]].
  apply Forall_forall. intros l Hl.
  rewrite forallb_forall in Hb. apply Z.eqb_eq, Hb. by apply list_elem_of_In.
Qed.

(** A second insertion finds a [return layers;] line again. *)
Lemma find_function_range_again
    (lines code_lines : list (list N)) (func_name : list N) (start ret : nat) :
  Forall (fun l => (count_char 123 l - count_char 125 l = 0)%Z) code_lines ->
  first_index (is_function func_name) code_lines 0 = None ->
  first_index (is_function func_name) lines 0 = Some start ->
  find_return (drop start lines) 0 start = Some ret ->
  exists out start' ret',
    find_function_range (take ret lines ++ code_lines ++ drop ret lines) func_name
    = (out, (Some start', Some ret')).
Proof.
  intros Hneutral Hnofun Hstart Hret.
  pose proof (find_return_bounds _ _ _ _ Hret) as [Hle Hlt].
  pose proof (first_index_bounds _ _ _ _ Hstart) as [_ Hslt].
  rewrite length_drop in Hlt.
  assert (length (take ret lines) = ret) as Hlen by (rewrite length_take; lia).
  unfold find_function_range.
  destruct (decide (start < ret)) as [Hsr|Hsr].
  - (* the head of the function is above the return line *)
    assert (first_index (is_function func_name) (take ret lines) 0 = Some start)
      as Hpre.
    { rewrite <- (take_drop ret lines), first_index_app in Hstart.
      destruct (first_index _ (take ret lines) 0) as [s|] eqn:E; [done|].
      apply first_index_bounds in Hstart. lia. }
    rewrite first_index_app, Hpre.
    rewrite drop_app_le by lia.
    assert (length (drop start (take ret lines)) = ret - start) as HlenA.
    { rewrite length_drop. lia. }
    assert (is_Some (find_return
              (drop start (take ret lines) ++ code_lines ++ drop ret lines)
              0 start)) as [r' Hr'].
    { apply find_return_app_some. rewrite HlenA.
      replace (start + (ret - start)) with ret by lia.
      apply find_return_app_some.
      rewrite depth_after_neutral by done.
      rewrite find_return_shift.
      pose proof (find_return_app_exact (drop start (take ret lines))
                    (drop ret lines) 0 start) as Hexact.
      rewrite HlenA in Hexact.
      replace (start + (ret - start)) with ret in Hexact by lia.
      rewrite Hexact; [by eexists|].
      by rewrite drop_take_drop by lia. }
    rewrite Hr'. by eexists _, _, _.
  - (* the head of the function is the return line itself *)
    assert (start = ret) as -> by lia.
    assert (first_index (is_function func_name) (take ret lines) 0 = None)
      as Hpre.
    { rewrite <- (take_drop ret lines), first_index_app in Hstart.
      destruct (first_index _ (take ret lines) 0) as [s|] eqn:E; [|done].
      injection Hstart as ->. apply first_index_bounds in E. lia. }
    assert (first_index (is_function func_name) (drop ret lines) ret = Some ret)
      as Hsuf.
    { rewrite <- (take_drop ret lines), first_index_app, Hpre, Hlen in Hstart
        at 1.
      done. }
    assert (first_index (is_function func_name) code_lines ret = None) as Hc.
    { pose proof (first_index_shift (is_function func_name) code_lines 0 ret)
        as H.
      by rewrite Hnofun in H. }
    assert (first_index (is_function func_name) (drop ret lines)
              (ret + length code_lines) = Some (ret + length code_lines)) as Hs.
    { by rewrite first_index_shift, Hsuf. }
    rewrite first_index_app, Hpre, first_index_app, Hlen, !Nat.add_0_l, Hc, Hs.
    replace (drop (ret + length code_lines)
               (take ret lines ++ code_lines ++ drop ret lines))
      with (drop ret lines).
    2:{ rewrite app_assoc, drop_app_length'; [done|].
        rewrite length_app. lia. }
    rewrite find_return_shift, Hret. simpl. by eexists _, _, _.
Qed.

(** An insertion that was made found the head of the function and its
    return line. *)
Lemma insert_before_return_made
    (lines code_lines lines1 out1 : list (list N)) (func_name : list N) :
  insert_before_return lines func_name code_lines = (lines1, out1, true) ->
  exists start ret,
    first_index (is_function func_name) lines 0 = Some start
    /\ find_return (drop start lines) 0 start = Some ret
    /\ lines1 = insert_all ret 0 code_lines lines.
Proof.
  unfold insert_before_return, find_function_range.
  destruct (first_index (is_function func_name) lines 0) as [start|];
    [|simpl; congruence].
  destruct (find_return (drop start lines) 0 start) as [ret|] eqn:Hret;
    [|simpl; congruence].
  simpl. intros [= <- _]. exists start, ret. by repeat split.
Qed.

(** C3 (as amended): a second run of the insertion of
    add-logo-to-templates.py does not leave the file unchanged.  For every
    template of the script's tables and every list of lines on which the
    insertion has been made once, the same insertion made on the result is
    made again: the seven lines of the block are inserted a second time. *)
Theorem add_logo_inserts_again
    (lines lines1 out1 : list (list N))
    (entry : list N * (list N * list N * list N * list N)) :
  entry ∈ templates ->
  add_logo lines entry = (lines1, out1, true) ->
  exists lines2 out2,
    add_logo lines1 entry = (lines2, out2, true)
    /\ length lines1 = length lines + 7
    /\ length lines2 = length lines1 + 7
    /\ lines2 <> lines1.
Proof.
  destruct entry as [func_name [[[x_expr y_expr] size_expr] color_expr]].
  intros Hin Hrun.
  destruct (templates_code_neutral _ _ _ _ _ Hin) as (Hneutral & Hnofun & Hlen).
  change (insert_before_return lines func_name
            (code x_expr y_expr size_expr color_expr) = (lines1, out1, true))
    in Hrun.
  change (exists lines2 out2,
            insert_before_return lines1 func_name
              (code x_expr y_expr size_expr color_expr) = (lines2, out2, true)
            /\ length lines1 = length lines + 7
            /\ length lines2 = length lines1 + 7
            /\ lines2 <> lines1).
  revert Hneutral Hnofun Hlen Hrun.
  generalize (code x_expr y_expr size_expr color_expr) as code_lines.
  intros code_lines Hneutral Hnofun Hlen Hrun.
  destruct (insert_before_return_made _ _ _ _ _ Hrun)
    as (start & ret & Hstart & Hret & ->).
  unfold insert_before_return.
  pose proof (find_return_bounds _ _ _ _ Hret) as [Hle Hlt].
  pose proof (first_index_bounds _ _ _ _ Hstart) as [_ Hslt].
  rewrite length_drop in Hlt.
  assert (insert_all ret 0 code_lines lines
          = take ret lines ++ code_lines ++ drop ret lines) as Hsplice.
  { pose proof (insert_all_splice code_lines (take ret lines) [] (drop ret lines))
      as H.
    simpl in H. rewrite length_take, take_drop in H.
    by replace (ret `min` length lines) with ret in H by lia. }
  rewrite Hsplice.
  destruct (find_function_range_again lines code_lines func_name start ret
              Hneutral Hnofun Hstart Hret) as (out & start' & ret' & ->).
  eexists _, _. split; [reflexivity|].
  rewrite length_insert_all, !length_app, length_take, length_drop, Hlen.
  split; [lia|]. split; [lia|].
  intros Heq. apply (f_equal length) in Heq.
  rewrite length_insert_all, !length_app, length_take, length_drop, Hlen in Heq.
  lia.
Qed.

Lemma add_logo_inserts_again_witness :
  exists lines2 out2,
    add_logo (add_logo Samples.hex_split_lines
                (lit "layoutHexSplit",
                 (lit "W * 0.45", lit "H * 0.06", lit "H * 0.10",
                  lit "t.frontText"))).1.1
             (lit "layoutHexSplit",
              (lit "W * 0.45", lit "H * 0.06", lit "H * 0.10", lit "t.frontText"))
    = (lines2, out2, true)
    /\ length (add_logo Samples.hex_split_lines
                 (lit "layoutHexSplit",
                  (lit "W * 0.45", lit "H * 0.06", lit "H * 0.10",
                   lit "t.frontText"))).1.1
       = length Samples.hex_split_lines + 7
    /\ length lines2
       = length (add_logo Samples.hex_split_lines
                   (lit "layoutHexSplit",
                    (lit "W * 0.45", lit "H * 0.06", lit "H * 0.10",
                     lit "t.frontText"))).1.1 + 7
    /\ lines2
       <> (add_logo Samples.hex_split_lines
             (lit "layoutHexSplit",
              (lit "W * 0.45", lit "H * 0.06", lit "H * 0.10",
               lit "t.frontText"))).1.1.
Proof.
  eapply (add_logo_inserts_again Samples.hex_split_lines _ _
            (lit "layoutHexSplit",
             (lit "W * 0.45", lit "H * 0.06", lit "H * 0.10", lit "t.frontText"))).
  - unfold templates. do 5 apply list_elem_of_further. apply list_elem_of_here.
  - vm_compute. reflexivity.
Defined.

(** C3 (fails as stated): fix-fonts.py run on its own output leaves it
    unchanged.  The first run rewrites the monogram declaration of the
    sample; the second finds nothing to rewrite. *)
Lemma fix_fonts_second_run_changes_nothing :
  FixFonts.written Samples.sans_declaration = lit "const sansFont = ff;"
  /\ FixFonts.written Samples.sans_declaration <> Samples.sans_declaration
  /\ FixFonts.written (FixFonts.written Samples.sans_declaration)
     = FixFonts.written Samples.sans_declaration.
Proof.
  split; [vm_compute; reflexivity|]. split; [|vm_compute; reflexivity].
  vm_compute. discriminate.
Qed.

End SecondRun.

(** ** analyze-business-cards.py *)

Section AnalyzeCardsFacts.
Import PyStr IO AnalyzeBusinessCards.
Local Open Scope nat_scope.

Variable script_file : list N.
Variable b64encode : list N -> list N.
Variable messages_create : nat -> list N -> list N + list N.

Local Abbreviation analyze_image :=
  (analyze script_file b64encode messages_create).
Local Abbreviation image_path name :=
  (OsPath.join (base_dir script_file) name).
Local Abbreviation report_path name := (output_file script_file name).

(** The three lines printed before an image is opened. *)
Local Abbreviation header i name :=
  [Print (nl :: rule);
   Print (lit "[" ++ dec (i + 1) ++ lit "/" ++ dec (length images)
          ++ lit "] Analyzing: " ++ name);
   Print rule].

Local Abbreviation error_line name err :=
  (Print (cross_mark ++ lit " Error analyzing " ++ name ++ lit ": " ++ err)).

(** *** The environment file *)

Lemma split1_at_first (c : N) (key value : list N) :
  c ∉ key -> split1 c (key ++ c :: value) = [key; value].
Proof.
  induction key as [|x key IH]; intros Hc; simpl.
  - by rewrite N.eqb_refl.
  - apply not_elem_of_cons in Hc as [Hx Hc].
    destruct (x =? c)%N eqn:E; [apply N.eqb_eq in E; congruence|].
    by rewrite IH.
Qed.

Lemma contains_char (c : N) (key value : list N) :
  contains [c] (key ++ c :: value) = true.
Proof.
  unfold contains. generalize 0.
  induction key as [|x key IH]; intros i; cbn [app find_at startswith].
  - by rewrite N.eqb_refl.
  - destruct (c =? x)%N; [done|]. cbn [andb]. apply IH.
Qed.

(** A blank line and a line that starts with [#] add nothing. *)
Lemma add_env_line_ignored (env_vars : gmap (list N) (list N)) (line : list N) :
  strip line = [] \/ startswith (lit "#") (strip line) = true ->
  add_env_line env_vars line = env_vars.
Proof.
  unfold add_env_line. intros [->| ->]; [done|].
  by rewrite andb_false_r.
Qed.

(** A line [KEY=VALUE] binds the stripped key to the stripped value; the key
    ends at the first [=]. *)
Lemma add_env_line_binding
    (env_vars : gmap (list N) (list N)) (line key value : list N) :
  strip line = key ++ 61%N :: value ->
  61%N ∉ key ->
  startswith (lit "#") (strip line) = false ->
  add_env_line env_vars line = <[strip key := strip value]> env_vars.
Proof.
  unfold add_env_line. intros Hline Hkey ->. rewrite Hline.
  rewrite bool_decide_eq_false_2 by (by destruct key).
  change (lit "=") with [61%N]. rewrite contains_char. cbn [negb andb].
  by rewrite split1_at_first.
Qed.


(** *** One image *)

Lemma analyze_cases (i : nat) (name : list N) (w : world) :
  match files w !! image_path name with
  | None =>
      analyze_image (i, name) w
      = (Raised (FileNotFoundError (image_path name)),
         World (files w) (log w ++ header i name))
  | Some data =>
      match messages_create (length (api_calls (log w))) (b64encode data) with
      | inl err =>
          analyze_image (i, name) w
          = (Ret tt,
             World (files w)
               (log w ++ header i name
                ++ [OpenRead (image_path name); ApiCall (b64encode data);
                    error_line name err]))
      | inr analysis =>
          analyze_image (i, name) w
          = (Ret tt,
             World (<[report_path name :=
                        lit "# Business Card Analysis: " ++ name ++ [nl; nl]
                        ++ analysis]> (files w))
               (log w ++ header i name
                ++ [OpenRead (image_path name); ApiCall (b64encode data);
                    OpenWrite (report_path name); Print analysis;
                    Print (nl :: ok_mark ++ lit " Saved to: "
                           ++ report_path name)]))
      end
  end.
Proof.
  unfold analyze.
  unfold mbind, M_bind, print, emit, read_file, try_except, call_model,
    write_file, mret, M_ret.
  cbn [files log].
  destruct (files w !! image_path name) as [data|] eqn:E.
  - cbn [files log]. simpl_logs.
    destruct (messages_create _ _) as [err|analysis]; cbn [files log exn_text].
    + f_equal. f_equal. by rewrite <- !app_assoc.
    + f_equal. f_equal. by rewrite <- !app_assoc.
  - cbn [files log]. f_equal. f_equal. by rewrite <- !app_assoc.
Qed.

End AnalyzeCardsFacts.

(** *** The loop over the images *)

Section AnalyzeLoopFacts.
Import PyStr IO AnalyzeBusinessCards.
Local Open Scope nat_scope.

Variable script_file : list N.
Variable b64encode : list N -> list N.
Variable messages_create : nat -> list N -> list N + list N.

Local Abbreviation analyze_image :=
  (analyze script_file b64encode messages_create).
Local Abbreviation image_path name :=
  (OsPath.join (base_dir script_file) name).
Local Abbreviation report_path name := (output_file script_file name).
Local Abbreviation error_line name err :=
  (Print (cross_mark ++ lit " Error analyzing " ++ name ++ lit ": " ++ err)).

Lemma for_each_cons {A} (body : A -> M unit) (x : A) (xs : list A) (w : world) :
  for_each (x :: xs) body w
  = match body x w with
    | (Ret _, w') => for_each xs body w'
    | (Exited c, w') => (Exited c, w')
    | (Raised e, w') => (Raised e, w')
    end.
Proof. reflexivity. Qed.

(** With every image in place the loop goes through the whole list: one
    call of the model for each image, and an error line for each call that
    failed. *)
Lemma analyze_all_run (names : list (list N)) (k : nat) (w : world) :
  (forall name, name ∈ names -> is_Some (files w !! image_path name)) ->
  length (api_calls (log w)) = k ->
  exists w',
    for_each (zip (seq k (length names)) names) analyze_image w = (Ret tt, w')
    /\ length (api_calls (log w')) = k + length names
    /\ (forall e, e ∈ log w -> e ∈ log w')
    /\ (forall p, is_Some (files w !! p) -> is_Some (files w' !! p))
    /\ (forall j name err,
          names !! j = Some name ->
          (forall data, messages_create (k + j) data = inl err) ->
          error_line name err ∈ log w').
Proof.
  revert k w. induction names as [|name rest IH]; intros k w Hfiles Hk.
  - exists w. simpl. split; [done|]. split; [lia|]. split; [done|].
    split; [done|]. intros j name err Hj. by rewrite lookup_nil in Hj.
  - cbn [length seq zip zip_with]. rewrite for_each_cons.
    pose proof (analyze_cases script_file b64encode messages_create k name w)
      as Hcase.
    destruct (Hfiles name (list_elem_of_here _ _)) as [data Hdata].
    rewrite Hdata, Hk in Hcase.
    destruct (messages_create k (b64encode data)) as [err|analysis] eqn:Hmodel;
      rewrite Hcase; clear Hcase.
    + match goal with |- context [for_each _ _ ?w1] =>
        destruct (IH (S k) w1) as (w' & Hrun & Hcalls & Hlog & Hkeep & Herr)
      end.
      { intros name' Hin. cbn [files]. apply Hfiles. by apply list_elem_of_further. }
      { cbn [log]. simpl_logs. rewrite !length_app. cbn [length]. lia. }
      exists w'. split; [done|]. split; [lia|]. split.
      { intros e He. apply Hlog. cbn [log]. rewrite elem_of_app. by left. }
      split; [done|].
      intros [|j] name' err' Hj Hfail.
      * injection Hj as <-. rewrite Nat.add_0_r in Hfail.
        specialize (Hfail (b64encode data)).
        rewrite Hmodel in Hfail. injection Hfail as <-.
        apply Hlog. cbn [log]. rewrite !elem_of_app, !elem_of_cons. auto 10.
      * apply (Herr j); [done|]. intros d. rewrite <- (Hfail d). f_equal. lia.
    + match goal with |- context [for_each _ _ ?w1] =>
        destruct (IH (S k) w1) as (w' & Hrun & Hcalls & Hlog & Hkeep & Herr)
      end.
      { intros name' Hin. cbn [files]. rewrite lookup_insert.
        case_decide; [by eexists|]. apply Hfiles. by apply list_elem_of_further. }
      { cbn [log]. simpl_logs. rewrite !length_app. cbn [length]. lia. }
      exists w'. split; [done|]. split; [lia|]. split.
      { intros e He. apply Hlog. cbn [log]. rewrite elem_of_app. by left. }
      split.
      { intros p Hp. apply Hkeep. cbn [files]. rewrite lookup_insert.
        case_decide; [by eexists|done]. }
      intros [|j] name' err' Hj Hfail.
      * rewrite Nat.add_0_r in Hfail. specialize (Hfail (b64encode data)).
        congruence.
      * apply (Herr j); [done|]. intros d. rewrite <- (Hfail d). f_equal. lia.
Qed.

(** Whatever files there are, the loop opens for writing nothing but
    reports of images of its list. *)
Lemma analyze_all_writes
    (Q : list N -> Prop) (items : list (nat * list N)) (w : world) :
  Forall Q (paths_written (log w)) ->
  (forall i name, (i, name) ∈ items -> Q (report_path name)) ->
  Forall Q (paths_written (log (for_each items analyze_image w).2)).
Proof.
  revert w. induction items as [|[i name] rest IH]; intros w Hw Hitems; [done|].
  rewrite for_each_cons.
  pose proof (analyze_cases script_file b64encode messages_create i name w)
    as Hcase.
  destruct (files w !! image_path name) as [data|].
  - destruct (messages_create _ _) as [err|analysis]; rewrite Hcase.
    + apply IH.
      * cbn [log]. by simpl_logs.
      * intros i' name' Hin. apply (Hitems i'). by apply list_elem_of_further.
    + apply IH.
      * cbn [log]. simpl_logs.
        apply Forall_app. split; [done|]. apply Forall_singleton.
        apply (Hitems i). apply list_elem_of_here.
      * intros i' name' Hin. apply (Hitems i'). by apply list_elem_of_further.
  - rewrite Hcase. cbn [snd log]. by simpl_logs.
Qed.


End AnalyzeLoopFacts.

(** ** Which files a run writes *)

Section FrameFacts.
Import PyStr IO.
Local Open Scope nat_scope.

Lemma writes_follow_reads_after_read (p : list N) (l : list event) :
  writes_follow_reads [] (OpenRead p :: l) = writes_follow_reads [p] l.
Proof. reflexivity. Qed.

Lemma writes_follow_reads_only_prints (seen : list (list N)) (ts : list (list N)) :
  writes_follow_reads seen (map Print ts) = true.
Proof. by induction ts. Qed.

Lemma fix_fonts_frame (fs : gmap (list N) (list N)) :
  writes_follow_reads [] (log (run FixFonts.main fs).2) = true.
Proof.
  unfold run, FixFonts.main.
  unfold mbind, M_bind, read_file, print_all, print, emit, write_file.
  cbn [files log].
  destruct (fs !! FixFonts.filepath) as [content|]; [|done].
  cbn [snd log app]. rewrite <- !app_assoc.
  rewrite writes_follow_reads_after_read, writes_follow_reads_prints.
  cbn [app writes_follow_reads].
  rewrite bool_decide_eq_true_2 by apply list_elem_of_here. done.
Qed.

(** The log of a run of fix-ff-errors.py: nothing, or the file opened for
    reading and lines printed, or that followed by the file opened for
    writing and more lines printed. *)
Lemma fix_ff_errors_log
    (unicode_alnum : N -> bool) (fs : gmap (list N) (list N)) :
  exists ts us,
    log (run (FixFFErrors.main unicode_alnum) fs).2 = []
    \/ log (run (FixFFErrors.main unicode_alnum) fs).2
       = OpenRead FixFFErrors.FILE :: map Print ts
    \/ log (run (FixFFErrors.main unicode_alnum) fs).2
       = OpenRead FixFFErrors.FILE
           :: map Print ts ++ OpenWrite FixFFErrors.FILE :: map Print us.
Proof.
  generalize (eq_refl (run (FixFFErrors.main unicode_alnum) fs)).
  generalize (run (FixFFErrors.main unicode_alnum) fs) at 1 3 4 5.
  intros r Hr. unfold run, FixFFErrors.main in Hr.
  unfold mbind at 1 in Hr. unfold M_bind at 1 in Hr.
  unfold read_file at 1 in Hr. cbn [files log app] in Hr.
  destruct (fs !! FixFFErrors.FILE) as [content|];
    [|subst r; exists [], []; by left].
  unfold mbind at 1 in Hr. unfold M_bind at 1 in Hr.
  destruct (decide (Exists (fun n => length (readlines content) <= n - 1)
                      FixFFErrors.ff_error_lines)) as [Hex|Hnex].
  - destruct (fix_lines_out_of_range unicode_alnum FixFFErrors.ff_error_lines
                (readlines content, 0) (World fs [OpenRead FixFFErrors.FILE]) Hex)
      as (ts & Hfold).
    rewrite Hfold in Hr. subst r. exists ts, []. right. by left.
  - apply not_Exists_Forall in Hnex; [|intros n; apply _].
    destruct (fix_lines_in_range unicode_alnum FixFFErrors.ff_error_lines
                (readlines content, 0) (World fs [OpenRead FixFFErrors.FILE]))
      as (st1 & ts1 & Hfold & Hlen1).
    { eapply Forall_impl; [apply Hnex|]. simpl. lia. }
    rewrite Hfold in Hr.
    unfold mbind at 1 in Hr. unfold M_bind at 1 in Hr.
    match type of Hr with context [FixFFErrors.fix_3950 ?st ?w] =>
      destruct (fix_3950_cases st w)
        as [[_ H3950]|[_ (st2 & ts2 & H3950)]]
    end; rewrite H3950 in Hr.
    + subst r. exists ts1, []. right. by left.
    + exists (ts1 ++ ts2 ++ [nl :: lit "Total changes: " ++ dec st2.2]),
        [lit "File saved."].
      right. right. subst r.
      unfold mbind, M_bind, print, emit, write_file. cbn [files log snd].
      rewrite !map_app. cbn [map app]. by rewrite <- !app_assoc.
Qed.

Lemma fix_ff_errors_frame
    (unicode_alnum : N -> bool) (fs : gmap (list N) (list N)) :
  writes_follow_reads [] (log (run (FixFFErrors.main unicode_alnum) fs).2) = true.
Proof.
  destruct (fix_ff_errors_log unicode_alnum fs) as (ts & us & [->|[->| ->]]).
  - done.
  - rewrite writes_follow_reads_after_read.
    apply writes_follow_reads_only_prints.
  - rewrite writes_follow_reads_after_read, writes_follow_reads_prints.
    cbn [writes_follow_reads].
    rewrite bool_decide_eq_true_2 by apply list_elem_of_here.
    apply writes_follow_reads_only_prints.
Qed.

Lemma fix_cyan_tech_frame (new_function : list N) (fs : gmap (list N) (list N)) :
  writes_follow_reads [] (log (run (FixCyanTech.main new_function) fs).2) = true.
Proof.
  unfold run, FixCyanTech.main.
  unfold mbind, M_bind, read_file, print, emit, write_file, exit, mret, M_ret.
  cbn [files log].
  destruct (fs !! FixCyanTech.FILE) as [content|]; [|done].
  cbn zeta. destruct (_ =? -1)%Z; [done|].
  cbn [snd log app writes_follow_reads].
  by rewrite bool_decide_eq_true_2 by apply list_elem_of_here.
Qed.

Lemma swap_front_back_frame
    (swap_theme_colors process_adapter : list N -> list (list N) * list N)
    (adapter_path helpers_path : list N) (fs : gmap (list N) (list N)) :
  writes_follow_reads []
    (log (run (SwapFrontBack.main swap_theme_colors process_adapter
                 adapter_path helpers_path) fs).2) = true.
Proof.
  unfold run, SwapFrontBack.main.
  unfold mbind, M_bind, read_file, print_all, print, emit, write_file.
  cbn [files log].
  destruct (fs !! adapter_path) as [adapter_content|]; [|reflexivity].
  cbn [files log].
  destruct (fs !! helpers_path) as [helpers_content|]; [|reflexivity].
  cbn [files log].
  destruct (swap_theme_colors helpers_content) as [out1 helpers'].
  cbn [files log].
  destruct (process_adapter adapter_content) as [out2 adapter'].
  cbn [files snd log app]. rewrite <- !app_assoc.
  cbn [app writes_follow_reads].
  rewrite writes_follow_reads_prints. cbn [app writes_follow_reads].
  rewrite bool_decide_eq_true_2 by apply list_elem_of_here.
  rewrite writes_follow_reads_prints. cbn [app writes_follow_reads].
  rewrite bool_decide_eq_true_2; [done|].
  apply list_elem_of_further, list_elem_of_here.
Qed.

Lemma analyze_business_cards_writes
    (script_file : list N) (b64encode : list N -> list N)
    (messages_create : nat -> list N -> list N + list N)
    (fs : gmap (list N) (list N)) :
  Forall (fun p => exists name,
            name ∈ AnalyzeBusinessCards.images
            /\ p = AnalyzeBusinessCards.output_file script_file name)
    (paths_written
       (log (run (AnalyzeBusinessCards.main script_file b64encode
                    messages_create) fs).2)).
Proof.
  unfold run, AnalyzeBusinessCards.main, AnalyzeBusinessCards.load_env.
  unfold mbind at 1. unfold M_bind at 1.
  unfold mbind at 1. unfold M_bind at 1.
  unfold read_file at 1. cbn [files log].
  destruct (fs !! AnalyzeBusinessCards.env_path script_file) as [content|];
    [|done].
  unfold mret at 1. unfold M_ret at 1.
  destruct (AnalyzeBusinessCards.parse_env content !! _) as [[|c key]|];
    [done| |done].
  unfold AnalyzeBusinessCards.analyze_all.
  unfold mbind at 1. unfold M_bind at 1. unfold emit at 1. cbn [files log].
  unfold mbind at 1. unfold M_bind at 1.
  match goal with |- context [for_each ?items ?body ?w1] =>
    pose proof (analyze_all_writes script_file b64encode messages_create
                  (fun p => exists name,
                     name ∈ AnalyzeBusinessCards.images
                     /\ p = AnalyzeBusinessCards.output_file script_file name)
                  items w1) as Hloop;
    destruct (for_each items body w1) as [[[]|code|e] w']
  end.
  - unfold mbind, M_bind, print, emit. cbn [files log snd] in *.
    simpl_logs. apply Hloop; [done|].
    intros i name Hin. exists name. split; [|done].
    by apply elem_of_zip_r in Hin.
  - cbn [snd] in *. apply Hloop; [done|].
    intros i name Hin. exists name. split; [|done].
    by apply elem_of_zip_r in Hin.
  - cbn [snd] in *. apply Hloop; [done|].
    intros i name Hin. exists name. split; [|done].
    by apply elem_of_zip_r in Hin.
Qed.

(** C4 (as amended): the source-patching scripts write only files that the
    same run has opened for reading before: fix-fonts.py, fix-ff-errors.py
    and fix-cyan-tech.py their one target file, swap-front-back.py its two.
    analyze-business-cards.py is different: the files it opens for writing
    are reports, [analysis/<image>.md], of images of its list; it does not
    read them. *)
Theorem scripts_write_files_they_read_or_reports
    (unicode_alnum : N -> bool) (new_function : list N)
    (swap_theme_colors process_adapter : list N -> list (list N) * list N)
    (adapter_path helpers_path script_file : list N)
    (b64encode : list N -> list N)
    (messages_create : nat -> list N -> list N + list N)
    (fs : gmap (list N) (list N)) :
  writes_follow_reads [] (log (run FixFonts.main fs).2) = true
  /\ writes_follow_reads []
       (log (run (FixFFErrors.main unicode_alnum) fs).2) = true
  /\ writes_follow_reads []
       (log (run (FixCyanTech.main new_function) fs).2) = true
  /\ writes_follow_reads []
       (log (run (SwapFrontBack.main swap_theme_colors process_adapter
                    adapter_path helpers_path) fs).2) = true
  /\ Forall (fun p => exists name,
               name ∈ AnalyzeBusinessCards.images
               /\ p = AnalyzeBusinessCards.output_file script_file name)
       (paths_written
          (log (run (AnalyzeBusinessCards.main script_file b64encode
                       messages_create) fs).2)).
Proof.
  split; [apply fix_fonts_frame|].
  split; [apply fix_ff_errors_frame|].
  split; [apply fix_cyan_tech_frame|].
  split; [apply swap_front_back_frame|].
  apply analyze_business_cards_writes.
Qed.

End FrameFacts.

(** ** The statements on sample inputs *)

Section OnSamples.
Import PyStr IO.
Local Open Scope nat_scope.

Lemma empty_lines_3950_length :
  length (readlines Samples.empty_lines_3950) = 3950.
Proof. vm_compute. reflexivity. Qed.

Lemma no_marker_length : length (readlines Samples.no_marker) = 1.
Proof. vm_compute. reflexivity. Qed.



Lemma checkout_has_images (name : list N) :
  name ∈ AnalyzeBusinessCards.images ->
  is_Some (Samples.checkout
           !! OsPath.join (AnalyzeBusinessCards.base_dir Samples.script_file) name).
Proof.
  unfold AnalyzeBusinessCards.images. intros Hin.
  repeat (apply elem_of_cons in Hin as [->|Hin];
          [exists (lit "JPEG"); vm_compute; reflexivity|]).
  exfalso. revert Hin. apply not_elem_of_nil.
Qed.



(** C4 (fails as stated): analyze-business-cards.py writes files it has not
    read.  In the sample checkout the first file opened for writing is the
    report of the first image, which no run opens for reading. *)
Lemma analyze_business_cards_writes_unread_files :
  writes_follow_reads []
    (log (run (AnalyzeBusinessCards.main Samples.script_file
                 Samples.plain_encoder Samples.model_ok) Samples.checkout).2)
  = false
  /\ head (paths_written
             (log (run (AnalyzeBusinessCards.main Samples.script_file
                          Samples.plain_encoder Samples.model_ok)
                       Samples.checkout).2))
     = Some (lit "/repo/business-card-examples/analysis/d470b54b4667bbb67204e858d6f0a01f.md")
  /\ bool_decide
       (lit "/repo/business-card-examples/analysis/d470b54b4667bbb67204e858d6f0a01f.md"
        ∈ paths_read
            (log (run (AnalyzeBusinessCards.main Samples.script_file
                         Samples.plain_encoder Samples.model_ok)
                      Samples.checkout).2))
     = false
  /\ length
       (paths_written
          (log (run (AnalyzeBusinessCards.main Samples.script_file
                       Samples.plain_encoder Samples.model_ok)
                    Samples.checkout).2)) = 9.
Proof. repeat split; vm_compute; reflexivity. Qed.

End OnSamples.

(** ** swap-front-back.py: the loops of [find_matching_brace] end *)

Section BraceLoops.
Import PyStr SwapFrontBack.
Local Open Scope nat_scope.

Variable content : list N.

Ltac loop_head :=
  match goal with
  | |- context [?a <? ?b] =>
      destruct (Nat.ltb_spec a b); cbn [andb negb]; try lia
  end.

Lemma skip_quoted_ge (fuel : nat) (q : N) (pos : nat) :
  pos <= skip_quoted content fuel q pos.
Proof.
  revert pos. induction fuel as [|fuel IH]; intros pos; cbn [skip_quoted]; [lia|].
  destruct (_ && _); [|lia].
  etransitivity; [|apply IH]. destruct (is_at _ _ _); lia.
Qed.

Lemma skip_quoted_fuel (fuel fuel' : nat) (q : N) (pos : nat) :
  length content - pos <= fuel -> length content - pos <= fuel' ->
  skip_quoted content fuel q pos = skip_quoted content fuel' q pos.
Proof.
  revert fuel' pos. induction fuel as [|fuel IH]; intros [|fuel'] pos H H';
    cbn [skip_quoted]; try loop_head; try done.
  destruct (negb _); [|done]. apply IH; destruct (is_at _ _ _); lia.
Qed.

Lemma skip_template_expr_ge (fuel td pos : nat) :
  pos <= skip_template_expr content fuel td pos.
Proof.
  revert td pos. induction fuel as [|fuel IH]; intros td pos;
    cbn [skip_template_expr]; [lia|].
  destruct (_ && _); [|lia].
  repeat destruct (is_at _ _ _); (etransitivity; [|apply IH]); try lia.
  pose proof (skip_quoted_ge (length content) backtick (pos + 1)). lia.
Qed.

Lemma skip_template_expr_fuel (fuel fuel' td pos : nat) :
  length content - pos <= fuel -> length content - pos <= fuel' ->
  skip_template_expr content fuel td pos
  = skip_template_expr content fuel' td pos.
Proof.
  revert fuel' td pos.
  induction fuel as [|fuel IH]; intros [|fuel'] td pos H H';
    cbn [skip_template_expr]; try done;
    destruct (0 <? td); cbn [andb]; try done; try loop_head; try done.
  pose proof (skip_quoted_ge (length content) backtick (pos + 1)).
  repeat destruct (is_at _ _ _); apply IH; lia.
Qed.

Lemma skip_template_ge (fuel pos : nat) :
  pos <= skip_template content fuel pos.
Proof.
  revert pos. induction fuel as [|fuel IH]; intros pos;
    cbn [skip_template]; [lia|].
  destruct (_ && _); [|lia].
  destruct (is_at _ _ backslash); [etransitivity; [|apply IH]; lia|].
  destruct (_ && _); (etransitivity; [|apply IH]); [|lia].
  pose proof (skip_template_expr_ge (length content) 1 (pos + 1 + 1)). lia.
Qed.

Lemma skip_template_fuel (fuel fuel' pos : nat) :
  length content - pos <= fuel -> length content - pos <= fuel' ->
  skip_template content fuel pos = skip_template content fuel' pos.
Proof.
  revert fuel' pos.
  induction fuel as [|fuel IH]; intros [|fuel'] pos H H';
    cbn [skip_template]; try loop_head; try done.
  destruct (negb _); [|done].
  pose proof (skip_template_expr_ge (length content) 1 (pos + 1 + 1)).
  destruct (is_at _ _ backslash); [apply IH; lia|].
  destruct (_ && _); apply IH; lia.
Qed.

Lemma skip_line_comment_ge (fuel pos : nat) :
  pos <= skip_line_comment content fuel pos.
Proof.
  revert pos. induction fuel as [|fuel IH]; intros pos;
    cbn [skip_line_comment]; [lia|].
  destruct (_ && _); [|lia]. etransitivity; [|apply IH]. lia.
Qed.

Lemma skip_line_comment_fuel (fuel fuel' pos : nat) :
  length content - pos <= fuel -> length content - pos <= fuel' ->
  skip_line_comment content fuel pos = skip_line_comment content fuel' pos.
Proof.
  revert fuel' pos.
  induction fuel as [|fuel IH]; intros [|fuel'] pos H H';
    cbn [skip_line_comment]; try loop_head; try done.
  destruct (negb _); [|done]. apply IH; lia.
Qed.

Lemma skip_block_comment_ge (fuel pos : nat) :
  pos <= skip_block_comment content fuel pos.
Proof.
  revert pos. induction fuel as [|fuel IH]; intros pos;
    cbn [skip_block_comment]; [lia|].
  destruct (_ && _); [|lia]. etransitivity; [|apply IH]. lia.
Qed.

Lemma skip_block_comment_fuel (fuel fuel' pos : nat) :
  length content - pos <= fuel -> length content - pos <= fuel' ->
  skip_block_comment content fuel pos = skip_block_comment content fuel' pos.
Proof.
  revert fuel' pos.
  induction fuel as [|fuel IH]; intros [|fuel'] pos H H';
    cbn [skip_block_comment]; try loop_head; try done.
  destruct (negb _); [|done]. apply IH; lia.
Qed.

(** The main loop: with [length content - pos] iterations or more it ends
    because its condition fails, and more fuel changes nothing. *)
Lemma scan_fuel (fuel fuel' depth pos : nat) :
  length content - pos <= fuel -> length content - pos <= fuel' ->
  scan content fuel depth pos = scan content fuel' depth pos.
Proof.
  revert fuel' depth pos.
  induction fuel as [|fuel IH]; intros [|fuel'] depth pos H H';
    cbn [scan]; try done;
    destruct (0 <? depth); cbn [andb]; try done; try loop_head; try done.
  pose proof (skip_quoted_ge (length content) dquote (pos + 1)).
  pose proof (skip_quoted_ge (length content) squote (pos + 1)).
  pose proof (skip_template_ge (length content) (pos + 1)).
  pose proof (skip_line_comment_ge (length content) pos).
  pose proof (skip_block_comment_ge (length content) (pos + 2)).
  repeat (destruct (is_at _ _ _); cbn [andb]); try (apply IH; lia);
    destruct (_ <? _); apply IH; lia.
Qed.

(** The loop stops where its condition fails. *)
Lemma scan_stops (fuel depth pos : nat) :
  length content - pos <= fuel ->
  scan content (S fuel) depth pos = scan content fuel depth pos.
Proof. intros H. apply scan_fuel; lia. Qed.

End BraceLoops.

(** ** swap-front-back.py: what [find_matching_brace] returns *)

Section BraceResult.
Import PyStr SwapFrontBack.
Local Open Scope nat_scope.

Variable content : list N.

Lemma is_at_lookup (pos : nat) (c x : N) :
  content !! pos = Some c -> is_at content pos x = (c =? x)%N.
Proof.
  intros H. unfold is_at. rewrite H.
  destruct (N.eqb_spec c x) as [->|Hne].
  - by apply bool_decide_eq_true_2.
  - apply bool_decide_eq_false_2. congruence.
Qed.

Lemma is_at_true (pos : nat) (x : N) :
  is_at content pos x = true -> content !! pos = Some x.
Proof. apply bool_decide_eq_true_1. Qed.

Lemma scan_depth_0 (fuel pos : nat) : scan content fuel 0 pos = pos.
Proof. by destruct fuel. Qed.

(** The main loop ends at the end of the text or just after a closing
    brace. *)
Lemma scan_result (fuel depth pos : nat) :
  1 <= depth -> length content - pos <= fuel ->
  pos <= scan content fuel depth pos
  /\ (length content <= scan content fuel depth pos
      \/ pos < scan content fuel depth pos
         /\ content !! (scan content fuel depth pos - 1) = Some rbrace).
Proof.
  revert depth pos. induction fuel as [|fuel IH]; intros depth pos Hd Hf.
  { cbn [scan]. lia. }
  cbn [scan].
  destruct (Nat.ltb_spec 0 depth); [|lia]. cbn [andb].
  destruct (Nat.ltb_spec pos (length content)); [|lia].
  pose proof (skip_quoted_ge content (length content) dquote (pos + 1)).
  pose proof (skip_quoted_ge content (length content) squote (pos + 1)).
  pose proof (skip_template_ge content (length content) (pos + 1)).
  pose proof (skip_line_comment_ge content (length content) pos).
  pose proof (skip_block_comment_ge content (length content) (pos + 2)).
  assert (forall d p, 1 <= d -> pos + 1 <= p ->
            pos <= scan content fuel d p
            /\ (length content <= scan content fuel d p
                \/ pos < scan content fuel d p
                   /\ content !! (scan content fuel d p - 1) = Some rbrace))
    as Hnext.
  { intros d p Hd' Hp. destruct (IH d p) as [Hle [Hend|[Hlt Hbr]]]; [lia..| |];
      (split; [lia|]); [by left|right; split; [lia|done]]. }
  destruct (is_at content pos lbrace); [apply Hnext; lia|].
  destruct (is_at content pos rbrace) eqn:Hrb.
  { destruct (decide (depth = 1)) as [->|Hne].
    - cbn [Nat.sub]. rewrite scan_depth_0. split; [lia|]. right. split; [lia|].
      replace (pos + 1 - 1) with pos by lia. by apply is_at_true.
    - apply Hnext; lia. }
  destruct (is_at content pos dquote); [apply Hnext; lia|].
  destruct (is_at content pos squote); [apply Hnext; lia|].
  destruct (is_at content pos backtick); [apply Hnext; lia|].
  destruct (is_at content pos slash && _); [|apply Hnext; lia].
  destruct (is_at content (pos + 1) slash); [apply Hnext; lia|].
  destruct (is_at content (pos + 1) star); apply Hnext; lia.
Qed.

(** With the assertion passed, the function returns where the main loop
    ended, less one. *)
Lemma find_matching_brace_at_brace (open_pos : nat) :
  content !! open_pos = Some lbrace ->
  find_matching_brace content open_pos
  = Returns (scan content (length content) 1 (open_pos + 1) - 1).
Proof. intros Hopen. unfold find_matching_brace. by rewrite Hopen. Qed.

(** Every iteration of the main loop of [find_matching_brace] moves [pos]
    forward, so the loop ends within [len(content) - pos] iterations: a
    larger bound on their number gives the same result. *)
Theorem find_matching_brace_loop_bound (fuel depth pos : nat) :
  length content - pos <= fuel ->
  scan content fuel depth pos = scan content (length content - pos) depth pos.
Proof. intros H. apply scan_fuel; lia. Qed.

(** [find_matching_brace] called on an opening brace returns a position at
    or after it; the position is that of a closing brace unless the scan ran
    to the end of the text. *)
Theorem find_matching_brace_returns (open_pos : nat) :
  content !! open_pos = Some lbrace ->
  exists r,
    find_matching_brace content open_pos = Returns r
    /\ open_pos <= r
    /\ (content !! r = Some rbrace \/ length content <= r + 1).
Proof.
  intros Hopen. rewrite (find_matching_brace_at_brace _ Hopen).
  destruct (scan_result (length content) 1 (open_pos + 1))
    as [Hle [Hend|[Hlt Hbr]]]; [lia..| |];
    (eexists; split; [reflexivity|]; split; [lia|]).
  - right. lia.
  - by left.
Qed.

End BraceResult.

Lemma find_matching_brace_loop_bound_on_sample :
  SwapFrontBack.scan MoreSamples.block_without_template_expr 1000 1 1
  = SwapFrontBack.scan MoreSamples.block_without_template_expr
      (length MoreSamples.block_without_template_expr - 1) 1 1.
Proof.
  apply (find_matching_brace_loop_bound
           MoreSamples.block_without_template_expr 1000 1 1).
  vm_compute. lia.
Defined.

Lemma find_matching_brace_returns_on_sample :
  exists r,
    SwapFrontBack.find_matching_brace MoreSamples.block_without_template_expr 0
    = SwapFrontBack.Returns r
    /\ (0 <= r)%nat
    /\ (MoreSamples.block_without_template_expr !! r = Some SwapFrontBack.rbrace
        \/ (length MoreSamples.block_without_template_expr <= r + 1)%nat).
Proof.
  apply (find_matching_brace_returns MoreSamples.block_without_template_expr 0).
  vm_compute. reflexivity.
Defined.

(** ** swap-front-back.py: [find_matching_brace] against the reference lexer *)

Section BraceAgreement.
Import PyStr SwapFrontBack.
Local Open Scope nat_scope.

Variable content : list N.

(** The reference lexer started at position [p] of the text. *)
Local Abbreviation spec_from stack skip p :=
  (spec_scan (drop p content) stack skip p).

Lemma spec_from_end (stack : list context) (skip p : nat) :
  length content <= p -> spec_from stack skip p = None.
Proof. intros H. by rewrite drop_ge. Qed.

Lemma spec_from_skip (stack : list context) (k p : nat) (c : N) :
  content !! p = Some c ->
  spec_from stack (S k) p = spec_from stack k (p + 1).
Proof.
  intros H. rewrite (drop_S _ _ _ H). cbn [spec_scan].
  by rewrite Nat.add_1_r.
Qed.

Lemma spec_from_step (stack : list context) (p : nat) (c : N) :
  content !! p = Some c ->
  spec_from stack 0 p
  = match lex_step stack c (content !! (p + 1)) with
    | ([], _) => Some p
    | (stack', n) => spec_from stack' (n - 1) (p + 1)
    end.
Proof.
  intros H. rewrite (drop_S _ _ _ H). cbn [spec_scan].
  rewrite head_lookup, lookup_drop, Nat.add_0_r, <- Nat.add_1_r.
  destruct (lex_step _ _ _) as [[|x stack'] n]; done.
Qed.

Lemma spec_from_some (stack : list context) (skip p r : nat) :
  spec_from stack skip p = Some r -> exists c, content !! p = Some c.
Proof.
  intros H. destruct (content !! p) eqn:E; [eauto|].
  apply lookup_ge_None in E. by rewrite spec_from_end in H.
Qed.

(** The loop over a quoted string stops at the closing quote, where the
    lexer leaves the string. *)
Lemma quoted_agree (fuel : nat) (q : N) (x : context) (stack : list context)
    (p r : nat) :
  q <> backslash ->
  length content - p <= fuel ->
  spec_from (InQuoted q :: x :: stack) 0 p = Some r ->
  p <= skip_quoted content fuel q p
  /\ spec_from (x :: stack) 0 (skip_quoted content fuel q p + 1) = Some r.
Proof.
  intros Hq. revert p. induction fuel as [|fuel IH]; intros p Hf Hspec.
  { rewrite spec_from_end in Hspec by lia. done. }
  destruct (spec_from_some _ _ _ _ Hspec) as [c Hc].
  rewrite (spec_from_step _ _ _ Hc) in Hspec. cbn [lex_step] in Hspec.
  cbn [skip_quoted].
  pose proof (lookup_lt_Some _ _ _ Hc) as Hlt.
  destruct (Nat.ltb_spec p (length content)); [|lia]. cbn [andb].
  rewrite (is_at_lookup _ _ _ _ Hc), (is_at_lookup _ _ _ backslash Hc).
  destruct (N.eqb_spec c backslash) as [Hcb|Hnb]; [subst c|].
  - destruct (N.eqb_spec backslash q) as [|_]; [congruence|]. cbn [negb].
    cbn [Nat.sub] in Hspec.
    destruct (spec_from_some _ _ _ _ Hspec) as [c' Hc'].
    rewrite (spec_from_skip _ _ _ _ Hc') in Hspec.
    destruct (IH (p + 1 + 1)) as [Hle Hr]; [lia|done|]. split; [lia|done].
  - destruct (N.eqb_spec c q) as [Hcq|Hnq]; [subst c|]; cbn [negb].
    + cbn [Nat.sub] in Hspec. split; [lia|done].
    + cbn [Nat.sub] in Hspec.
      destruct (IH (p + 1)) as [Hle Hr]; [lia|done|]. split; [lia|done].
Qed.

(** The same for a template literal, in a text without [${]. *)
Lemma template_agree (fuel : nat) (x : context) (stack : list context)
    (p r : nat) :
  (forall i, content !! i = Some dollar -> content !! (i + 1) <> Some lbrace) ->
  length content - p <= fuel ->
  spec_from (InTemplate :: x :: stack) 0 p = Some r ->
  p <= skip_template content fuel p
  /\ spec_from (x :: stack) 0 (skip_template content fuel p + 1) = Some r.
Proof.
  intros Hno. revert p. induction fuel as [|fuel IH]; intros p Hf Hspec.
  { rewrite spec_from_end in Hspec by lia. done. }
  destruct (spec_from_some _ _ _ _ Hspec) as [c Hc].
  rewrite (spec_from_step _ _ _ Hc) in Hspec. cbn [lex_step] in Hspec.
  cbn [skip_template].
  pose proof (lookup_lt_Some _ _ _ Hc) as Hlt.
  destruct (Nat.ltb_spec p (length content)); [|lia]. cbn [andb].
  rewrite (is_at_lookup _ _ _ backtick Hc), (is_at_lookup _ _ _ backslash Hc),
    (is_at_lookup _ _ _ dollar Hc).
  destruct (N.eqb_spec c backslash) as [Hcb|Hnb]; [subst c|].
  - cbn [N.eqb backslash backtick Pos.eqb negb].
    cbn [Nat.sub] in Hspec.
    destruct (spec_from_some _ _ _ _ Hspec) as [c' Hc'].
    rewrite (spec_from_skip _ _ _ _ Hc') in Hspec.
    destruct (IH (p + 1 + 1)) as [Hle Hr]; [lia|done|]. split; [lia|done].
  - destruct (N.eqb_spec c backtick) as [Hcq|Hnq]; [subst c|]; cbn [negb].
    + cbn [Nat.sub] in Hspec. split; [lia|done].
    + assert ((c =? dollar)%N && bool_decide (content !! (p + 1) = Some lbrace)
              = false) as Hd.
      { destruct (N.eqb_spec c dollar) as [Hcd|]; [subst c|done]. cbn [andb].
        apply bool_decide_eq_false_2. by apply Hno. }
      rewrite Hd in Hspec.
      assert ((c =? dollar)%N && (p + 1 <? length content)
              && is_at content (p + 1) lbrace = false) as Hd'.
      { unfold is_at. rewrite <- andb_assoc, (andb_comm (_ <? _)), andb_assoc, Hd.
        done. }
      rewrite Hd'. cbn [Nat.sub] in Hspec.
      destruct (IH (p + 1)) as [Hle Hr]; [lia|done|]. split; [lia|done].
Qed.

Lemma line_comment_agree (fuel : nat) (x : context) (stack : list context)
    (p r : nat) :
  length content - p <= fuel ->
  spec_from (InLineComment :: x :: stack) 0 p = Some r ->
  p <= skip_line_comment content fuel p
  /\ spec_from (x :: stack) 0 (skip_line_comment content fuel p + 1) = Some r.
Proof.
  revert p. induction fuel as [|fuel IH]; intros p Hf Hspec.
  { rewrite spec_from_end in Hspec by lia. done. }
  destruct (spec_from_some _ _ _ _ Hspec) as [c Hc].
  rewrite (spec_from_step _ _ _ Hc) in Hspec. cbn [lex_step] in Hspec.
  cbn [skip_line_comment].
  pose proof (lookup_lt_Some _ _ _ Hc) as Hlt.
  destruct (Nat.ltb_spec p (length content)); [|lia]. cbn [andb].
  rewrite (is_at_lookup _ _ _ nl Hc).
  destruct (c =? nl)%N; cbn [negb]; cbn [Nat.sub] in Hspec.
  - split; [lia|done].
  - destruct (IH (p + 1)) as [Hle Hr]; [lia|done|]. split; [lia|done].
Qed.

Lemma block_comment_agree (fuel : nat) (x : context) (stack : list context)
    (p r : nat) :
  length content - p <= fuel ->
  spec_from (InBlockComment :: x :: stack) 0 p = Some r ->
  p <= skip_block_comment content fuel p
  /\ spec_from (x :: stack) 0 (skip_block_comment content fuel p + 1 + 1) = Some r.
Proof.
  revert p. induction fuel as [|fuel IH]; intros p Hf Hspec.
  { rewrite spec_from_end in Hspec by lia. done. }
  destruct (spec_from_some _ _ _ _ Hspec) as [c Hc].
  rewrite (spec_from_step _ _ _ Hc) in Hspec. cbn [lex_step] in Hspec.
  cbn [skip_block_comment].
  rewrite (is_at_lookup _ _ _ star Hc).
  change (bool_decide (content !! (p + 1) = Some slash))
    with (is_at content (p + 1) slash) in Hspec.
  destruct ((c =? star)%N && is_at content (p + 1) slash) eqn:Hclose;
    cbn [Nat.sub] in Hspec.
  - rewrite andb_false_r. destruct (spec_from_some _ _ _ _ Hspec) as [c' Hc'].
    rewrite (spec_from_skip _ _ _ _ Hc') in Hspec. split; [lia|done].
  - destruct (spec_from_some _ _ _ _ Hspec) as [c' Hc'].
    pose proof (lookup_lt_Some _ _ _ Hc') as Hlt.
    destruct (Nat.ltb_spec (p + 1) (length content)); [|lia]. cbn [andb negb].
    destruct (IH (p + 1)) as [Hle Hr]; [lia|done|]. split; [lia|done].
Qed.

Lemma skip_line_comment_step (p : nat) (c : N) :
  content !! p = Some c -> c <> nl ->
  skip_line_comment content (length content) p
  = skip_line_comment content (length content) (p + 1).
Proof.
  intros Hc Hnl. pose proof (lookup_lt_Some _ _ _ Hc) as Hlt.
  rewrite (skip_line_comment_fuel content (length content) (S (length content)) p)
    by lia.
  cbn [skip_line_comment].
  destruct (Nat.ltb_spec p (length content)); [|lia]. cbn [andb].
  rewrite (is_at_lookup _ _ _ nl Hc).
  by destruct (N.eqb_spec c nl).
Qed.

Hypothesis no_template_expr :
  forall i, content !! i = Some dollar -> content !! (i + 1) <> Some lbrace.

(** The main loop, at depth [depth], against the lexer with [depth] open
    blocks. *)
Lemma scan_agree (fuel depth p r : nat) :
  length content - p <= fuel ->
  spec_from (replicate (S depth) InBlock) 0 p = Some r ->
  scan content fuel (S depth) p = r + 1.
Proof using no_template_expr.
  revert depth p. induction fuel as [|fuel IH]; intros depth p Hf Hspec.
  { rewrite spec_from_end in Hspec by lia. done. }
  destruct (spec_from_some _ _ _ _ Hspec) as [c Hc].
  rewrite (spec_from_step _ _ _ Hc) in Hspec.
  cbn [replicate lex_step] in Hspec.
  cbn [scan].
  pose proof (lookup_lt_Some _ _ _ Hc) as Hlt.
  destruct (Nat.ltb_spec p (length content)); [|lia].
  destruct (Nat.ltb_spec 0 (S depth)); [|lia]. cbn [andb].
  rewrite (is_at_lookup _ _ _ lbrace Hc), (is_at_lookup _ _ _ rbrace Hc),
    (is_at_lookup _ _ _ dquote Hc), (is_at_lookup _ _ _ squote Hc),
    (is_at_lookup _ _ _ backtick Hc), (is_at_lookup _ _ _ slash Hc).
  destruct (N.eqb_spec c lbrace) as [Hlb|_].
  { cbn [Nat.sub] in Hspec. rewrite Nat.add_1_r. by apply (IH (S depth)); [lia|]. }
  destruct (N.eqb_spec c rbrace) as [Hrb|_].
  { destruct depth as [|depth]; cbn [replicate Nat.sub] in *.
    - injection Hspec as <-. by rewrite scan_depth_0.
    - rewrite ?Nat.sub_0_r. apply IH; [lia|done]. }
  destruct (N.eqb_spec c dquote) as [Hdq|_].
  { subst c. cbn [orb Nat.sub] in Hspec.
    destruct (quoted_agree (length content) dquote _ _ _ _ ltac:(done) ltac:(lia) Hspec)
      as [Hle Hr].
    apply IH; [lia|done]. }
  destruct (N.eqb_spec c squote) as [Hsq|_].
  { subst c. cbn [orb Nat.sub] in Hspec.
    destruct (quoted_agree (length content) squote _ _ _ _ ltac:(done) ltac:(lia) Hspec)
      as [Hle Hr].
    apply IH; [lia|done]. }
  cbn [orb] in Hspec.
  destruct (N.eqb_spec c backtick) as [Hbt|_].
  { cbn [Nat.sub] in Hspec.
    destruct (template_agree (length content) _ _ _ _ no_template_expr
                ltac:(lia) Hspec) as [Hle Hr].
    apply IH; [lia|done]. }
  change (bool_decide (content !! (p + 1) = Some slash))
    with (is_at content (p + 1) slash) in Hspec.
  change (bool_decide (content !! (p + 1) = Some star))
    with (is_at content (p + 1) star) in Hspec.
  destruct (N.eqb_spec c slash) as [Hsl|_]; cbn [andb] in *;
    [|cbn [Nat.sub] in Hspec; apply IH; [lia|done]].
  subst c.
  destruct (content !! (p + 1)) as [c'|] eqn:Hc'.
  - pose proof (lookup_lt_Some _ _ _ Hc') as Hlt'.
    destruct (Nat.ltb_spec (p + 1) (length content)); [|lia].
    rewrite (is_at_lookup _ _ _ slash Hc'), (is_at_lookup _ _ _ star Hc') in *.
    destruct (N.eqb_spec c' slash) as [Hs|_].
    { subst c'. cbn [Nat.sub] in Hspec.
      rewrite (spec_from_skip _ _ _ _ Hc') in Hspec.
      destruct (spec_from_some _ _ _ _ Hspec) as [c2 Hc2].
      destruct (line_comment_agree (length content) _ _ _ _ ltac:(lia) Hspec)
        as [Hle Hr].
      rewrite (skip_line_comment_step p slash), (skip_line_comment_step (p + 1) slash)
        by done.
      apply IH; [lia|done]. }
    destruct (N.eqb_spec c' star) as [Hs|_].
    { subst c'. cbn [Nat.sub] in Hspec.
      rewrite (spec_from_skip _ _ _ _ Hc') in Hspec.
      replace (p + 2) with (p + 1 + 1) by lia.
      destruct (block_comment_agree (length content) _ _ _ _ ltac:(lia) Hspec)
        as [Hle Hr].
      apply IH; [lia|done]. }
    cbn [Nat.sub] in Hspec. apply IH; [lia|done].
  - apply lookup_ge_None in Hc'.
    destruct (Nat.ltb_spec (p + 1) (length content)); [lia|].
    unfold is_at in Hspec. rewrite (lookup_ge_None_2 content (p + 1)) in Hspec by lia.
    rewrite !bool_decide_eq_false_2 in Hspec by done.
    cbn [Nat.sub] in Hspec. apply IH; [lia|done].
Qed.

End BraceAgreement.

Lemma no_occurrence_at (sub s : list N) (i : nat) :
  PyStr.contains sub s = false -> PyStr.startswith sub (drop i s) = false.
Proof.
  unfold PyStr.contains. destruct (PyStr.find_at sub s 0) eqn:E; [done|]. intros _.
  revert s E. generalize 0%nat. induction i as [|i IH]; intros k s E.
  - by apply find_at_none in E as [E _].
  - destruct s as [|x s]; [by apply find_at_none in E as [E _]|].
    apply find_at_none in E as [_ E]. by apply (IH (S k)).
Qed.

(** In a text without [${], whenever the braces outside strings, template
    literals and comments are balanced from [open_pos] on,
    [find_matching_brace] returns the closing brace that the reference lexer
    finds. *)
Theorem find_matching_brace_without_template_expr
    (content : list N) (open_pos r : nat) :
  PyStr.contains (PyStr.lit "${") content = false ->
  SwapFrontBack.spec_matching_brace content open_pos = Some r ->
  SwapFrontBack.find_matching_brace content open_pos = SwapFrontBack.Returns r.
Proof.
  intros Hno Hspec. unfold SwapFrontBack.spec_matching_brace in Hspec.
  destruct (SwapFrontBack.is_at content open_pos SwapFrontBack.lbrace) eqn:Hopen;
    [|done].
  apply is_at_true in Hopen.
  unfold SwapFrontBack.find_matching_brace. rewrite Hopen.
  cbn [N.eqb SwapFrontBack.lbrace Pos.eqb]. f_equal.
  rewrite (scan_agree content) with (r := r); [lia| |lia|done].
  intros i Hi Hi'.
  pose proof (no_occurrence_at _ _ i Hno) as Hat.
  rewrite (drop_S _ _ _ Hi) in Hat.
  replace (i + 1)%nat with (S i) in Hi' by lia.
  rewrite (drop_S _ _ _ Hi') in Hat. done.
Qed.

Lemma find_matching_brace_without_template_expr_on_sample :
  SwapFrontBack.find_matching_brace MoreSamples.block_without_template_expr 0
  = SwapFrontBack.Returns 49.
Proof.
  apply (find_matching_brace_without_template_expr
           MoreSamples.block_without_template_expr 0 49);
    vm_compute; reflexivity.
Defined.

(** ** swap-front-back.py: [find_front_function] *)

Section FrontFunction.
Import PyStr SwapFrontBack.
Local Open Scope nat_scope.

(** [find_at] gives the lowest position at which the text occurs. *)
Lemma find_at_Some (sub s : list N) (i j : nat) :
  find_at sub s i = Some j ->
  exists k, j = i + k /\ k <= length s
            /\ startswith sub (drop k s) = true
            /\ forall k', k' < k -> startswith sub (drop k' s) = false.
Proof.
  revert i. induction s as [|x s IH]; intros i; cbn [find_at].
  - destruct (startswith sub []) eqn:E; [|done]. intros [= <-].
    exists 0. split; [lia|]. split; [done|]. split; [done|]. lia.
  - destruct (startswith sub (x :: s)) eqn:E.
    + intros [= <-]. exists 0. split; [lia|]. split; [simpl; lia|].
      split; [done|]. lia.
    + intros H. apply IH in H as (k & -> & Hk & Hat & Hbefore).
      exists (S k). split; [lia|]. split; [simpl; lia|]. split; [done|].
      intros [|k'] Hk'; [done|]. apply Hbefore. lia.
Qed.

Lemma startswith_char (c : N) (s : list N) :
  startswith [c] s = true -> s !! 0 = Some c.
Proof.
  destruct s as [|x s]; [done|]. cbn [startswith].
  rewrite andb_true_iff, N.eqb_eq. by intros [-> _].
Qed.

(** A slice between two positions counted from the left. *)
Lemma slice_nat (s : list N) (a b : nat) :
  slice s (Z.of_nat a) (Z.of_nat b) = take (b - a) (drop a s).
Proof.
  unfold slice, clamp, len.
  destruct (Z.ltb_spec (Z.of_nat a) 0); [lia|].
  destruct (Z.ltb_spec (Z.of_nat b) 0); [lia|].
  destruct (decide (a <= length s)) as [Ha|Ha].
  - rewrite (Z.min_l (Z.of_nat a)) by lia. rewrite Nat2Z.id.
    destruct (decide (b <= length s)) as [Hb|Hb].
    + rewrite Z.min_l by lia. f_equal. lia.
    + rewrite Z.min_r by lia.
      rewrite !take_ge; [done|rewrite length_drop; lia..].
  - rewrite (drop_ge s a) by lia. rewrite take_nil.
    rewrite (Z.min_r (Z.of_nat a)) by lia. rewrite Nat2Z.id.
    rewrite drop_ge by lia. by rewrite take_nil.
Qed.

(** [s[a:c] = s[a:b] + s[b:c]] *)
Lemma slice_split (s : list N) (a b c : nat) :
  a <= b <= c ->
  slice s (Z.of_nat a) (Z.of_nat c)
  = slice s (Z.of_nat a) (Z.of_nat b) ++ slice s (Z.of_nat b) (Z.of_nat c).
Proof.
  intros Habc. rewrite !slice_nat.
  destruct (decide (b <= length s)) as [Hb|Hb].
  - rewrite <- (take_drop (b - a) (drop a s)) at 1.
    replace (c - a) with ((b - a) + (c - b)) by lia.
    rewrite take_app_add' by (rewrite length_take, length_drop; lia).
    rewrite drop_drop. do 3 f_equal. lia.
  - rewrite (drop_ge s b) by lia. rewrite take_nil, app_nil_r.
    rewrite !take_ge; [done|rewrite length_drop; lia..].
Qed.

(** Cutting [s[a:b]] out of [s] and putting it back. *)
Lemma slice_splice (s : list N) (a b : nat) :
  a <= b ->
  s = take a s ++ slice s (Z.of_nat a) (Z.of_nat b) ++ drop b s.
Proof.
  intros Hab. rewrite slice_nat.
  rewrite <- (take_drop a s) at 1. f_equal.
  rewrite <- (take_drop (b - a) (drop a s)) at 1. f_equal.
  rewrite drop_drop. f_equal. lia.
Qed.


End FrontFunction.


(** ** add-logo-to-templates.py: the range of a function and the insertion *)

Section AddLogoRanges.
Import PyStr IO AddLogo.
Local Open Scope nat_scope.

(** The brace depth after the lines [ls], from the depth [d]. *)
Local Abbreviation depth_after d ls :=
  (foldl (fun depth line =>
            (depth + (count_char 123 line - count_char 125 line))%Z) d ls).

(** The test that ends the second loop of [find_function_range] at a
    line. *)
Local Abbreviation is_return l depth :=
  (bool_decide (strip l = lit "return layers;") && (depth <=? 1)%Z).

Lemma first_index_Some {A} (P : A -> bool) (l : list A) (i s : nat) :
  first_index P l i = Some s ->
  exists k x, s = i + k /\ l !! k = Some x /\ P x = true
              /\ forall j y, j < k -> l !! j = Some y -> P y = false.
Proof.
  revert i. induction l as [|x l IH]; intros i; cbn [first_index]; [done|].
  destruct (P x) eqn:E.
  - intros [= <-]. exists 0, x. split; [lia|]. split; [done|]. split; [done|]. lia.
  - intros H. apply IH in H as (k & y & -> & Hy & HP & Hbefore).
    exists (S k), y. split; [lia|]. split; [done|]. split; [done|].
    intros [|j] z Hj Hz; [by injection Hz as <-|].
    apply (Hbefore j); [lia|done].
Qed.

Lemma depth_after_snoc (d : Z) (ls : list (list N)) (l : list N) :
  depth_after d (ls ++ [l])
  = (depth_after d ls + (count_char 123 l - count_char 125 l))%Z.
Proof. by rewrite foldl_app. Qed.

Lemma find_return_Some (ls : list (list N)) (d : Z) (i r : nat) :
  find_return ls d i = Some r ->
  exists k l, r = i + k /\ ls !! k = Some l
              /\ is_return l (depth_after d (take (S k) ls)) = true
              /\ forall j y, j < k -> ls !! j = Some y ->
                   is_return y (depth_after d (take (S j) ls)) = false.
Proof.
  revert d i. induction ls as [|l ls IH]; intros d i; cbn [find_return]; [done|].
  destruct (is_return l (d + (count_char 123 l - count_char 125 l))%Z) eqn:E.
  - intros [= <-]. exists 0, l. split; [lia|]. split; [done|]. split; [done|]. lia.
  - intros H. apply IH in H as (k & y & -> & Hy & HP & Hbefore).
    exists (S k), y. split; [lia|]. split; [done|]. split; [done|].
    intros [|j] z Hj Hz; [by injection Hz as <-|].
    apply (Hbefore j); [lia|done].
Qed.

(** What [find_function_range] returns when it finds both lines: [start]
    is the first line that holds [function <name>(], and [ret] is the first
    line from there on that reads [return layers;] with the braces counted
    from [start] open at most once. *)
Theorem find_function_range_found
    (lines : list (list N)) (func_name : list N) (printed : list (list N))
    (start ret : nat) :
  find_function_range lines func_name = (printed, (Some start, Some ret)) ->
  printed = []
  /\ start <= ret < length lines
  /\ (exists l, lines !! start = Some l
                /\ contains (lit "function " ++ func_name ++ lit "(") l = true)
  /\ (forall j l, j < start -> lines !! j = Some l ->
        contains (lit "function " ++ func_name ++ lit "(") l = false)
  /\ (exists l, lines !! ret = Some l
                /\ strip l = lit "return layers;"
                /\ (depth_after 0 (take (S (ret - start)) (drop start lines)) <= 1)%Z)
  /\ (forall j l, start <= j < ret -> lines !! j = Some l ->
        strip l = lit "return layers;" ->
        (1 < depth_after 0 (take (S (j - start)) (drop start lines)))%Z).
Proof.
  unfold find_function_range.
  destruct (first_index _ lines 0) as [s|] eqn:Hstart; [|done].
  destruct (find_return _ 0 s) as [r|] eqn:Hret; [|done].
  intros [= <- <- <-].
  apply first_index_Some in Hstart as (k & x & -> & Hx & HP & Hfirst).
  cbn [Nat.add] in *.
  apply find_return_Some in Hret as (k' & l & -> & Hl & Hr & Hbefore).
  rewrite lookup_drop in Hl.
  apply andb_true_iff in Hr as [Hstrip Hdepth].
  apply bool_decide_eq_true_1 in Hstrip. apply Z.leb_le in Hdepth.
  split; [done|]. split.
  { apply lookup_lt_Some in Hl. lia. }
  split; [by exists x|]. split; [done|]. split.
  { exists l. split; [done|]. split; [done|].
    by replace (k + k' - k) with k' by lia. }
  intros j y Hj Hy Hstrip'.
  specialize (Hbefore (j - k) y ltac:(lia)).
  rewrite lookup_drop in Hbefore.
  replace (k + (j - k)) with j in Hbefore by lia.
  specialize (Hbefore Hy).
  apply andb_false_iff in Hbefore as [Hb|Hb].
  - apply bool_decide_eq_false_1 in Hb. done.
  - apply Z.leb_gt in Hb. done.
Qed.

Lemma find_function_range_found_on_sample :
  ([] : list (list N)) = []
  /\ 0 <= 2 < length Samples.hex_split_lines
  /\ (exists l, Samples.hex_split_lines !! 0 = Some l
                /\ contains (lit "function " ++ lit "layoutHexSplit" ++ lit "(") l
                   = true)
  /\ (forall j l, j < 0 -> Samples.hex_split_lines !! j = Some l ->
        contains (lit "function " ++ lit "layoutHexSplit" ++ lit "(") l = false)
  /\ (exists l, Samples.hex_split_lines !! 2 = Some l
                /\ strip l = lit "return layers;"
                /\ (depth_after 0 (take (S (2 - 0)) (drop 0 Samples.hex_split_lines))
                    <= 1)%Z)
  /\ (forall j l, 0 <= j < 2 -> Samples.hex_split_lines !! j = Some l ->
        strip l = lit "return layers;" ->
        (1 < depth_after 0 (take (S (j - 0)) (drop 0 Samples.hex_split_lines)))%Z).
Proof.
  apply (find_function_range_found Samples.hex_split_lines
           (lit "layoutHexSplit") [] 0 2).
  vm_compute. reflexivity.
Defined.

(** An insertion that is made puts the new lines, in their order, right
    before the [return layers;] line that [find_function_range] finds, and
    keeps every line of the file. *)
Theorem insert_before_return_splices
    (lines code_lines lines' printed : list (list N)) (func_name : list N) :
  insert_before_return lines func_name code_lines = (lines', printed, true) ->
  exists ret,
    (find_function_range lines func_name).2.2 = Some ret
    /\ ret < length lines
    /\ lines' = take ret lines ++ code_lines ++ drop ret lines
    /\ lines' !! (ret + length code_lines) = lines !! ret
    /\ length lines' = length lines + length code_lines.
Proof.
  unfold insert_before_return.
  destruct (find_function_range lines func_name) as [out [start [ret|]]] eqn:Hrange;
    [|done].
  intros [= <- _]. exists ret. split; [done|].
  assert (ret < length lines) as Hlt.
  { revert Hrange. unfold find_function_range.
    destruct (first_index _ lines 0) as [s|] eqn:Hstart; [|done].
    destruct (find_return _ 0 s) as [r|] eqn:Hret; [|done].
    intros [= _ _ <-]. apply find_return_bounds in Hret.
    apply first_index_bounds in Hstart. rewrite length_drop in Hret. lia. }
  split; [done|].
  pose proof (insert_all_splice code_lines (take ret lines) [] (drop ret lines))
    as Hsplice.
  rewrite length_take_le in Hsplice by lia. cbn [length app] in Hsplice.
  rewrite take_drop in Hsplice. rewrite Hsplice.
  split; [done|]. split.
  - rewrite lookup_app_r by (rewrite length_take; lia).
    rewrite length_take_le by lia.
    rewrite lookup_app_r by lia.
    rewrite lookup_drop. f_equal. lia.
  - rewrite !length_app, length_take, length_drop. lia.
Qed.

Lemma insert_before_return_splices_on_sample :
  exists ret,
    (find_function_range Samples.hex_split_lines (lit "layoutHexSplit")).2.2
    = Some ret
    /\ ret < length Samples.hex_split_lines
    /\ MoreSamples.hex_split_with_logo
       = take ret Samples.hex_split_lines
         ++ MoreSamples.logo_lines ++ drop ret Samples.hex_split_lines
    /\ MoreSamples.hex_split_with_logo !! (ret + length MoreSamples.logo_lines)
       = Samples.hex_split_lines !! ret
    /\ length MoreSamples.hex_split_with_logo
       = length Samples.hex_split_lines + length MoreSamples.logo_lines.
Proof.
  apply (insert_before_return_splices Samples.hex_split_lines
           MoreSamples.logo_lines MoreSamples.hex_split_with_logo
           [lit "  " ++ check_mark
            ++ lit " Inserted 2 lines before return in layoutHexSplit"]
           (lit "layoutHexSplit")).
  vm_compute. reflexivity.
Defined.

End AddLogoRanges.

(** ** fix-contact-overflow.py *)

Section ContactOverflowFacts.
Import PyStr IO FixContactOverflow.
Local Open Scope nat_scope.

Lemma find_closing_bounds (window : list (list N)) (k r : nat) :
  find_closing window k = Some r -> k <= r < k + length window.
Proof.
  revert k. induction window as [|line rest IH]; intros k; cbn [find_closing];
    [done|].
  destruct (closes line); [intros [= <-]; simpl; lia|].
  intros H. apply IH in H. simpl. lia.
Qed.

Lemma find_closing_none (window : list (list N)) (k : nat) :
  Forall (fun line => closes line = false) window ->
  find_closing window k = None.
Proof.
  intros H. revert k. induction H as [|line rest Hline _ IH]; intros k;
    cbn [find_closing]; [done|].
  rewrite Hline. apply IH.
Qed.

Lemma length_list_insert_at' {A} (k : nat) (x : A) (l : list A) :
  length (list_insert_at k x l) = S (length l).
Proof.
  unfold list_insert_at. rewrite length_app. cbn [length].
  rewrite length_take, length_drop. lia.
Qed.

(** What one step of a loop of the script does: it prints, and it may put
    one more element into [lines]. *)
Local Abbreviation step_ok st w r :=
  (exists st' ts,
     r = (Ret st', World (files w) (log w ++ map Print ts))
     /\ length (lines st') + changes st = length (lines st) + changes st'
     /\ changes st <= changes st' <= S (changes st)
     /\ length (calls st') = length (calls st)).

Lemma step_ok_same (st : state) (w : world) : step_ok st w (Ret st, w).
Proof.
  exists st, []. cbn [map]. rewrite app_nil_r. destruct w. split; [done|]. lia.
Qed.

Lemma add_max_y_ok (ln k : nat) (st : state) (w : world) :
  k < length (lines st) -> step_ok st w (add_max_y ln k st w).
Proof.
  intros Hk. unfold add_max_y. cbn zeta.
  destruct (contains (lit "maxY") _).
  { exists st, [lit "  SKIP L" ++ dec ln ++ lit ": maxY already present"].
    split; [done|]. lia. }
  assert (prev_index k (length (lines st)) < length (lines st)) as Hprev.
  { destruct k; cbn [prev_index]; lia. }
  destruct (lookup_lt_is_Some_2 _ _ Hprev) as [prev_line Hline]. rewrite Hline.
  eexists _, [_]. split; [reflexivity|]. cbn [lines changes calls].
  rewrite length_list_insert_at', length_map.
  split; [|lia].
  destruct (endswith _ _); [lia|]. rewrite length_insert. lia.
Qed.

Lemma visit_ok (pos : nat) (st : state) (w : world) :
  step_ok st w (visit pos st w).
Proof.
  unfold visit. destruct (calls st !! pos) as [ln|]; [|apply step_ok_same].
  cbn zeta.
  destruct (find_closing _ _) as [k|] eqn:Hfind; [|apply step_ok_same].
  apply add_max_y_ok.
  apply find_closing_bounds in Hfind.
  rewrite length_take, length_drop in Hfind. lia.
Qed.

Lemma visits_ok (xs : list nat) (st : state) (w : world) :
  exists st' ts,
    for_fold visit xs st w = (Ret st', World (files w) (log w ++ map Print ts))
    /\ length (lines st') + changes st = length (lines st) + changes st'
    /\ changes st <= changes st' <= changes st + length xs.
Proof.
  revert st w. induction xs as [|x xs IH]; intros st w.
  { exists st, []. cbn [map]. rewrite app_nil_r. destruct w.
    split; [done|]. cbn [length]. lia. }
  rewrite for_fold_cons.
  destruct (visit_ok x st w) as (st1 & ts1 & -> & Hlen1 & Hch1 & _).
  destruct (IH st1 (World (files w) (log w ++ map Print ts1)))
    as (st2 & ts2 & -> & Hlen2 & Hch2).
  exists st2, (ts1 ++ ts2). cbn [files log].
  rewrite map_app, app_assoc. split; [done|]. cbn [length]. lia.
Qed.



Lemma call_lines_from_3244 : Forall (fun ln => 3244 <= ln) call_lines.
Proof.
  apply Forall_forall. intros ln Hin.
  assert (forallb (fun ln => 3244 <=? ln) call_lines = true) as Hall
    by (vm_compute; reflexivity).
  rewrite forallb_forall in Hall. apply Nat.leb_le, Hall.
  by apply list_elem_of_In.
Qed.

Lemma visits_nothing_to_do (xs : list nat) (ls : list (list N)) (n : nat)
    (w : world) :
  (forall k line, 3243 <= k -> ls !! k = Some line -> closes line = false) ->
  for_fold visit xs (State ls call_lines n) w = (Ret (State ls call_lines n), w).
Proof.
  intros Hno. induction xs as [|x xs IH]; [done|].
  rewrite for_fold_cons.
  assert (visit x (State ls call_lines n) w = (Ret (State ls call_lines n), w))
    as ->; [|done].
  unfold visit. cbn [calls lines].
  destruct (call_lines !! x) as [ln|] eqn:Hln; [|done]. cbn zeta.
  rewrite find_closing_none; [done|].
  apply Forall_forall. intros line Hin.
  apply list_elem_of_lookup in Hin as [j Hj].
  apply lookup_take_Some in Hj as [Hj _]. rewrite lookup_drop in Hj.
  apply (Hno (ln - 1 + j)); [|done].
  pose proof call_lines_from_3244 as Hall.
  rewrite Forall_forall in Hall.
  specialize (Hall ln (list_elem_of_lookup_2 _ _ _ Hln)). lia.
Qed.



End ContactOverflowFacts.

(** ** fix-fonts.py: the count it reports and the lines it leaves alone *)

Section FixFontsMore.
Import PyStr IO FixFonts.
Local Open Scope nat_scope.

(** The counter is the number of messages printed so far. *)
Local Abbreviation counted st := (changes_made st = length (out st)).

Lemma foldl_invariant {A B} (Q : A -> Prop) (f : A -> B -> A) (a : A) (xs : list B) :
  (forall a x, Q a -> Q (f a x)) -> Q a -> Q (foldl f a xs).
Proof.
  intros Hf. revert a. induction xs as [|x xs IH]; intros a Ha; simpl; [done|].
  by apply IH, Hf.
Qed.

Lemma replace_listed_counted new what i st :
  counted st -> counted (replace_listed new what i st).
Proof.
  intros H. unfold replace_listed. destruct (lines st !! i); [|done].
  case_bool_decide; cbn [changes_made out]; [done|].
  rewrite length_app. simpl. lia.
Qed.

Lemma listed_step_counted st i : counted st -> counted (listed_step st i).
Proof.
  intros H. unfold listed_step.
  repeat match goal with |- context [if ?b then _ else _] => destruct b end;
    try done; try by apply replace_listed_counted.
  unfold delete_listed. destruct (lines st !! i); [|done].
  destruct (contains _ _); [|done]. cbn [changes_made out].
  rewrite length_app. simpl. lia.
Qed.

Lemma sans_step_counted st i : counted st -> counted (sans_step st i).
Proof.
  intros H. unfold sans_step. destruct (lines st !! i); [|done].
  destruct (contains _ _); [|done].
  destruct (is_back _ _); cbn [changes_made out]; rewrite length_app; simpl; lia.
Qed.

Lemma serif_step_counted st i : counted st -> counted (serif_step st i).
Proof.
  intros H. unfold serif_step. destruct (lines st !! i); [|done].
  destruct (contains _ _); [|done].
  destruct (is_back _ _); [|done].
  cbn [changes_made out]. rewrite length_app. simpl. lia.
Qed.

Lemma patch_counted (content : list N) : counted (patch content).
Proof.
  unfold patch, enumerate_lines.
  apply foldl_invariant; [apply serif_step_counted|].
  apply foldl_invariant; [apply sans_step_counted|].
  apply foldl_invariant; [apply listed_step_counted|]. done.
Qed.

(** A run of fix-fonts.py on a file it can open ends normally; the total it
    prints is the number of change lines it has printed before, and the
    file holds the joined lines. *)
Theorem fix_fonts_reports_its_changes
    (fs : gmap (list N) (list N)) (content : list N) :
  fs !! filepath = Some content ->
  exists ts,
    run main fs
    = (Ret tt,
       World (<[filepath := written content]> fs)
             ([OpenRead filepath] ++ map Print ts
              ++ [Print (nl :: lit "Total changes: " ++ dec (length ts));
                  OpenWrite filepath;
                  Print (lit "File written successfully.")])).
Proof.
  intros Hfile. exists (out (patch content)).
  unfold run, main.
  unfold mbind at 1. unfold M_bind at 1. unfold read_file at 1.
  cbn [files log app]. rewrite Hfile. cbn zeta.
  unfold print_all, print, emit, write_file, mbind, M_bind. cbn [files log].
  rewrite <- (patch_counted content). unfold written.
  by rewrite <- !app_assoc.
Qed.

Lemma fix_fonts_reports_its_changes_on_sample :
  exists ts,
    run main {[filepath := Samples.sans_declaration]}
    = (Ret tt,
       World (<[filepath := written Samples.sans_declaration]>
                {[filepath := Samples.sans_declaration]})
             ([OpenRead filepath] ++ map Print ts
              ++ [Print (nl :: lit "Total changes: " ++ dec (length ts));
                  OpenWrite filepath;
                  Print (lit "File written successfully.")])).
Proof.
  apply (fix_fonts_reports_its_changes {[filepath := Samples.sans_declaration]}
           Samples.sans_declaration).
  apply lookup_singleton_eq.
Defined.

(** *** Lines without a font stack *)

Lemma contains_true (sub s : list N) (k : nat) :
  startswith sub (drop k s) = true -> contains sub s = true.
Proof.
  intros H. destruct (contains sub s) eqn:E; [done|].
  by rewrite (no_occurrence_at _ _ k E) in H.
Qed.

(** A text that holds [a ++ b] holds [b]. *)
Lemma contains_suffix_absent (a b s : list N) :
  contains b s = false -> contains (a ++ b) s = false.
Proof.
  intros Hb. destruct (contains (a ++ b) s) eqn:E; [|done].
  unfold contains in E.
  destruct (find_at (a ++ b) s 0) as [j|] eqn:Hfind; [|done].
  apply find_at_Some in Hfind as (k & _ & _ & Hat & _).
  apply startswith_spec in Hat as [t Ht].
  assert (startswith b (drop (k + length a) s) = true) as Hat'.
  { rewrite <- drop_drop, Ht, <- app_assoc, drop_app_length.
    apply startswith_spec. by exists t. }
  by rewrite (contains_true _ _ _ Hat') in Hb.
Qed.

Local Abbreviation plain line :=
  (contains geometric line = false
   /\ contains (lit "FONT_STACKS.serif") line = false).

Lemma replace_listed_frame new what i j st line :
  plain line -> lines st !! i = Some line ->
  lines (replace_listed new what j st) !! i = Some line.
Proof.
  intros [Hg _] Hline. unfold replace_listed.
  destruct (lines st !! j) as [old|] eqn:Hold; [|done].
  assert (<[j := replace geometric new old]> (lines st) !! i = Some line) as H.
  { destruct (decide (j = i)) as [->|Hne].
    - rewrite Hline in Hold. injection Hold as <-.
      rewrite (replace_absent _ _ _ Hg).
      by rewrite list_insert_id.
    - by rewrite list_lookup_insert_ne. }
  by case_bool_decide.
Qed.

Lemma listed_step_frame i j st line :
  plain line -> lines st !! i = Some line ->
  lines (listed_step st j) !! i = Some line.
Proof.
  intros Hplain Hline. unfold listed_step.
  repeat match goal with |- context [if ?b then _ else _] => destruct b end;
    try done; try by apply replace_listed_frame.
  unfold delete_listed.
  destruct (lines st !! j) as [old|] eqn:Hold; [|done].
  destruct (contains const_ff old) eqn:Hff; [|done]. cbn [lines].
  destruct (decide (j = i)) as [->|Hne]; [|by rewrite list_lookup_insert_ne].
  rewrite Hline in Hold. injection Hold as <-.
  destruct Hplain as [Hg _].
  change const_ff with (lit "const ff = " ++ geometric) in Hff.
  by rewrite (contains_suffix_absent (lit "const ff = ") geometric line Hg) in Hff.
Qed.

Lemma sans_step_frame i j st line :
  plain line -> lines st !! i = Some line ->
  lines (sans_step st j) !! i = Some line.
Proof.
  intros [Hg _] Hline. unfold sans_step.
  destruct (lines st !! j) as [old|] eqn:Hold; [|done].
  destruct (contains const_sans old) eqn:Hsans; [|done].
  destruct (decide (j = i)) as [->|Hne].
  - rewrite Hline in Hold. injection Hold as <-.
    change const_sans with (lit "const sansFont = " ++ geometric) in Hsans.
    by rewrite (contains_suffix_absent (lit "const sansFont = ") geometric line Hg)
      in Hsans.
  - destruct (is_back _ _); cbn [lines]; by rewrite list_lookup_insert_ne.
Qed.

Lemma serif_step_frame i j st line :
  plain line -> lines st !! i = Some line ->
  lines (serif_step st j) !! i = Some line.
Proof.
  intros [_ Hs] Hline. unfold serif_step.
  destruct (lines st !! j) as [old|] eqn:Hold; [|done].
  destruct (contains const_serif old) eqn:Hserif; [|done].
  destruct (decide (j = i)) as [->|Hne].
  - rewrite Hline in Hold. injection Hold as <-.
    change const_serif
      with (lit "const serifFont = " ++ lit "FONT_STACKS.serif") in Hserif.
    by rewrite (contains_suffix_absent (lit "const serifFont = ")
                  (lit "FONT_STACKS.serif") line Hs) in Hserif.
  - destruct (is_back _ _); cbn [lines]; [|done]. by rewrite list_lookup_insert_ne.
Qed.

(** fix-fonts.py leaves alone every line that mentions neither
    [FONT_STACKS.geometric] nor [FONT_STACKS.serif]: such a line of the
    text read is, at the same position, a line of the text written. *)
Theorem fix_fonts_keeps_plain_lines (content line : list N) (i : nat) :
  split nl content !! i = Some line ->
  contains (lit "FONT_STACKS.geometric") line = false ->
  contains (lit "FONT_STACKS.serif") line = false ->
  split nl (written content) !! i = Some line.
Proof.
  intros Hline Hg Hs.
  destruct (patch_keeps content) as [Hlen Hall]. unfold written.
  rewrite split_join; [| |done].
  2:{ intros Hnil. rewrite Hnil in Hlen. apply lookup_lt_Some in Hline.
      simpl in Hlen. lia. }
  unfold patch, enumerate_lines.
  apply (foldl_invariant (fun st => lines st !! i = Some line));
    [intros st j; by apply serif_step_frame|].
  apply (foldl_invariant (fun st => lines st !! i = Some line));
    [intros st j; by apply sans_step_frame|].
  apply (foldl_invariant (fun st => lines st !! i = Some line));
    [intros st j; by apply listed_step_frame|].
  done.
Qed.

Lemma fix_fonts_keeps_plain_lines_on_sample :
  split nl (written Samples.two_plain_lines) !! 1 = Some (lit "const b = 2;").
Proof.
  apply (fix_fonts_keeps_plain_lines Samples.two_plain_lines
           (lit "const b = 2;") 1); vm_compute; reflexivity.
Defined.

End FixFontsMore.

(** ** fix-ff-errors.py: the text it writes *)

Section FixFFErrorsOutput.
Import PyStr IO FixFFErrors.
Local Open Scope nat_scope.

Variable unicode_alnum : N -> bool.

(** What the loop over the listed lines makes of a line. *)
Local Abbreviation on_listed xs :=
  (fun (i : nat) (line : list N) =>
     if bool_decide (S i ∈ xs) then re_sub_ff unicode_alnum line else line).

Lemma fix_line_result (line_num : nat) (st : list (list N) * nat) (w : world)
    (old : list N) :
  st.1 !! (line_num - 1) = Some old ->
  exists n ts,
    fix_line unicode_alnum line_num st w
    = (Ret (<[line_num - 1 := re_sub_ff unicode_alnum old]> st.1, n),
       World (files w) (log w ++ map Print ts)).
Proof.
  intros Hold. unfold fix_line. rewrite Hold. case_bool_decide as Hsame.
  - exists st.2, []. rewrite Hsame, list_insert_id by done.
    destruct st, w. cbn [map]. by rewrite app_nil_r.
  - eexists _, [_; _]. unfold mbind, M_bind, print, emit, mret, M_ret.
    cbn [files log map]. by rewrite <- app_assoc.
Qed.

Lemma fix_lines_result (xs : list nat) (st : list (list N) * nat) (w : world) :
  Forall (fun n => 1 <= n <= length st.1) xs -> NoDup xs ->
  exists n ts,
    for_fold (fix_line unicode_alnum) xs st w
    = (Ret (imap (on_listed xs) st.1, n), World (files w) (log w ++ map Print ts)).
Proof.
  revert st w. induction xs as [|x xs IH]; intros st w Hall Hnodup.
  { exists st.2, []. cbn [for_fold map]. rewrite app_nil_r.
    replace (imap (on_listed []) st.1) with st.1; [by destruct st, w|].
    apply list_eq. intros i. rewrite list_lookup_imap.
    rewrite bool_decide_eq_false_2 by apply not_elem_of_nil.
    by destruct (st.1 !! i). }
  apply Forall_cons in Hall as [Hx Hall].
  apply NoDup_cons in Hnodup as [Hfresh Hnodup].
  destruct (lookup_lt_is_Some_2 st.1 (x - 1) ltac:(lia)) as [old Hold].
  rewrite for_fold_cons.
  destruct (fix_line_result x st w old Hold) as (n1 & ts1 & ->).
  destruct (IH (<[x - 1 := re_sub_ff unicode_alnum old]> st.1, n1)
              (World (files w) (log w ++ map Print ts1)))
    as (n2 & ts2 & ->); [|done|].
  { cbn [fst]. by rewrite length_insert. }
  exists n2, (ts1 ++ ts2). cbn [files log fst]. rewrite map_app, app_assoc.
  do 2 f_equal. f_equal.
  apply list_eq. intros i. rewrite !list_lookup_imap.
  destruct (decide (i = x - 1)) as [->|Hne].
  - rewrite list_lookup_insert_eq by lia. rewrite Hold.
    cbn [fmap option_fmap option_map].
    replace (S (x - 1)) with x by lia.
    rewrite bool_decide_eq_false_2 by done.
    by rewrite bool_decide_eq_true_2 by apply list_elem_of_here.
  - rewrite list_lookup_insert_ne by done.
    destruct (st.1 !! i) as [line|]; [|done]. cbn [fmap option_fmap option_map].
    destruct (decide (S i ∈ xs)) as [Hin|Hnin].
    + rewrite !bool_decide_eq_true_2; [done| |done].
      by apply list_elem_of_further.
    + rewrite !bool_decide_eq_false_2; [done| |done].
      rewrite elem_of_cons. intros [?|?]; [lia|done].
Qed.

Lemma ff_error_lines_distinct : NoDup ff_error_lines.
Proof.
  match goal with |- ?P => apply (bool_decide_unpack P) end.
  vm_compute. exact I.
Qed.

Lemma ff_error_lines_not_3950 : 3950 ∉ ff_error_lines.
Proof.
  match goal with |- ?P => apply (bool_decide_unpack P) end.
  vm_compute. exact I.
Qed.

Lemma ff_error_lines_range : Forall (fun n => 1 <= n <= 3950) ff_error_lines.
Proof.
  unfold ff_error_lines. repeat (apply Forall_cons; split; [lia|]).
  apply Forall_nil_2.
Qed.

(** What the script makes of line [S i]. *)
Local Abbreviation fixed :=
  (fun (i : nat) (line : list N) =>
     if bool_decide (S i ∈ ff_error_lines)
     then re_sub_ff unicode_alnum line
     else if bool_decide (S i = 3950) && contains (lit "const ff = ff") line
          then []
          else line).

Lemma fix_ff_errors_run (fs : gmap (list N) (list N)) (content : list N) :
  fs !! FILE = Some content ->
  3950 <= length (readlines content) ->
  exists w,
    run (main unicode_alnum) fs = (Ret tt, w)
    /\ files w
       = <[FILE := concat (imap fixed (readlines content))]> fs.
Proof.
  intros Hfile Hlen. unfold run, main.
  unfold mbind at 1. unfold M_bind at 1. rewrite (main_read _ _ Hfile).
  unfold mbind at 1. unfold M_bind at 1.
  destruct (fix_lines_result ff_error_lines (readlines content, 0)
              (World fs [OpenRead FILE])) as (n & ts & ->);
    [|apply ff_error_lines_distinct|].
  { cbn [fst]. eapply Forall_impl; [apply ff_error_lines_range|].
    cbn beta. lia. }
  cbn [fst files log].
  unfold mbind at 1. unfold M_bind at 1. unfold fix_3950.
  change (3950 - 1) with 3949. cbn [fst snd].
  rewrite list_lookup_imap.
  destruct (lookup_lt_is_Some_2 (readlines content) 3949 ltac:(lia))
    as [line Hline].
  rewrite Hline. cbn [fmap option_fmap option_map].
  rewrite (bool_decide_eq_false_2 (3950 ∈ ff_error_lines))
    by apply ff_error_lines_not_3950.
  destruct (contains (lit "const ff = ff") line) eqn:Hremove;
    unfold mbind, M_bind, print, emit, write_file, mret, M_ret;
    cbn [files log fst snd]; (eexists; split; [reflexivity|]);
    cbn [files]; do 2 f_equal;
    apply list_eq; intros i.
  - destruct (decide (i = 3949)) as [->|Hne].
    + rewrite list_lookup_insert_eq by (rewrite length_imap; lia).
      rewrite list_lookup_imap, Hline. cbn [fmap option_fmap option_map].
      rewrite (bool_decide_eq_false_2 (3950 ∈ ff_error_lines))
        by apply ff_error_lines_not_3950.
      by rewrite bool_decide_eq_true_2, Hremove by done.
    + rewrite list_lookup_insert_ne by done. rewrite !list_lookup_imap.
      destruct (readlines content !! i); [|done].
      cbn [fmap option_fmap option_map].
      by rewrite (bool_decide_eq_false_2 (S i = 3950)) by lia.
  - rewrite !list_lookup_imap.
    destruct (readlines content !! i) as [l|] eqn:Hl; [|done].
    cbn [fmap option_fmap option_map].
    destruct (decide (i = 3949)) as [->|Hne].
    + rewrite Hline in Hl. injection Hl as <-. by rewrite Hremove, andb_false_r.
    + by rewrite (bool_decide_eq_false_2 (S i = 3950)) by lia.
Qed.


End FixFFErrorsOutput.


(** ** fix-ff-errors.py: running it again *)

Section FixFFErrorsAgain.
Import PyStr IO FixFFErrors.
Local Open Scope nat_scope.

Variable unicode_alnum : N -> bool.

Local Abbreviation sub_ff := (FixFFErrors.sub_ff unicode_alnum).
Local Abbreviation is_word := (FixFFErrors.is_word unicode_alnum).
Local Abbreviation starts_with_word :=
  (FixFFErrors.starts_with_word unicode_alnum).
Local Abbreviation re_sub_ff := (FixFFErrors.re_sub_ff unicode_alnum).

Lemma sub_ff_nil (b : bool) : sub_ff b [] = [].
Proof. done. Qed.

Lemma sub_ff_single (b : bool) (c : N) : sub_ff b [c] = [c].
Proof. done. Qed.

(** Where no [ff] is replaced the character is copied. *)
Lemma sub_ff_copy (b : bool) (c c2 : N) (s : list N) :
  negb b && (c =? 102)%N && (c2 =? 102)%N && negb (starts_with_word s) = false ->
  sub_ff b (c :: c2 :: s) = c :: sub_ff (is_word c) (c2 :: s).
Proof. intros H. cbn [FixFFErrors.sub_ff]. by rewrite H. Qed.

Lemma sub_ff_match (c c2 : N) (s : list N) :
  negb false && (c =? 102)%N && (c2 =? 102)%N && negb (starts_with_word s) = true ->
  sub_ff false (c :: c2 :: s) = lit "cfg.fontFamily" ++ sub_ff true s.
Proof. intros H. cbn [FixFFErrors.sub_ff]. by rewrite H. Qed.

Lemma sub_ff_after_word (c : N) (s : list N) :
  sub_ff true (c :: s) = c :: sub_ff (is_word c) s.
Proof. by destruct s. Qed.

Lemma sub_ff_other (b : bool) (c : N) (s : list N) :
  c <> 102%N -> sub_ff b (c :: s) = c :: sub_ff (is_word c) s.
Proof.
  intros Hc. destruct s as [|c2 s]; [done|]. apply sub_ff_copy.
  apply N.eqb_neq in Hc. rewrite Hc. by rewrite andb_false_r.
Qed.

(** The text put in place of [ff] is copied by a second substitution. *)
Lemma sub_ff_replacement (b : bool) (t : list N) :
  sub_ff b (lit "cfg.fontFamily" ++ t) = lit "cfg.fontFamily" ++ sub_ff true t.
Proof.
  change (lit "cfg.fontFamily")
    with [99; 102; 103; 46; 102; 111; 110; 116; 70; 97; 109; 105; 108; 121]%N.
  cbn [app].
  rewrite (sub_ff_other b 99) by done.
  change (is_word 99) with true. rewrite sub_ff_after_word.
  rewrite (sub_ff_other _ 103) by done.
  rewrite (sub_ff_other _ 46) by done.
  change (is_word 46) with false.
  rewrite (sub_ff_copy false 102 111) by done.
  rewrite (sub_ff_other _ 111) by done.
  rewrite (sub_ff_other _ 110) by done.
  rewrite (sub_ff_other _ 116) by done.
  rewrite (sub_ff_other _ 70) by done.
  rewrite (sub_ff_other _ 97) by done.
  rewrite (sub_ff_other _ 109) by done.
  rewrite (sub_ff_other _ 105) by done.
  rewrite (sub_ff_other _ 108) by done.
  rewrite (sub_ff_other _ 121) by done.
  done.
Qed.

Lemma starts_with_word_after_word (s : list N) :
  starts_with_word (sub_ff true s) = starts_with_word s.
Proof. destruct s as [|c s]; [done|]. by rewrite sub_ff_after_word. Qed.

(** A second substitution finds nothing to replace. *)
Lemma sub_ff_idempotent (s : list N) (b : bool) :
  sub_ff b (sub_ff b s) = sub_ff b s.
Proof.
  remember (length s) as n eqn:Hn. revert s b Hn.
  induction (lt_wf n) as [n _ IH]. intros s b ->.
  destruct s as [|c [|c2 s]]; [done|done|].
  destruct (negb b && (c =? 102)%N && (c2 =? 102)%N && negb (starts_with_word s))
    eqn:Hcond.
  - destruct b; [done|]. rewrite (sub_ff_match _ _ _ Hcond).
    rewrite sub_ff_replacement. f_equal.
    apply (IH (length s)); [simpl; lia|done].
  - rewrite (sub_ff_copy _ _ _ _ Hcond).
    assert (sub_ff (is_word c) (sub_ff (is_word c) (c2 :: s))
            = sub_ff (is_word c) (c2 :: s)) as Hrest.
    { apply (IH (length (c2 :: s))); [simpl; lia|done]. }
    destruct (sub_ff (is_word c) (c2 :: s)) as [|d r] eqn:Hr; [done|].
    rewrite sub_ff_copy; [by rewrite Hrest|].
    destruct b; [done|]. cbn [negb andb] in *.
    destruct (N.eqb_spec c 102) as [Hc|]; [subst c|done]. cbn [andb] in *.
    change (is_word 102) with true in Hr.
    rewrite sub_ff_after_word in Hr. injection Hr as <- Hr.
    destruct (N.eqb_spec c2 102) as [Hc2|]; [subst c2|done]. cbn [andb] in *.
    change (is_word 102) with true in Hr.
    apply negb_false_iff in Hcond.
    by rewrite <- Hr, starts_with_word_after_word, Hcond.
Qed.

(** The substitution keeps the newline that ends a line, and brings no
    newline in. *)
Lemma sub_ff_newline (s : list N) (b : bool) :
  sub_ff b (s ++ [nl]) = sub_ff b s ++ [nl].
Proof.
  remember (length s) as n eqn:Hn. revert s b Hn.
  induction (lt_wf n) as [n _ IH]. intros s b ->.
  destruct s as [|c [|c2 s]]; [done| |].
  - cbn [app]. rewrite sub_ff_copy; [done|].
    by destruct b, (c =? 102)%N.
  - assert (starts_with_word (s ++ [nl]) = starts_with_word s) as Hsw.
    { by destruct s. }
    cbn [app].
    destruct (negb b && (c =? 102)%N && (c2 =? 102)%N && negb (starts_with_word s))
      eqn:Hcond.
    + destruct b; [done|].
      rewrite (sub_ff_match _ _ s Hcond), sub_ff_match by (by rewrite Hsw).
      rewrite <- app_assoc. f_equal. apply (IH (length s)); [simpl; lia|done].
    + rewrite (sub_ff_copy _ _ _ s Hcond), sub_ff_copy by (by rewrite Hsw).
      cbn [app]. f_equal.
      apply (IH (length (c2 :: s)) ltac:(simpl; lia) (c2 :: s)). done.
Qed.

Lemma sub_ff_no_newline (s : list N) (b : bool) :
  nl ∉ s -> nl ∉ sub_ff b s.
Proof.
  remember (length s) as n eqn:Hn. revert s b Hn.
  induction (lt_wf n) as [n _ IH]. intros s b -> Hs.
  destruct s as [|c [|c2 s]]; [done|done|].
  apply not_elem_of_cons in Hs as [Hc Hs].
  destruct (negb b && (c =? 102)%N && (c2 =? 102)%N && negb (starts_with_word s))
    eqn:Hcond.
  - destruct b; [done|]. rewrite (sub_ff_match _ _ _ Hcond).
    apply not_elem_of_cons in Hs as [_ Hs].
    rewrite elem_of_app. intros [Hin|Hin].
    + revert Hin. apply (bool_decide_unpack (nl ∉ lit "cfg.fontFamily")).
      vm_compute. exact I.
    + revert Hin. apply (IH (length s)); [simpl; lia|done|done].
  - rewrite (sub_ff_copy _ _ _ _ Hcond). apply not_elem_of_cons. split; [done|].
    apply (IH (length (c2 :: s))); [simpl; lia|done|done].
Qed.

Lemma sub_ff_nonempty (s : list N) (b : bool) : s <> [] -> sub_ff b s <> [].
Proof.
  destruct s as [|c [|c2 s]]; [done|done|]. intros _. cbn [FixFFErrors.sub_ff].
  by destruct (_ && _).
Qed.

(** *** The lines of a text *)

Local Abbreviation with_newline := (fun b : list N => b ++ [nl]).

(** A last line without its newline. *)
Local Abbreviation open_tail tail :=
  (tail = [] \/ exists t : list N, tail = [t] /\ t <> [] /\ nl ∉ t).

Lemma readlines_line (b rest : list N) :
  nl ∉ b -> readlines (b ++ nl :: rest) = (b ++ [nl]) :: readlines rest.
Proof.
  induction b as [|c b IH]; intros Hb; cbn [app readlines].
  - by rewrite N.eqb_refl.
  - apply not_elem_of_cons in Hb as [Hc Hb].
    destruct (N.eqb_spec c nl) as [|_]; [congruence|]. by rewrite IH.
Qed.

Lemma readlines_last (t : list N) : t <> [] -> nl ∉ t -> readlines t = [t].
Proof.
  induction t as [|c t IH]; [done|]. intros _ Ht. cbn [readlines].
  apply not_elem_of_cons in Ht as [Hc Ht].
  destruct (N.eqb_spec c nl) as [|_]; [congruence|].
  destruct t as [|c' t]; [done|]. by rewrite IH.
Qed.

(** [readlines] gives lines that end with their newline, and possibly a
    last one without. *)
Lemma readlines_shape (s : list N) :
  exists bodies tail,
    readlines s = map with_newline bodies ++ tail
    /\ Forall (fun b => nl ∉ b) bodies /\ open_tail tail.
Proof.
  induction s as [|c s (bodies & tail & Hs & Hbodies & Htail)].
  { exists [], []. split; [done|]. split; [done|]. by left. }
  cbn [readlines]. destruct (N.eqb_spec c nl) as [->|Hc].
  { exists ([] :: bodies), tail. rewrite Hs. split; [done|].
    split; [|done]. apply Forall_cons. split; [apply not_elem_of_nil|done]. }
  rewrite Hs. destruct bodies as [|b bodies].
  - destruct Htail as [->|(t & -> & Ht & Hnl)].
    + exists [], [[c]]. split; [done|]. split; [done|]. right.
      exists [c]. split; [done|]. split; [done|].
      apply not_elem_of_cons. split; [done|apply not_elem_of_nil].
    + exists [], [c :: t]. split; [done|]. split; [done|]. right.
      exists (c :: t). split; [done|]. split; [done|].
      by apply not_elem_of_cons.
  - apply Forall_cons in Hbodies as [Hb Hbodies].
    exists ((c :: b) :: bodies), tail. split; [done|]. split; [|done].
    apply Forall_cons. split; [|done]. by apply not_elem_of_cons.
Qed.

Lemma readlines_of_shape (bodies tail : list (list N)) :
  Forall (fun b => nl ∉ b) bodies -> open_tail tail ->
  readlines (concat (map with_newline bodies ++ tail))
  = map with_newline bodies ++ tail.
Proof.
  intros Hbodies Htail. induction Hbodies as [|b bodies Hb _ IH].
  - cbn [map app]. destruct Htail as [->|(t & -> & Ht & Hnl)]; [done|].
    cbn [concat]. rewrite app_nil_r. by apply readlines_last.
  - cbn [map app concat]. rewrite <- app_assoc. cbn [app].
    rewrite readlines_line by done. by rewrite IH.
Qed.

(** A rewriting of the lines that keeps their newlines leaves them the
    lines of the text they make. *)
Lemma imap_shape (f : nat -> list N -> list N) (bodies tail : list (list N)) :
  (forall i b, nl ∉ b -> exists b', f i (b ++ [nl]) = b' ++ [nl] /\ nl ∉ b') ->
  (forall i t, t <> [] -> nl ∉ t -> f i t <> [] /\ nl ∉ f i t) ->
  Forall (fun b => nl ∉ b) bodies -> open_tail tail ->
  exists bodies' tail',
    imap f (map with_newline bodies ++ tail) = map with_newline bodies' ++ tail'
    /\ Forall (fun b => nl ∉ b) bodies' /\ open_tail tail'.
Proof.
  intros Hline Hlast Hbodies Htail. revert f Hline Hlast.
  induction Hbodies as [|b bodies Hb _ IH]; intros f Hline Hlast.
  - exists []. cbn [map app]. destruct Htail as [->|(t & -> & Ht & Hnl)].
    + exists []. split; [done|]. split; [done|]. by left.
    + exists [f 0 t]. split; [done|]. split; [done|]. right.
      exists (f 0 t). split; [done|]. by apply Hlast.
  - destruct (Hline 0 b Hb) as (b' & Hb' & Hnl').
    destruct (IH (f ∘ S)) as (bodies' & tail' & Himap & Hbodies' & Htail').
    { intros i. apply Hline. }
    { intros i. apply Hlast. }
    exists (b' :: bodies'), tail'. cbn [map app]. rewrite imap_cons.
    rewrite Hb', Himap. split; [done|]. split; [|done].
    by apply Forall_cons.
Qed.

Lemma readlines_imap (f : nat -> list N -> list N) (s : list N) :
  (forall i b, nl ∉ b -> exists b', f i (b ++ [nl]) = b' ++ [nl] /\ nl ∉ b') ->
  (forall i t, t <> [] -> nl ∉ t -> f i t <> [] /\ nl ∉ f i t) ->
  readlines (concat (imap f (readlines s))) = imap f (readlines s).
Proof.
  intros Hline Hlast.
  destruct (readlines_shape s) as (bodies & tail & -> & Hbodies & Htail).
  destruct (imap_shape f bodies tail Hline Hlast Hbodies Htail)
    as (bodies' & tail' & -> & Hbodies' & Htail').
  by apply readlines_of_shape.
Qed.

(** *** The second run *)

Local Abbreviation on_listed :=
  (fun (i : nat) (line : list N) =>
     if bool_decide (S i ∈ ff_error_lines) then re_sub_ff line else line).

Local Abbreviation fixed :=
  (fun (i : nat) (line : list N) =>
     if bool_decide (S i ∈ ff_error_lines)
     then re_sub_ff line
     else if bool_decide (S i = 3950) && contains (lit "const ff = ff") line
          then []
          else line).


End FixFFErrorsAgain.


(** ** analyze-business-cards.py: the reports *)

Section OsPathFacts.
Import PyStr.
Local Open Scope nat_scope.

(** For a second part that does not start with [/], [os.path.join] puts the
    first part, possibly with a separator, before it. *)
Lemma join_relative (a b : list N) :
  startswith [OsPath.sep] b = false ->
  OsPath.join a b
  = a ++ (if bool_decide (a = []) || endswith [OsPath.sep] a then []
          else [OsPath.sep]) ++ b.
Proof.
  intros Hb. unfold OsPath.join. rewrite Hb.
  by destruct (bool_decide (a = []) || endswith [OsPath.sep] a).
Qed.

Lemma join_relative_inj (a b b' : list N) :
  startswith [OsPath.sep] b = false -> startswith [OsPath.sep] b' = false ->
  OsPath.join a b = OsPath.join a b' -> b = b'.
Proof.
  intros Hb Hb'. rewrite !join_relative by done. intros H.
  by apply app_inv_head in H as H%app_inv_head.
Qed.

Lemma join_relative_last (a b : list N) :
  startswith [OsPath.sep] b = false -> b <> [] ->
  last (OsPath.join a b) = last b.
Proof.
  intros Hb Hne. rewrite join_relative by done.
  rewrite app_assoc, last_app. destruct (last b) eqn:E; [done|].
  by apply last_None in E.
Qed.

End OsPathFacts.

Section ReportFacts.
Import PyStr IO AnalyzeBusinessCards.
Local Open Scope nat_scope.

Variable script_file : list N.
Variable b64encode : list N -> list N.
Variable messages_create : nat -> list N -> list N + list N.

Local Abbreviation analyze_image :=
  (analyze script_file b64encode messages_create).
Local Abbreviation image_path :=
  (fun name : list N => OsPath.join (base_dir script_file) name).
Local Abbreviation report_path :=
  (fun name : list N => output_file script_file name).
Local Abbreviation report_text :=
  (fun name analysis : list N =>
     lit "# Business Card Analysis: " ++ name ++ [nl; nl] ++ analysis).

(** The file name of a report, [<name without extension>.md]. *)
Local Abbreviation report_name :=
  (fun name : list N => (OsPath.splitext name).1 ++ lit ".md").

Lemma report_name_relative (name : list N) :
  name ∈ images -> startswith [OsPath.sep] (report_name name) = false.
Proof.
  intros Hin.
  assert (Forall (fun name => startswith [OsPath.sep] (report_name name) = false)
            images) as Hall.
  { match goal with |- ?P => apply (bool_decide_unpack P) end.
    vm_compute. exact I. }
  rewrite Forall_forall in Hall. by apply Hall.
Qed.

(** No image of the list is the report of an image of the list: the first
    ends with [g], the second with [d]. *)
Lemma image_is_no_report (name name' : list N) :
  name ∈ images -> name' ∈ images -> image_path name <> report_path name'.
Proof.
  intros Hin Hin' Heq.
  assert (Forall (fun name => startswith [OsPath.sep] name = false
                              /\ last name = Some 103%N) images) as Hall.
  { match goal with |- ?P => apply (bool_decide_unpack P) end.
    vm_compute. exact I. }
  rewrite Forall_forall in Hall. destruct (Hall name Hin) as [Hrel Hlast].
  apply (f_equal last) in Heq. unfold output_file in Heq.
  rewrite join_relative_last in Heq by (by destruct name).
  rewrite join_relative_last in Heq.
  - rewrite Hlast in Heq. change (lit ".md") with ([46; 109] ++ [100])%N in Heq.
    by rewrite app_assoc, last_snoc in Heq.
  - by apply report_name_relative.
  - by destruct ((OsPath.splitext name').1).
Qed.

(** Different images of the list have different reports. *)
Lemma report_path_inj (name name' : list N) :
  name ∈ images -> name' ∈ images ->
  report_path name = report_path name' -> name = name'.
Proof.
  intros Hin Hin' Heq. unfold output_file in Heq.
  apply join_relative_inj in Heq; [|by apply report_name_relative..].
  assert (forall x y, x ∈ images -> y ∈ images ->
            report_name x = report_name y -> x = y) as Hinj; [|by apply Hinj].
  assert (NoDup (map report_name images)) as Hnodup.
  { match goal with |- ?P => apply (bool_decide_unpack P) end.
    vm_compute. exact I. }
  assert (NoDup images) as Himages.
  { match goal with |- ?P => apply (bool_decide_unpack P) end.
    vm_compute. exact I. }
  intros x y Hx Hy Hxy.
  apply list_elem_of_lookup in Hx as [i Hi]. apply list_elem_of_lookup in Hy as [j Hj].
  assert (i = j) as ->; [|congruence].
  apply (NoDup_lookup _ _ _ (report_name x) Hnodup).
  - by rewrite list_lookup_fmap, Hi.
  - by rewrite list_lookup_fmap, Hj, Hxy.
Qed.

(** The loop over the images, on names of the list: what the files hold
    afterwards. *)
Lemma analyze_all_files (names : list (list N)) (k : nat) (w : world) :
  names ⊆ images -> NoDup names ->
  (forall name, name ∈ names -> is_Some (files w !! image_path name)) ->
  length (api_calls (log w)) = k ->
  exists w',
    for_each (zip (seq k (length names)) names) analyze_image w = (Ret tt, w')
    /\ length (api_calls (log w')) = k + length names
    /\ (forall p, (forall name, name ∈ names -> p <> report_path name) ->
          files w' !! p = files w !! p)
    /\ (forall j name data,
          names !! j = Some name -> files w !! image_path name = Some data ->
          files w' !! report_path name
          = match messages_create (k + j) (b64encode data) with
            | inr analysis => Some (report_text name analysis)
            | inl _ => files w !! report_path name
            end).
Proof.
  revert k w. induction names as [|name rest IH]; intros k w Hsub Hnodup Hfiles Hk.
  { exists w. cbn [length seq zip zip_with for_each]. split; [done|].
    split; [lia|]. split; [done|]. intros j name data Hj.
    by rewrite lookup_nil in Hj. }
  cbn [length seq zip zip_with]. rewrite for_each_cons.
  apply NoDup_cons in Hnodup as [Hfresh Hnodup].
  assert (name ∈ images) as Hname by (apply Hsub, list_elem_of_here).
  assert (rest ⊆ images) as Hrest.
  { intros x Hx. by apply Hsub, list_elem_of_further. }
  pose proof (analyze_cases script_file b64encode messages_create k name w)
    as Hcase.
  destruct (Hfiles name (list_elem_of_here _ _)) as [data Hdata].
  rewrite Hdata, Hk in Hcase.
  assert (forall name', name' ∈ rest -> report_path name <> report_path name')
    as Hother.
  { intros name' Hin Heq. apply report_path_inj in Heq; [|done|by apply Hrest].
    by subst. }
  destruct (messages_create k (b64encode data)) as [err|analysis] eqn:Hmodel;
    rewrite Hcase; clear Hcase.
  - match goal with |- context [for_each _ _ ?w1] =>
      destruct (IH (S k) w1) as (w' & Hrun & Hcalls & Hframe & Hreports)
    end; [done|done| | |].
    { intros name' Hin. cbn [files]. apply Hfiles. by apply list_elem_of_further. }
    { cbn [log]. rewrite api_calls_app, length_app, Hk.
      match goal with |- _ + length (api_calls ?l) = _ =>
        assert (length (api_calls l) = 1) as -> by reflexivity
      end. lia. }
    cbn [files] in *. exists w'. split; [done|]. split; [lia|]. split.
    { intros p Hp. apply Hframe. intros name' Hin. apply Hp.
      by apply list_elem_of_further. }
    intros [|j] name' data' Hj Hdata'.
    + injection Hj as <-. rewrite Nat.add_0_r.
      rewrite Hdata in Hdata'. injection Hdata' as <-. rewrite Hmodel.
      by apply Hframe.
    + replace (k + S j) with (S k + j) by lia. by apply Hreports.
  - match goal with |- context [for_each _ _ ?w1] =>
      destruct (IH (S k) w1) as (w' & Hrun & Hcalls & Hframe & Hreports)
    end; [done|done| | |].
    { intros name' Hin. cbn [files].
      rewrite lookup_insert_ne; [apply Hfiles; by apply list_elem_of_further|].
      intros Heq. symmetry in Heq. revert Heq.
      apply image_is_no_report; [by apply Hrest|done]. }
    { cbn [log]. rewrite api_calls_app, length_app, Hk.
      match goal with |- _ + length (api_calls ?l) = _ =>
        assert (length (api_calls l) = 1) as -> by reflexivity
      end. lia. }
    cbn [files] in *. exists w'. split; [done|]. split; [lia|]. split.
    { intros p Hp. rewrite Hframe.
      - apply lookup_insert_ne. intros Heq. symmetry in Heq. revert Heq.
        apply Hp, list_elem_of_here.
      - intros name' Hin. apply Hp. by apply list_elem_of_further. }
    intros [|j] name' data' Hj Hdata'.
    + injection Hj as <-. rewrite Nat.add_0_r.
      rewrite Hdata in Hdata'. injection Hdata' as <-. rewrite Hmodel.
      rewrite Hframe by done. apply lookup_insert_eq.
    + replace (k + S j) with (S k + j) by lia.
      assert (name' ∈ rest) as Hin by (by eapply list_elem_of_lookup_2).
      rewrite (Hreports j name' data' Hj).
      * destruct (messages_create (S k + j) (b64encode data')) as [e|a];
          [|reflexivity].
        apply lookup_insert_ne. by apply Hother.
      * rewrite lookup_insert_ne; [done|].
        intros Heq. symmetry in Heq. revert Heq.
        apply image_is_no_report; [by apply Hrest|done].
Qed.

End ReportFacts.

Section ReportsOfARun.
Import PyStr IO AnalyzeBusinessCards.
Local Open Scope nat_scope.

Variable script_file : list N.
Variable b64encode : list N -> list N.
Variable messages_create : nat -> list N -> list N + list N.

Local Abbreviation image_path :=
  (fun name : list N => OsPath.join (base_dir script_file) name).
Local Abbreviation report_path :=
  (fun name : list N => output_file script_file name).


End ReportsOfARun.


(** ** analyze-6ed0.py: the bounding boxes *)

Section CardBoundsFacts.
Import Analyze6ed0 CardBounds.
Local Open Scope nat_scope.

Variable mask : pixel -> bool.
Variable min_count : nat.
Variable img : image.

(** A row that counts: more than [min_count] of its pixels pass the mask. *)
Local Abbreviation counts y := (min_count < length (where_ mask img y)).

Lemma elem_of_where (x y : nat) :
  x ∈ where_ mask img y <-> x < w img /\ mask (arr img y x) = true.
Proof.
  unfold where_. rewrite list_elem_of_filter, elem_of_seq. split.
  - intros [? [? ?]]. split; [lia|done].
  - intros [? ?]. split; [done|lia].
Qed.

(** The first and the last position of a row that counts enclose the
    others. *)
Lemma where_extent (y : nat) :
  where_ mask img y <> [] ->
  hd 0 (where_ mask img y) ∈ where_ mask img y
  /\ List.last (where_ mask img y) 0 ∈ where_ mask img y
  /\ forall x, x ∈ where_ mask img y ->
       hd 0 (where_ mask img y) <= x <= List.last (where_ mask img y) 0.
Proof.
  intros Hne. destruct (where_ mask img y) as [|x l] eqn:E; [done|].
  cbn [hd]. rewrite (last_default_irrelevant x l 0 x).
  split; [apply list_elem_of_here|]. split; [apply last_elem_of|].
  by apply (filter_seq_extent (fun x => mask (arr img y x)) _ _ _ _ E).
Qed.

(** What holds of the four variables after the rows below [n]. *)
Local Abbreviation enclosing n b :=
  (match top b with
   | None =>
       bottom b = None /\ left b = w img /\ right b = 0
       /\ forall y, y < n -> ~ counts y
   | Some t =>
       exists bt,
         bottom b = Some bt /\ t <= bt < n /\ counts t /\ counts bt
         /\ (forall y, y < n -> counts y -> t <= y <= bt)
         /\ (forall y x, y < n -> counts y -> x < w img ->
               mask (arr img y x) = true -> left b <= x <= right b)
         /\ (exists y, y < n /\ counts y /\ left b ∈ where_ mask img y)
         /\ (exists y, y < n /\ counts y /\ right b ∈ where_ mask img y)
   end).

Lemma step_enclosing (n : nat) (b : bounds) :
  enclosing n b -> enclosing (S n) (step mask min_count img b n).
Proof.
  intros Hb. unfold step. cbn zeta.
  destruct (Nat.ltb_spec min_count (length (where_ mask img n))) as [Hn|Hn].
  - assert (where_ mask img n <> []) as Hne.
    { intros E. rewrite E in Hn. simpl in Hn. lia. }
    destruct (where_extent n Hne) as (Hfirst & Hlast & Hext).
    pose proof Hfirst as Hfirst'. pose proof Hlast as Hlast'.
    apply elem_of_where in Hfirst' as [Hfw _].
    apply elem_of_where in Hlast' as [Hlw _].
    pose proof (Hext _ Hfirst) as Hfl.
    cbn [top bottom left right].
    destruct (top b) as [t|] eqn:Htop.
    + destruct Hb as (bt & Hbottom & Hrange & Ht & Hbt & Hrows & Hcols
                      & (yl & Hyl & Hcl & Hl) & (yr & Hyr & Hcr & Hr)).
      exists n. split; [done|]. split; [lia|]. split; [done|]. split; [done|].
      split.
      { intros y Hy Hc. destruct (decide (y = n)) as [->|Hne']; [lia|].
        specialize (Hrows y ltac:(lia) Hc). lia. }
      split.
      { intros y x Hy Hc Hx Hm. destruct (decide (y = n)) as [->|Hne'].
        - specialize (Hext x (proj2 (elem_of_where x n) (conj Hx Hm))). lia.
        - specialize (Hcols y x ltac:(lia) Hc Hx Hm). lia. }
      split.
      { destruct (Nat.min_spec (left b) (hd 0 (where_ mask img n)))
          as [[_ ->]|[_ ->]].
        - exists yl. split; [lia|done].
        - exists n. split; [lia|done]. }
      destruct (Nat.max_spec (right b) (List.last (where_ mask img n) 0))
        as [[_ ->]|[_ ->]].
      * exists n. split; [lia|done].
      * exists yr. split; [lia|done].
    + destruct Hb as (Hbottom & Hleft & Hright & Hnone).
      rewrite Hleft, Hright, Nat.min_r, Nat.max_r by lia.
      exists n. split; [done|]. split; [lia|]. split; [done|]. split; [done|].
      assert (forall y, y < S n -> counts y -> y = n) as Honly.
      { intros y Hy Hc. destruct (decide (y = n)); [done|].
        exfalso. apply (Hnone y); [lia|done]. }
      split.
      { intros y Hy Hc. rewrite (Honly y Hy Hc). lia. }
      split.
      { intros y x Hy Hc Hx Hm. rewrite (Honly y Hy Hc) in Hm.
        apply Hext. by apply elem_of_where. }
      split; exists n; (split; [lia|done]).
  - destruct (top b) as [t|] eqn:Htop.
    + destruct Hb as (bt & Hbottom & Hrange & Ht & Hbt & Hrows & Hcols
                      & (yl & Hyl & Hcl & Hl) & (yr & Hyr & Hcr & Hr)).
      exists bt. split; [done|]. split; [lia|]. split; [done|]. split; [done|].
      split.
      { intros y Hy Hc. destruct (decide (y = n)) as [->|Hne']; [lia|].
        apply Hrows; [lia|done]. }
      split.
      { intros y x Hy Hc. destruct (decide (y = n)) as [->|Hne']; [lia|].
        apply Hcols; [lia|done]. }
      split; [exists yl|exists yr]; (split; [lia|done]).
    + destruct Hb as (Hbottom & Hleft & Hright & Hnone).
      split; [done|]. split; [done|]. split; [done|].
      intros y Hy. destruct (decide (y = n)) as [->|Hne']; [lia|].
      apply Hnone. lia.
Qed.

Lemma scan_enclosing : enclosing (h img) (scan mask min_count img).
Proof.
  unfold scan.
  assert (forall n, enclosing n (foldl (step mask min_count img)
                                  (Bounds None None (w img) 0) (seq 0 n))) as H.
  { induction n as [|n IH].
    - cbn [seq foldl top bottom left right]. split; [done|]. split; [done|].
      split; [done|]. lia.
    - rewrite seq_S, foldl_app. cbn [foldl Nat.add]. by apply step_enclosing. }
  apply H.
Qed.


End CardBoundsFacts.

Section CardBoundsOfAnImage.
Import Analyze6ed0 CardBounds.
Local Open Scope nat_scope.

(** What a bounding-box loop has found: nothing, when no row counts; or the
    first and the last row that count, and the least and the greatest
    position that passes the mask in a row that counts. *)
Local Abbreviation encloses mask min_count img b :=
  (match top b with
   | None =>
       bottom b = None
       /\ forall y, y < h img -> length (where_ mask img y) <= min_count
   | Some t =>
       exists bt,
         bottom b = Some bt /\ t <= bt < h img
         /\ min_count < length (where_ mask img t)
         /\ min_count < length (where_ mask img bt)
         /\ (forall y, y < h img -> min_count < length (where_ mask img y) ->
               t <= y <= bt)
         /\ (forall y x, y < h img -> min_count < length (where_ mask img y) ->
               x < w img -> mask%function (arr img y x) = true ->
               left b <= x <= right b)
         /\ left b <= right b < w img
   end).

Lemma scan_encloses (mask : pixel -> bool) (min_count : nat) (img : image) :
  encloses mask min_count img (scan mask min_count img).
Proof.
  pose proof (scan_enclosing mask min_count img) as H.
  destruct (top (scan mask min_count img)) as [t|].
  - destruct H as (bt & Hbottom & Hrange & Ht & Hbt & Hrows & Hcols
                   & (yl & Hyl & Hcl & Hl) & (yr & Hyr & Hcr & Hr)).
    exists bt. split; [done|]. split; [done|]. split; [done|]. split; [done|].
    split; [done|]. split; [done|].
    apply elem_of_where in Hl as [Hlw Hlm]. apply elem_of_where in Hr as [Hrw Hrm].
    specialize (Hcols yl _ Hyl Hcl Hlw Hlm). lia.
  - destruct H as (Hbottom & _ & _ & Hnone). split; [done|].
    intros y Hy. specialize (Hnone y Hy). lia.
Qed.

(** The bounding boxes analyze-6ed0.py computes for the white card (rows
    with more than 50 pixels whose three channels exceed 220) and for the
    dark card (rows with more than 100 pixels whose three channels are below
    80): [top] and [bottom] are the first and the last row that counts,
    every pixel that passes the mask in a row that counts lies between
    [left] and [right], and the box is inside the image.  When no row
    counts, [top] and [bottom] stay [None]. *)
Theorem card_bounds_enclose (img : image) :
  encloses is_bright 50 img (white_card img)
  /\ encloses is_dark 100 img (dark_card img)
  /\ (forall r g b, is_bright (r, g, b) = true <-> (220 < r /\ 220 < g /\ 220 < b)%Z)
  /\ (forall r g b, is_dark (r, g, b) = true <-> (r < 80 /\ g < 80 /\ b < 80)%Z).
Proof.
  split; [apply scan_encloses|]. split; [apply scan_encloses|].
  split; intros r g b; unfold is_bright, is_dark;
    rewrite !andb_true_iff, !Z.ltb_lt; tauto.
Qed.

End CardBoundsOfAnImage.

(** ** add-logo-to-templates.py: the guard around the company text *)

Section CompanyGuard.
Import PyStr IO AddLogo AddLogoScript.
Local Open Scope nat_scope.

Local Abbreviation guard_open := (lit "  if (!cfg.logoUrl) {").
Local Abbreviation guard_close := (lit "  }").

Lemma search_absent (lines : list (list N)) (text : list N) (i count : nat) :
  i <= length lines ->
  (forall j line, i <= j < i + count -> lines !! j = Some line ->
     contains text line = false) ->
  search lines text i count
  = if i + count <=? length lines then NotFound else SearchRaisesIndexError.
Proof.
  revert i. induction count as [|count IH]; intros i Hi Habsent.
  { cbn [search]. destruct (Nat.leb_spec (i + 0) (length lines)); [done|lia]. }
  cbn [search]. destruct (lines !! i) as [line|] eqn:Hline.
  - rewrite (Habsent i line) by (done || lia).
    apply lookup_lt_Some in Hline.
    rewrite IH; [|lia|].
    + by replace (S i + count) with (i + S count) by lia.
    + intros j l Hj. apply Habsent. lia.
  - apply lookup_ge_None in Hline.
    destruct (Nat.leb_spec (i + S count) (length lines)); [lia|done].
Qed.

Lemma search_found (lines : list (list N)) (text : list N) (i count k : nat) :
  search lines text i count = FoundAt k ->
  i <= k < i + count
  /\ exists line, lines !! k = Some line /\ contains text line = true.
Proof.
  revert i. induction count as [|count IH]; intros i; cbn [search]; [done|].
  destruct (lines !! i) as [line|] eqn:Hline; [|done].
  destruct (contains text line) eqn:Hc.
  - intros [= <-]. split; [lia|]. by exists line.
  - intros Hs. destruct (IH _ Hs) as [Hk Hex]. split; [lia|done].
Qed.

Lemma find_push_bounds (lines : list (list N)) (start i p : nat) :
  find_push lines start i = Some p -> p <= i /\ (start <= i -> start <= p).
Proof.
  induction i as [|i IH]; cbn [find_push].
  { intros [= <-]. lia. }
  destruct (Nat.ltb_spec start (S i)) as [Hlt|Hge]; [|intros [= <-]; lia].
  destruct (lines !! S i) as [line|]; [|done].
  destruct (contains _ line); [intros [= <-]; lia|].
  intros Hp. destruct (IH Hp). lia.
Qed.

Lemma skip_blank_bounds (lines : list (list N)) (start c q : nat) :
  skip_blank lines start c = Some q -> q <= c /\ start `min` c <= q.
Proof.
  induction c as [|c IH]; cbn [skip_blank].
  { intros [= <-]. lia. }
  destruct (Nat.ltb_spec start (S c)) as [Hlt|Hge]; [|intros [= <-]; lia].
  destruct (lines !! S c) as [line|]; [|done].
  destruct (bool_decide _); [|intros [= <-]; lia].
  intros Hq. destruct (IH Hq). lia.
Qed.

Lemma find_push_end_bounds (window : list (list N)) (d : Z) (j e : nat) :
  find_push_end window d j = Some e -> j <= e < j + length window.
Proof.
  revert d j. induction window as [|line rest IH]; intros d j;
    cbn [find_push_end]; [done|].
  cbn zeta. destruct (_ || _).
  - intros [= <-]. cbn [length]. lia.
  - intros He. apply IH in He. cbn [length]. lia.
Qed.

Lemma length_py_insert {A} (i : Z) (x : A) (l : list A) :
  length (py_insert i x l) = S (length l).
Proof.
  unfold py_insert. cbn zeta.
  rewrite length_app. cbn [length].
  rewrite length_take, length_drop. lia.
Qed.

(** Two insertions, the second two places after a line that is not before
    the first: the lines between them end up enclosed. *)
Lemma py_insert_twice {A} (a b : nat) (x y : A) (l : list A) :
  a <= b < length l ->
  py_insert (Z.of_nat (b + 2)) y (py_insert (Z.of_nat a) x l)
  = take a l ++ x :: take (b + 1 - a) (drop a l) ++ y :: drop (b + 1) l.
Proof.
  intros Hab. unfold py_insert at 2. cbn zeta. unfold clamp.
  destruct (Z.ltb_spec (Z.of_nat a) 0) as [?|_]; [lia|].
  replace (Z.to_nat (Z.min (Z.of_nat a) (Z.of_nat (length l)))) with a by lia.
  unfold py_insert. cbn zeta. unfold clamp.
  destruct (Z.ltb_spec (Z.of_nat (b + 2)) 0) as [?|_]; [lia|].
  rewrite length_app. cbn [length]. rewrite length_take, length_drop.
  replace (Z.to_nat (Z.min (Z.of_nat (b + 2))
                       (Z.of_nat (a `min` length l + S (length l - a)))))
    with (b + 2) by lia.
  assert (length (take a l) = a) as Hla by (rewrite length_take; lia).
  rewrite take_app_ge, drop_app_ge by lia. rewrite Hla.
  replace (b + 2 - a) with (S (b + 1 - a)) by lia.
  cbn [take drop]. rewrite drop_drop.
  replace (a + (b + 1 - a)) with (b + 1) by lia.
  by rewrite <- app_assoc.
Qed.

(** What [guard_at] does to the lines when the function does not start on
    the first line of the file. *)
Lemma guard_at_shape (lines lines' : list (list N)) (func_name : list N)
    (start i : nat) (out : list (list N)) (flag : bool) :
  0 < start <= i -> i < length lines ->
  guard_at lines func_name start i = (out, GuardReturns lines' flag) ->
  flag = true
  /\ (lines' = lines
      \/ exists a b,
           start - 1 <= a <= i /\ i <= b < length lines /\ b < i + 30
           /\ lines' = take a lines ++ guard_open ::
                       take (b + 1 - a) (drop a lines) ++ guard_close ::
                       drop (b + 1) lines).
Proof.
  intros Hstart Hi. unfold guard_at.
  destruct (find_push lines start i) as [p|] eqn:Hp; [|done].
  apply find_push_bounds in Hp as [Hpi Hps]. specialize (Hps ltac:(lia)).
  destruct p as [|p]; [lia|].
  destruct (lines !! p) as [prev|] eqn:Hprev; cbn [fmap option_fmap option_map];
    [|done].
  destruct (contains _ (strip prev)).
  { intros [= _ <- <-]. split; [done|by left]. }
  destruct (skip_blank lines start p) as [q|] eqn:Hq;
    cbn [fmap option_fmap option_map]; [|done].
  apply skip_blank_bounds in Hq as [Hqp Hqs].
  destruct (py_get lines (Z.of_nat q)) as [line|]; [|done].
  cbn zeta.
  set (push_end := default i (find_push_end _ 0 i)).
  assert (i <= push_end < length lines /\ push_end < i + 30) as Hend.
  { subst push_end.
    destruct (find_push_end _ 0 i) as [e|] eqn:He; simpl; [|lia].
    apply find_push_end_bounds in He.
    rewrite length_take, length_drop in He. lia. }
  destruct (startswith _ (strip line));
    intros [= _ <- <-]; (split; [done|]); right.
  - exists q, push_end. split; [lia|]. split; [lia|]. split; [lia|].
    apply py_insert_twice. lia.
  - exists (S p), push_end. split; [lia|]. split; [lia|]. split; [lia|].
    apply py_insert_twice. lia.
Qed.

(** The number of lines after [guard_at]. *)
Lemma guard_at_length (lines lines' : list (list N)) (func_name : list N)
    (start i : nat) (out : list (list N)) (flag : bool) :
  guard_at lines func_name start i = (out, GuardReturns lines' flag) ->
  length lines' = length lines \/ length lines' = length lines + 2.
Proof.
  unfold guard_at.
  destruct (find_push lines start i) as [p|]; [|done].
  destruct (match p with O => Some [] | S p' => strip <$> lines !! p' end)
    as [prev|]; [|done].
  destruct (contains _ prev); [intros [= _ <- _]; by left|].
  destruct (match p with O => Some (-1)%Z | S p' => _ end) as [c|]; [|done].
  destruct (py_get lines c) as [line|]; [|done].
  cbn zeta. intros [= _ <- _]. right.
  rewrite !length_py_insert. lia.
Qed.

Lemma find_function_range_bounds (lines : list (list N)) (func_name : list N)
    (out : list (list N)) (start ret_line : nat) :
  find_function_range lines func_name = (out, (Some start, Some ret_line)) ->
  out = [] /\ start <= ret_line < length lines.
Proof.
  unfold find_function_range.
  destruct (first_index _ lines 0) as [s|] eqn:Hs; [|done].
  destruct (find_return (drop s lines) 0 s) as [r|] eqn:Hr; [|done].
  intros [= <- <- <-]. split; [done|].
  apply find_return_bounds in Hr. rewrite length_drop in Hr.
  apply first_index_bounds in Hs. lia.
Qed.

(** When the function is found and none of the lines the search visits
    holds the company text, the call prints the warning and returns [False]
    if the file goes on for ten lines after the [return layers;]; on a
    shorter file the search runs past the last line and the call ends with
    an [IndexError]. *)
Theorem wrap_company_with_guard_text_missing
    (lines : list (list N)) (func_name text : list N) (start ret_line : nat) :
  find_function_range lines func_name = ([], (Some start, Some ret_line)) ->
  (forall i line, start <= i < ret_line + 10 -> lines !! i = Some line ->
     contains text line = false) ->
  wrap_company_with_guard lines func_name text
  = if ret_line + 10 <=? length lines
    then ([lit "  " ++ warning_sign ++ lit " Could not find company text '"
             ++ text ++ lit "' in " ++ func_name],
          GuardReturns lines false)
    else ([], GuardRaisesIndexError).
Proof.
  intros Hrange Habsent. unfold wrap_company_with_guard. rewrite Hrange.
  apply find_function_range_bounds in Hrange as [_ Hb].
  rewrite search_absent.
  - replace (start + (ret_line + 10 - start)) with (ret_line + 10) by lia.
    by destruct (ret_line + 10 <=? length lines).
  - lia.
  - intros j line Hj. apply Habsent. lia.
Qed.

(** When the call returns [True] for a function that does not start on the
    first line of the file, the lines are as they were (the guard was
    there), or an [if (!cfg.logoUrl) {] and a [}] were inserted around a
    stretch of the old lines that holds a line with the company text;
    nothing else changes. *)
Theorem wrap_company_with_guard_encloses
    (lines lines' : list (list N)) (func_name text : list N)
    (start ret_line : nat) (out : list (list N)) :
  find_function_range lines func_name = ([], (Some start, Some ret_line)) ->
  0 < start ->
  wrap_company_with_guard lines func_name text = (out, GuardReturns lines' true) ->
  lines' = lines
  \/ exists a i b line,
       a <= i <= b /\ b < length lines
       /\ lines !! i = Some line /\ contains text line = true
       /\ lines' = take a lines ++ guard_open ::
                   take (b + 1 - a) (drop a lines) ++ guard_close ::
                   drop (b + 1) lines.
Proof.
  intros Hrange Hstart. unfold wrap_company_with_guard. rewrite Hrange.
  destruct (search lines text start _) as [i| |] eqn:Hs; [|done|done].
  apply search_found in Hs as (Hi & line & Hline & Hc).
  destruct (guard_at lines func_name start i) as [out' r] eqn:Hg.
  intros [= _ ->].
  pose proof (lookup_lt_Some _ _ _ Hline) as Hlt.
  apply guard_at_shape in Hg as [_ [->|(a & b & Ha & Hb & _ & ->)]];
    [by left| |lia|done].
  right. exists a, i, b, line. repeat split; (done || lia).
Qed.

End CompanyGuard.

Lemma wrap_company_with_guard_text_missing_on_sample :
  AddLogoScript.wrap_company_with_guard MoreSamples.dot_circle
    (PyStr.lit "layoutDotCircle") (PyStr.lit "Company Branding")
  = ([], AddLogoScript.GuardRaisesIndexError).
Proof.
  apply (wrap_company_with_guard_text_missing MoreSamples.dot_circle
           (PyStr.lit "layoutDotCircle") (PyStr.lit "Company Branding") 1 7).
  - vm_compute. reflexivity.
  - intros i line Hi Hline.
    assert (i < 9)%nat as Hlt by (apply lookup_lt_Some in Hline; exact Hline).
    do 9 (destruct i as [|i]; [injection Hline as <-; vm_compute; reflexivity|]).
    lia.
Defined.

Lemma wrap_company_with_guard_encloses_on_sample :
  MoreSamples.dot_circle_guarded = MoreSamples.dot_circle
  \/ exists a i b line,
       (a <= i <= b)%nat /\ (b < length MoreSamples.dot_circle)%nat
       /\ MoreSamples.dot_circle !! i = Some line
       /\ PyStr.contains (PyStr.lit "Logo Text") line = true
       /\ MoreSamples.dot_circle_guarded
          = take a MoreSamples.dot_circle ++ PyStr.lit "  if (!cfg.logoUrl) {" ::
            take (b + 1 - a) (drop a MoreSamples.dot_circle) ++ PyStr.lit "  }" ::
            drop (b + 1) MoreSamples.dot_circle.
Proof.
  apply (wrap_company_with_guard_encloses MoreSamples.dot_circle
           MoreSamples.dot_circle_guarded
           (PyStr.lit "layoutDotCircle") (PyStr.lit "Logo Text") 1 7
           [PyStr.lit "  " ++ AddLogo.check_mark
              ++ PyStr.lit " Added if (!cfg.logoUrl) guard in "
              ++ PyStr.lit "layoutDotCircle"]).
  - vm_compute. reflexivity.
  - lia.
  - vm_compute. reflexivity.
Defined.

(** ** add-logo-to-templates.py: the script *)

Section AddLogoRun.
Import PyStr IO AddLogo AddLogoScript.
Local Open Scope nat_scope.

Local Abbreviation plain := (Forall (fun l : list N => nl ∉ l)).

Lemma list_insert_at_plain (i : nat) (x : list N) (l : list (list N)) :
  nl ∉ x -> plain l -> plain (list_insert_at i x l).
Proof.
  intros Hx Hl. unfold list_insert_at. apply Forall_app. split.
  - by apply Forall_take.
  - apply Forall_cons. split; [done|by apply Forall_drop].
Qed.

Lemma insert_all_plain (ret_line j : nat) (code_lines lines : list (list N)) :
  plain code_lines -> plain lines -> plain (insert_all ret_line j code_lines lines).
Proof.
  revert j lines. induction code_lines as [|cl rest IH]; intros j lines Hc Hl;
    cbn [insert_all]; [done|].
  inversion Hc; subst. apply IH; [done|]. by apply list_insert_at_plain.
Qed.

Lemma py_insert_plain (i : Z) (x : list N) (l : list (list N)) :
  nl ∉ x -> plain l -> plain (py_insert i x l).
Proof.
  intros Hx Hl. unfold py_insert. cbn zeta. apply Forall_app. split.
  - by apply Forall_take.
  - apply Forall_cons. split; [done|by apply Forall_drop].
Qed.

(** The lines of the block of a template. *)
Local Abbreviation block := (fun entry : list N * (list N * list N * list N * list N) =>
  code entry.2.1.1.1 entry.2.1.1.2 entry.2.1.2 entry.2.2).

Lemma add_logo_counts (lines lines' : list (list N)) entry
    (out : list (list N)) (made : bool) :
  add_logo lines entry = (lines', out, made) ->
  length lines' = length lines + (if made then 7 else 0)
  /\ (plain (block entry) -> plain lines -> plain lines').
Proof.
  destruct entry as [func_name [[[x_expr y_expr] size_expr] color_expr]].
  unfold add_logo. cbn [fst snd].
  assert (length (code x_expr y_expr size_expr color_expr) = 7) as Hc
    by reflexivity.
  generalize dependent (code x_expr y_expr size_expr color_expr).
  intros cl Hc. unfold insert_before_return.
  destruct (find_function_range lines func_name) as [o [s [r|]]].
  - intros [= <- _ <-]. rewrite length_insert_all, Hc. split; [done|].
    intros Hb Hl. by apply insert_all_plain.
  - intros [= <- _ <-]. split; [lia|done].
Qed.

Lemma wrap_counts (lines lines' : list (list N)) (func_name text : list N)
    (out : list (list N)) (flag : bool) :
  wrap_company_with_guard lines func_name text = (out, GuardReturns lines' flag) ->
  (length lines' = length lines \/ length lines' = length lines + 2)
  /\ (plain lines -> plain lines').
Proof.
  unfold wrap_company_with_guard.
  destruct (find_function_range lines func_name) as [o [[s|] [r|]]];
    try (intros [= _ <- _]; split; [by left|done]).
  destruct (search lines text s _) as [i| |];
    [|intros [= _ <- _]; split; [by left|done]|done].
  unfold guard_at.
  destruct (find_push lines s i) as [p|]; [|done].
  destruct (match p with O => Some [] | S p' => strip <$> lines !! p' end)
    as [prev|]; [|done].
  destruct (contains _ prev); [intros [= _ <- _]; split; [by left|done]|].
  destruct (match p with O => Some (-1)%Z | S p' => _ end) as [c|]; [|done].
  destruct (py_get lines c) as [line|]; [|done].
  cbn zeta. intros [= _ <- _]. split.
  - right. rewrite !length_py_insert. lia.
  - intros Hl. repeat apply py_insert_plain; try done;
      match goal with |- ?P => apply (bool_decide_unpack P) end;
      vm_compute; exact I.
Qed.

Lemma no_company_steps
    (xs : list (list N * (list N * list N * list N * list N)))
    (st : list (list N) * nat) (w : world) :
  exists st' ts,
    for_fold no_company_step xs st w
    = (Ret st', World (files w) (log w ++ map Print ts))
    /\ length st'.1 + 7 * st.2 = length st.1 + 7 * st'.2
    /\ st.2 <= st'.2 <= st.2 + length xs
    /\ (Forall (fun entry => plain (block entry)) xs -> plain st.1 -> plain st'.1).
Proof.
  revert st w. induction xs as [|x xs IH]; intros st w.
  { exists st, []. cbn [map]. rewrite app_nil_r. destruct w.
    split; [done|]. cbn [length]. split; [lia|]. split; [lia|done]. }
  rewrite for_fold_cons. unfold no_company_step at 1.
  destruct (add_logo st.1 x) as [[lines1 out1] made] eqn:Hadd.
  apply add_logo_counts in Hadd as [Hlen1 Hplain1].
  unfold mbind, M_bind, print, emit, print_all, mret, M_ret. cbn [files log].
  match goal with |- context [for_fold _ xs ?s ?w1] =>
    destruct (IH s w1) as (st2 & ts2 & -> & Hlen2 & Hch2 & Hplain2)
  end.
  cbn [fst snd files log] in *.
  exists st2, ((nl :: lit "[" ++ x.1 ++ lit "]") :: out1 ++ ts2).
  split.
  { f_equal. f_equal. rewrite <- !app_assoc. f_equal.
    cbn [map app]. f_equal. by rewrite map_app. }
  split; [destruct made; lia|].
  split; [destruct made; cbn [length]; lia|].
  intros Hall Hl. inversion Hall; subst. auto.
Qed.

Lemma with_company_step_ok
    (entry : list N * (list N * list N * list N * list N) * list N)
    (st : list (list N) * nat) (w : world) :
  (exists st' ts guards,
     with_company_step entry st w
     = (Ret st', World (files w) (log w ++ map Print ts))
     /\ length st'.1 + 7 * st.2 = length st.1 + 7 * st'.2 + 2 * guards
     /\ guards <= 1
     /\ st.2 <= st'.2 <= st.2 + 1
     /\ (plain (block entry.1) -> plain st.1 -> plain st'.1))
  \/ (exists w',
        with_company_step entry st w = (Raised IndexError, w')
        /\ files w' = files w).
Proof.
  unfold with_company_step.
  destruct entry as [template company_marker].
  destruct (add_logo st.1 template) as [[lines1 out1] made] eqn:Hadd.
  apply add_logo_counts in Hadd as [Hlen1 Hplain1].
  destruct (wrap_company_with_guard lines1 template.1 company_marker)
    as [out2 r] eqn:Hwrap.
  unfold mbind, M_bind, print, emit, print_all, mret, M_ret, raise.
  cbn [files log fst snd].
  destruct r as [lines2 flag|].
  - apply wrap_counts in Hwrap as [Hlen2 Hplain2].
    left.
    exists (lines2, if made then S st.2 else st.2).
    exists ((nl :: lit "[" ++ template.1 ++ lit "]") :: out1 ++ out2).
    exists ((length lines2 - length lines1) / 2).
    split.
    { f_equal. f_equal. rewrite <- !app_assoc. f_equal.
      cbn [map app]. f_equal. by rewrite !map_app. }
    cbn [fst snd].
    destruct Hlen2 as [Hlen2|Hlen2]; rewrite Hlen2.
    + replace (length lines1 - length lines1) with 0 by lia.
      change (0 / 2) with 0.
      split; [destruct made; lia|]. split; [lia|].
      split; [destruct made; lia|]. auto.
    + replace (length lines1 + 2 - length lines1) with 2 by lia.
      change (2 / 2) with 1.
      split; [destruct made; lia|]. split; [lia|].
      split; [destruct made; lia|]. auto.
  - right. eexists. split; [reflexivity|done].
Qed.

Lemma with_company_steps
    (xs : list (list N * (list N * list N * list N * list N) * list N))
    (st : list (list N) * nat) (w : world) :
  (exists st' ts guards,
     for_fold with_company_step xs st w
     = (Ret st', World (files w) (log w ++ map Print ts))
     /\ length st'.1 + 7 * st.2 = length st.1 + 7 * st'.2 + 2 * guards
     /\ guards <= length xs
     /\ st.2 <= st'.2 <= st.2 + length xs
     /\ (Forall (fun entry => plain (block entry.1)) xs -> plain st.1 ->
         plain st'.1))
  \/ (exists w',
        for_fold with_company_step xs st w = (Raised IndexError, w')
        /\ files w' = files w).
Proof.
  revert st w. induction xs as [|x xs IH]; intros st w.
  { left. exists st, [], 0. cbn [map]. rewrite app_nil_r. destruct w.
    split; [done|]. cbn [length]. split; [lia|]. split; [lia|].
    split; [lia|done]. }
  rewrite for_fold_cons.
  destruct (with_company_step_ok x st w)
    as [(st1 & ts1 & g1 & -> & Hlen1 & Hg1 & Hch1 & Hplain1)|(w' & -> & Hfiles)];
    [|right; by exists w'].
  destruct (IH st1 (World (files w) (log w ++ map Print ts1)))
    as [(st2 & ts2 & g2 & -> & Hlen2 & Hg2 & Hch2 & Hplain2)|(w' & -> & Hfiles)];
    [|right; by exists w'].
  left. exists st2, (ts1 ++ ts2), (g1 + g2). cbn [files log length].
  rewrite map_app, app_assoc. split; [done|].
  split; [lia|]. split; [lia|]. split; [lia|].
  intros Hall Hl. inversion Hall; subst. auto.
Qed.

Lemma blocks_plain :
  Forall (fun entry => plain (block entry)) templates_no_company
  /\ Forall (fun entry => plain (block entry.1)) templates_with_company.
Proof.
  split.
  - match goal with |- ?P => apply (bool_decide_unpack P) end.
    vm_compute. exact I.
  - match goal with |- ?P => apply (bool_decide_unpack P) end.
    vm_compute. exact I.
Qed.

(** On a file it can open the script ends in one of two ways.  Either it
    writes the file and reports the truth: the written text has seven lines
    more than the old one for each of the at most 15 templates it counts as
    updated and two more for each of the at most 3 guards it added, and the
    last message gives the number of templates and the two line counts.  Or
    the search for a company text runs past the end of the file: the script
    ends with an [IndexError] and the file is as it was, without the blocks
    that had been inserted in memory. *)
Theorem add_logo_script_counts_lines
    (fs : gmap (list N) (list N)) (content : list N) :
  fs !! FILE = Some content ->
  (exists w changes guards text,
     run main fs = (Ret tt, w)
     /\ files w = <[FILE := text]> fs
     /\ changes <= 15 /\ guards <= 3
     /\ length (split nl text)
        = length (split nl content) + 7 * changes + 2 * guards
     /\ List.last (log w) (OpenRead [])
        = Print (nl :: lit "=== Done! " ++ dec changes
                 ++ lit " templates updated. Lines: "
                 ++ dec (length (split nl content)) ++ lit " " ++ [8594%N]
                 ++ lit " " ++ dec (length (split nl text)) ++ lit " ==="))
  \/ (exists w, run main fs = (Raised IndexError, w) /\ files w = fs).
Proof.
  intros Hfile. unfold run, main.
  unfold mbind, M_bind, read_file, print, emit, write_file.
  cbn [files log app]. rewrite Hfile.
  match goal with |- context [for_fold no_company_step _ ?s ?w1] =>
    destruct (no_company_steps templates_no_company s w1)
      as (st1 & ts1 & -> & Hlen1 & Hch1 & Hplain1)
  end.
  cbn [fst snd files log] in *.
  match goal with |- context [for_fold with_company_step _ ?s ?w1] =>
    destruct (with_company_steps templates_with_company s w1)
      as [(st2 & ts2 & g & -> & Hlen2 & Hg & Hch2 & Hplain2)
         |(w' & -> & Hfiles)]
  end; [|right; by exists w'].
  left. cbn [fst snd files log] in *.
  assert (split nl (join [nl] st2.1) = st2.1) as Hsplit.
  { apply split_join.
    - intros E. rewrite E in Hlen2. cbn [length] in Hlen2.
      pose proof (split_nonempty nl content) as Hne.
      destruct (split nl content); [done|]. cbn [length] in *. lia.
    - apply Hplain2; [apply blocks_plain|].
      apply Hplain1; [apply blocks_plain|]. apply split_no_sep. }
  eexists _, st2.2, g, (join [nl] st2.1).
  split; [reflexivity|]. cbn [files log].
  split; [done|].
  change (length templates_no_company) with 12 in Hch1.
  change (length templates_with_company) with 3 in Hch2, Hg.
  split; [lia|]. split; [done|]. rewrite Hsplit. split; [lia|].
  by rewrite last_last.
Qed.

End AddLogoRun.

Lemma add_logo_script_counts_lines_on_sample :
  (exists w changes guards text,
     IO.run AddLogoScript.main
       {[AddLogoScript.FILE := MoreSamples.adapter_text]} = (IO.Ret tt, w)
     /\ IO.files w
        = <[AddLogoScript.FILE := text]>
            {[AddLogoScript.FILE := MoreSamples.adapter_text]}
     /\ (changes <= 15)%nat /\ (guards <= 3)%nat
     /\ length (PyStr.split PyStr.nl text)
        = (length (PyStr.split PyStr.nl MoreSamples.adapter_text)
           + 7 * changes + 2 * guards)%nat
     /\ List.last (IO.log w) (IO.OpenRead [])
        = IO.Print (PyStr.nl :: PyStr.lit "=== Done! " ++ PyStr.dec changes
                    ++ PyStr.lit " templates updated. Lines: "
                    ++ PyStr.dec (length (PyStr.split PyStr.nl MoreSamples.adapter_text))
                    ++ PyStr.lit " " ++ [8594%N] ++ PyStr.lit " "
                    ++ PyStr.dec (length (PyStr.split PyStr.nl text))
                    ++ PyStr.lit " ==="))
  \/ (exists w,
        IO.run AddLogoScript.main
          {[AddLogoScript.FILE := MoreSamples.adapter_text]}
        = (IO.Raised IO.IndexError, w)
        /\ IO.files w = {[AddLogoScript.FILE := MoreSamples.adapter_text]}).
Proof.
  apply (add_logo_script_counts_lines
           {[AddLogoScript.FILE := MoreSamples.adapter_text]}
           MoreSamples.adapter_text).
  apply lookup_singleton_eq.
Defined.

(** ** fix-cyan-tech.py: what is replaced, and a second run *)

Section SearchFacts.
Import PyStr.
Local Open Scope nat_scope.

(** The converse of [find_at_Some]. *)
Lemma find_at_first (sub s : list N) (i k : nat) :
  k <= length s ->
  startswith sub (drop k s) = true ->
  (forall k', k' < k -> startswith sub (drop k' s) = false) ->
  find_at sub s i = Some (i + k).
Proof.
  revert s i. induction k as [|k IH]; intros s i Hk Hat Hbefore.
  - rewrite drop_0 in Hat. destruct s; cbn [find_at]; rewrite Hat; f_equal; lia.
  - destruct s as [|x s]; [simpl in Hk; lia|].
    cbn [find_at]. pose proof (Hbefore 0 ltac:(lia)) as H0.
    rewrite drop_0 in H0. rewrite H0.
    rewrite (IH s (S i)).
    + f_equal. lia.
    + simpl in Hk. lia.
    + done.
    + intros k' Hk'. apply (Hbefore (S k')). lia.
Qed.

Lemma find_nat (s sub : list N) (a : nat) :
  a <= length s ->
  find s sub (Z.of_nat a)
  = match find_at sub (drop a s) a with
    | Some i => Z.of_nat i
    | None => (-1)%Z
    end.
Proof.
  intros Ha. unfold find, clamp, len.
  destruct (Z.ltb_spec (Z.of_nat (length s)) (Z.of_nat a)); [lia|].
  destruct (Z.ltb_spec (Z.of_nat a) 0); [lia|].
  rewrite Z.min_l by lia. by rewrite Nat2Z.id.
Qed.

(** [s.find(sub, a)] gives the lowest position from [a] on at which [sub]
    occurs. *)
Lemma find_found (s sub : list N) (a r : nat) :
  find s sub (Z.of_nat a) = Z.of_nat r ->
  a <= r <= length s
  /\ startswith sub (drop r s) = true
  /\ forall j, a <= j < r -> startswith sub (drop j s) = false.
Proof.
  destruct (decide (a <= length s)) as [Ha|Ha].
  - rewrite find_nat by done.
    destruct (find_at sub (drop a s) a) as [i|] eqn:Hi; [|lia].
    intros Hr. apply Nat2Z.inj in Hr. subst i.
    apply find_at_Some in Hi as (k & -> & Hk & Hat & Hbefore).
    rewrite length_drop in Hk. rewrite drop_drop in Hat.
    split; [lia|]. split; [done|].
    intros j Hj. specialize (Hbefore (j - a) ltac:(lia)).
    rewrite drop_drop in Hbefore. by replace (a + (j - a)) with j in Hbefore by lia.
  - unfold find, len.
    destruct (Z.ltb_spec (Z.of_nat (length s)) (Z.of_nat a)); lia.
Qed.

Lemma find_first (s sub : list N) (a r : nat) :
  a <= r <= length s ->
  startswith sub (drop r s) = true ->
  (forall j, a <= j < r -> startswith sub (drop j s) = false) ->
  find s sub (Z.of_nat a) = Z.of_nat r.
Proof.
  intros Hr Hat Hbefore. rewrite find_nat by lia.
  rewrite (find_at_first sub (drop a s) a (r - a)).
  - f_equal. lia.
  - rewrite length_drop. lia.
  - rewrite drop_drop. by replace (a + (r - a)) with r by lia.
  - intros k' Hk'. rewrite drop_drop. apply Hbefore. lia.
Qed.

(** Whether a text opens with [p] depends on its first [length p]
    characters only. *)
Lemma startswith_app_long (p a t : list N) :
  length p <= length a -> startswith p (a ++ t) = startswith p a.
Proof.
  revert a. induction p as [|x p IH]; intros a Hlen.
  - by rewrite !startswith_nil_l.
  - destruct a as [|y a]; [simpl in Hlen; lia|].
    cbn [app startswith]. rewrite IH; [done|]. simpl in Hlen. lia.
Qed.

Lemma slice_to_nat (s : list N) (b : nat) :
  slice_to s (Z.of_nat b) = take b s.
Proof.
  unfold slice_to. change 0%Z with (Z.of_nat 0).
  rewrite (slice_nat s 0 b). by rewrite drop_0, Nat.sub_0_r.
Qed.

Lemma slice_from_nat (s : list N) (a : nat) :
  slice_from s (Z.of_nat a) = drop a s.
Proof.
  unfold slice_from, len. rewrite slice_nat.
  apply take_ge. rewrite length_drop. lia.
Qed.

End SearchFacts.

Section CyanTechAgain.
Import PyStr IO FixCyanTech.
Local Open Scope nat_scope.

Variable new_function : list N.

(** A run on a file that holds the header and, from the header on, the
    comment. *)
Lemma main_found (fs : gmap (list N) (list N)) (content : list N) (s e : nat) :
  fs !! FILE = Some content ->
  find content start_marker 0 = Z.of_nat s ->
  find content end_marker (Z.of_nat s) = Z.of_nat e ->
  exists w,
    run (main new_function) fs = (Ret tt, w)
    /\ files w = <[FILE := take s content ++ new_function ++ drop e content]> fs.
Proof.
  intros Hfile Hs He.
  unfold run, main, find_end, splice.
  unfold mbind, M_bind, read_file, print, emit, write_file, mret, M_ret.
  cbn [files log]. rewrite Hfile, Hs.
  destruct (Z.eqb_spec (Z.of_nat s) (-1)) as [?|_]; [lia|].
  cbn [files log]. rewrite He.
  destruct (Z.eqb_spec (Z.of_nat e) (-1)) as [?|_]; [lia|].
  eexists. split; [reflexivity|]. cbn [files].
  by rewrite slice_to_nat, slice_from_nat.
Qed.

(** The header holds no [/], the character the comment opens with. *)
Lemma header_before_comment (content : list N) (s e : nat) :
  startswith start_marker (drop s content) = true ->
  startswith end_marker (drop e content) = true ->
  s <= e -> s + length start_marker <= e.
Proof.
  intros Hs He Hse.
  apply startswith_spec in Hs as [t Ht]. apply startswith_spec in He as [u Hu].
  destruct (decide (s + length start_marker <= e)) as [|Hlt]; [done|].
  exfalso.
  assert (content !! e = Some 47%N) as H1.
  { rewrite <- (Nat.add_0_r e), <- lookup_drop, Hu. reflexivity. }
  assert (content !! e = start_marker !! (e - s)) as H2.
  { replace e with (s + (e - s)) at 1 by lia.
    rewrite <- lookup_drop, Ht.
    apply lookup_app_l. lia. }
  rewrite H2 in H1. apply list_elem_of_lookup_2 in H1.
  revert H1. match goal with |- ?P -> False => change (~ P) end.
  match goal with |- ?P => apply (bool_decide_unpack P) end.
  vm_compute. exact I.
Qed.

(** The shape of a file in which the searches succeed. *)
Lemma content_shape (content : list N) (s e : nat) :
  find content start_marker 0 = Z.of_nat s ->
  find content end_marker (Z.of_nat s) = Z.of_nat e ->
  exists body post,
    content = take s content ++ (start_marker ++ body) ++ end_marker ++ post
    /\ length (take s content) = s
    /\ drop e content = end_marker ++ post
    /\ s + length (start_marker ++ body) = e.
Proof.
  intros Hs He.
  apply (find_found content start_marker 0 s) in Hs as (Hs & Hats & _).
  apply find_found in He as (He & Hate & _).
  pose proof (header_before_comment content s e Hats Hate ltac:(lia)) as Hse.
  apply startswith_spec in Hats as [t Ht].
  pose proof Hate as Hate'. apply startswith_spec in Hate' as [post Hpost].
  exists (take (e - s - length start_marker) t), post.
  assert (length (take s content) = s) as Hlen by (rewrite length_take; lia).
  assert (length t = length content - s - length start_marker) as Hlt.
  { apply (f_equal length) in Ht. rewrite length_drop, length_app in Ht. lia. }
  split; [|split; [done|split; [done|]]].
  - rewrite <- (take_drop s content) at 1. f_equal.
    rewrite Ht, <- app_assoc. f_equal.
    rewrite <- (take_drop (e - s - length start_marker) t) at 1. f_equal.
    rewrite <- Hpost.
    assert (t = drop (length start_marker) (drop s content)) as ->.
    { by rewrite Ht, drop_app_length. }
    rewrite !drop_drop. f_equal. lia.
  - rewrite length_app, length_take. lia.
Qed.


(** If, besides, the new function opens with the header and the comment
    does not occur in the new function followed by the comment before that
    comment, a second run of the script writes what the first run wrote. *)
Theorem fix_cyan_tech_second_run_changes_nothing
    (fs : gmap (list N) (list N)) (content : list N) (s e : nat) :
  fs !! FILE = Some content ->
  find content start_marker 0 = Z.of_nat s ->
  find content end_marker (Z.of_nat s) = Z.of_nat e ->
  startswith start_marker new_function = true ->
  find (new_function ++ end_marker) end_marker 0 = len new_function ->
  exists w w',
    run (main new_function) fs = (Ret tt, w)
    /\ run (main new_function) (files w) = (Ret tt, w')
    /\ files w' = files w.
Proof.
  intros Hfile Hs He Hopens Habsent.
  destruct (main_found fs content s e Hfile Hs He) as (w & Hrun & Hfiles).
  destruct (content_shape content s e Hs He)
    as (body & post & Hc & Hlen & Hpost & _).
  apply (find_found content start_marker 0 s) in Hs as (Hsb & Hats & Hbefore).
  apply (find_found (new_function ++ end_marker) end_marker 0 (length new_function))
    in Habsent as (_ & _ & Hnone).
  set (pre := take s content) in *.
  set (content' := pre ++ new_function ++ drop e content) in *.
  pose proof Hopens as Hopens'. apply startswith_spec in Hopens' as [rest Hrest].
  assert (find content' start_marker 0 = Z.of_nat s) as Hs'.
  { apply (find_first content' start_marker 0 s).
    - subst content'. rewrite length_app. lia.
    - subst content'. rewrite <- Hlen at 1. rewrite drop_app_length.
      apply startswith_spec. exists (rest ++ drop e content).
      by rewrite Hrest, <- app_assoc.
    - intros j Hj. rewrite <- (Hbefore j Hj).
      rewrite Hc. subst content'. rewrite Hrest.
      rewrite <- !app_assoc.
      rewrite !(app_assoc pre start_marker).
      rewrite (drop_app_le (pre ++ start_marker) (rest ++ drop e content) j)
        by (rewrite length_app; lia).
      rewrite (drop_app_le (pre ++ start_marker) (body ++ end_marker ++ post) j)
        by (rewrite length_app; lia).
      rewrite !startswith_app_long; [done|..];
        rewrite length_drop, length_app; lia. }
  assert (find content' end_marker (Z.of_nat s)
          = Z.of_nat (s + length new_function)) as He'.
  { apply find_first.
    - subst content'. rewrite !length_app. lia.
    - subst content'. rewrite app_assoc.
      replace (s + length new_function) with (length (pre ++ new_function))
        by (rewrite length_app; lia).
      rewrite drop_app_length, Hpost.
      apply startswith_spec. by exists post.
    - intros j Hj. subst content'.
      replace j with (length pre + (j - s)) by lia.
      rewrite drop_app_add, Hpost.
      rewrite app_assoc, drop_app_le by (rewrite length_app; lia).
      rewrite startswith_app_long.
      + apply Hnone. lia.
      + rewrite length_drop, length_app. lia. }
  assert (files w !! FILE = Some content') as Hfile'.
  { rewrite Hfiles. apply lookup_insert_eq. }
  destruct (main_found (files w) content' s (s + length new_function)
              Hfile' Hs' He') as (w' & Hrun' & Hfiles').
  exists w, w'. split; [done|]. split; [done|].
  rewrite Hfiles', Hfiles, insert_insert_eq. f_equal.
  subst content'.
  rewrite <- Hlen at 1. rewrite take_app_length. f_equal. f_equal.
  rewrite app_assoc.
  replace (s + length new_function) with (length (pre ++ new_function))
    by (rewrite length_app; lia).
  by rewrite drop_app_length.
Qed.

End CyanTechAgain.


Lemma fix_cyan_tech_second_run_on_sample :
  exists w w',
    IO.run (FixCyanTech.main MoreSamples.cyan_new_function)
      {[FixCyanTech.FILE := MoreSamples.cyan_adapter]} = (IO.Ret tt, w)
    /\ IO.run (FixCyanTech.main MoreSamples.cyan_new_function) (IO.files w)
       = (IO.Ret tt, w')
    /\ IO.files w' = IO.files w.
Proof.
  apply (fix_cyan_tech_second_run_changes_nothing MoreSamples.cyan_new_function
           {[FixCyanTech.FILE := MoreSamples.cyan_adapter]}
           MoreSamples.cyan_adapter 8 128).
  - apply lookup_singleton_eq.
  - vm_compute. reflexivity.
  - vm_compute. reflexivity.
  - vm_compute. reflexivity.
  - vm_compute. reflexivity.
Defined.

(** ** fix-contact-overflow.py: what becomes of the lines *)

Section ContactOverflowLines.
Import PyStr IO FixContactOverflow.
Local Open Scope nat_scope.

Lemma rstrip_comma_nl (s : list N) :
  rstrip (s ++ lit "," ++ [nl]) = s ++ lit ",".
Proof.
  unfold rstrip. rewrite rev_app_distr.
  change (rev (lit "," ++ [nl])) with [nl; 44%N].
  change (lstrip ([nl; 44%N] ++ rev s)) with (44%N :: rev s).
  cbn [rev]. by rewrite rev_involutive.
Qed.

Lemma endswith_comma (s : list N) : endswith (lit ",") (s ++ lit ",") = true.
Proof. unfold endswith. rewrite rev_app_distr. reflexivity. Qed.

(** A line of the list with the line of the file it comes from, if any. *)
Local Abbreviation origin_ok :=
  (fun t : option (list N) * list N =>
     match t.1 with
     | Some old => t.2 = old \/ t.2 = rstrip old ++ lit "," ++ [nl]
     | None => exists indent, t.2 = indent ++ lit "maxY: H * 0.95," ++ [nl]
     end).

Local Abbreviation kept original st :=
  (exists tagged : list (option (list N) * list N),
     snd <$> tagged = lines st
     /\ omap fst tagged = original
     /\ Forall origin_ok tagged).

Lemma origin_ok_comma (o : option (list N)) (l : list N) :
  origin_ok (o, l) -> endswith (lit ",") (rstrip l) = false ->
  origin_ok (o, rstrip l ++ lit "," ++ [nl]).
Proof.
  destruct o as [old|]; cbn [fst snd].
  - intros [->| ->] Hends; [by right|].
    by rewrite rstrip_comma_nl, endswith_comma in Hends.
  - intros [indent ->] Hends.
    change (lit "maxY: H * 0.95,") with (lit "maxY: H * 0.95" ++ lit ",") in Hends.
    rewrite <- app_assoc, (app_assoc indent) in Hends.
    by rewrite rstrip_comma_nl, endswith_comma in Hends.
Qed.

Lemma omap_fst_insert {A B} (tagged : list (option A * B)) (i : nat)
    (o : option A) (b b' : B) :
  tagged !! i = Some (o, b) ->
  omap fst (<[i := (o, b')]> tagged) = omap fst tagged.
Proof.
  revert i. induction tagged as [|t tagged IH]; intros i; [done|].
  destruct i as [|i]; cbn [lookup list_lookup insert list_insert omap list_omap].
  - by intros [= ->].
  - intros Hi. cbn. by rewrite IH.
Qed.

Lemma omap_fst_insert_at {A B} (tagged : list (option A * B)) (k : nat) (b : B) :
  omap fst (take k tagged ++ (None, b) :: drop k tagged) = omap fst tagged.
Proof.
  rewrite <- (take_drop k tagged) at 3. rewrite !omap_app. reflexivity.
Qed.

Lemma omap_fst_tagged {A} (ls : list A) :
  omap fst ((fun l => (Some l, l)) <$> ls) = ls.
Proof.
  induction ls as [|l ls IH]; [done|].
  rewrite fmap_cons. change (l :: omap fst ((fun l => (Some l, l)) <$> ls) = l :: ls).
  by rewrite IH.
Qed.

Lemma add_max_y_keeps (original : list (list N)) (ln k : nat)
    (st st' : state) (w w' : world) :
  add_max_y ln k st w = (Ret st', w') -> kept original st -> kept original st'.
Proof.
  unfold add_max_y. cbn zeta.
  destruct (contains (lit "maxY") _).
  { unfold mbind, M_bind, print, emit, mret, M_ret. by intros [= <- _]. }
  set (i := prev_index k (length (lines st))).
  destruct (lines st !! i) as [prev_line|] eqn:Hprev; [|done].
  unfold mbind, M_bind, print, emit, mret, M_ret.
  intros Heq (tagged & Hlines & Horig & Hok).
  apply (f_equal (fun r => match r.1 with Ret s => lines s | _ => [] end)) in Heq.
  cbn [fst lines] in Heq. rewrite <- Heq. clear Heq.
  assert (exists o, tagged !! i = Some (o, prev_line)) as [o Ho].
  { rewrite <- Hlines, list_lookup_fmap in Hprev.
    destruct (tagged !! i) as [[o l]|]; [|done].
    injection Hprev as <-. by exists o. }
  pose proof (proj1 (Forall_lookup _ _) Hok i _ Ho) as Hprev_ok.
  set (x := (None, indent_of prev_line ++ lit "maxY: H * 0.95," ++ [nl])
            : option (list N) * list N).
  assert (origin_ok x) as Hx by (by exists (indent_of prev_line)).
  destruct (endswith (lit ",") (rstrip prev_line)) eqn:Hends.
  - exists (take k tagged ++ x :: drop k tagged).
    split; [|split].
    + unfold list_insert_at.
      by rewrite fmap_app, fmap_cons, fmap_take, fmap_drop, Hlines.
    + subst x. by rewrite omap_fst_insert_at.
    + apply Forall_app. split; [by apply Forall_take|].
      apply Forall_cons. split; [done|by apply Forall_drop].
  - set (tagged1 := <[i := (o, rstrip prev_line ++ lit "," ++ [nl])]> tagged).
    assert (snd <$> tagged1 = <[i := rstrip prev_line ++ lit "," ++ [nl]]> (lines st))
      as Hlines1.
    { subst tagged1. by rewrite list_fmap_insert, Hlines. }
    exists (take k tagged1 ++ x :: drop k tagged1).
    split; [|split].
    + unfold list_insert_at.
      by rewrite fmap_app, fmap_cons, fmap_take, fmap_drop, Hlines1.
    + subst x. rewrite omap_fst_insert_at. subst tagged1.
      by rewrite (omap_fst_insert tagged i o prev_line).
    + assert (Forall origin_ok tagged1) as Hok1.
      { subst tagged1. apply Forall_insert; [done|].
        by apply origin_ok_comma. }
      apply Forall_app. split; [by apply Forall_take|].
      apply Forall_cons. split; [done|by apply Forall_drop].
Qed.

Lemma visit_keeps (original : list (list N)) (pos : nat)
    (st st' : state) (w w' : world) :
  visit pos st w = (Ret st', w') -> kept original st -> kept original st'.
Proof.
  unfold visit. destruct (calls st !! pos) as [ln|]; [|by intros [= <- _]].
  cbn zeta.
  destruct (find_closing _ _) as [k|]; [|by intros [= <- _]].
  apply add_max_y_keeps.
Qed.

Lemma visits_keep (original : list (list N)) (xs : list nat)
    (st st' : state) (w w' : world) :
  for_fold visit xs st w = (Ret st', w') -> kept original st -> kept original st'.
Proof.
  revert st w. induction xs as [|x xs IH]; intros st w.
  { by intros [= <- _]. }
  rewrite for_fold_cons.
  destruct (visit x st w) as [[st1| |] w1] eqn:Hv; [|done|done].
  intros Hrest Hkept. apply (IH _ _ Hrest).
  by apply (visit_keeps original x st st1 w w1).
Qed.


End ContactOverflowLines.


(** ** swap-front-back.py: [find_back_registration] *)

Section BackRegistration.
Import PyStr SwapFrontBack SwapBackRegistration.
Local Open Scope nat_scope.

Lemma spaces_spec (s : list N) :
  spaces s <= length s
  /\ Forall (fun c => is_space c = true) (take (spaces s) s).
Proof.
  induction s as [|c s [IH1 IH2]]; cbn [spaces].
  { split; [done|]. apply Forall_nil_2. }
  destruct (is_space c) eqn:Hc.
  - cbn [length take]. split; [lia|]. by apply Forall_cons.
  - cbn [length take]. split; [lia|]. apply Forall_nil_2.
Qed.

Lemma startswith_char_drop (c : N) (s : list N) (k : nat) :
  startswith [c] (drop k s) = true -> s !! k = Some c.
Proof.
  intros H. apply startswith_char in H.
  by rewrite lookup_drop, Nat.add_0_r in H.
Qed.

(** A match of the arrow pattern: [=>], white space, and the brace as the
    last character of the match. *)
Lemma arrow_here_Some (s : list N) (n : nat) :
  arrow_here s = Some n ->
  exists m,
    n = 2 + m + 1
    /\ take 2 s = lit "=>"
    /\ Forall (fun c => is_space c = true) (take m (drop 2 s))
    /\ s !! (2 + m) = Some lbrace.
Proof.
  unfold arrow_here.
  destruct (startswith (lit "=>") s) eqn:Harrow; [|done].
  cbn zeta.
  destruct (startswith [lbrace] _) eqn:Hbrace; [|done].
  intros Hn. exists (spaces (drop 2 s)).
  split; [by injection Hn|].
  apply startswith_char_drop in Hbrace.
  apply startswith_spec in Harrow as [t ->].
  split; [reflexivity|]. split; [apply spaces_spec|done].
Qed.

Lemma search_arrow_Some (s : list N) (i a n : nat) :
  search_arrow s i = Some (a, n) ->
  exists k, a = i + k /\ k <= length s /\ arrow_here (drop k s) = Some n.
Proof.
  revert i. induction s as [|x s IH]; intros i; cbn [search_arrow].
  - destruct (arrow_here []) as [m|] eqn:E; [|done]. intros [= <- <-].
    exists 0. split; [lia|]. split; [done|]. done.
  - destruct (arrow_here (x :: s)) as [m|] eqn:E.
    + intros [= <- <-]. exists 0. split; [lia|]. split; [simpl; lia|]. done.
    + intros H. apply IH in H as (k & -> & Hk & Hat).
      exists (S k). split; [lia|]. split; [simpl; lia|]. done.
Qed.

(** A match of the closing pattern: white space, [)], white space, [;]. *)
Lemma match_close_Some (rest : list N) (n : nat) :
  match_close rest = Some n ->
  n <= length rest
  /\ exists ws ws',
       Forall (fun c => is_space c = true) ws
       /\ Forall (fun c => is_space c = true) ws'
       /\ take n rest = ws ++ [rparen] ++ ws' ++ [semicolon].
Proof.
  unfold match_close. cbn zeta.
  destruct (startswith [rparen] _) eqn:Hparen; [|done].
  destruct (startswith [semicolon] _) eqn:Hsemi; [|done].
  intros [= <-].
  set (a := spaces rest) in *.
  set (b := spaces (drop (a + 1) rest)) in *.
  apply startswith_char_drop in Hparen, Hsemi.
  pose proof (lookup_lt_Some _ _ _ Hsemi) as Hlt.
  split; [lia|].
  exists (take a rest), (take b (drop (a + 1) rest)).
  split; [apply spaces_spec|]. split; [apply spaces_spec|].
  replace (a + 1 + b + 1) with (a + (1 + (b + 1))) by lia.
  rewrite <- !take_take_drop, !drop_drop. f_equal.
  assert (take 1 (drop a rest) = [rparen]) as ->.
  { erewrite take_S_r; [|by rewrite lookup_drop, Nat.add_0_r; exact Hparen].
    by rewrite take_0. }
  cbn [app]. f_equal. f_equal.
  erewrite take_S_r; [|by rewrite lookup_drop, Nat.add_0_r; exact Hsemi].
  by rewrite take_0.
Qed.

(** What [find_back_registration] returns when it finds the registration:
    the record describes a region of the text that starts with the call
    searched for, has at [brace_start] the brace that ends an arrow [=>],
    ends after the brace at [brace_end] or after a [);] that follows it, and
    can be cut out and put back; the signature up to the brace, the body and
    the rest from the closing brace on make up the region. *)
Theorem find_back_registration_found
    (content template_id : list N) (printed : list (list N)) (info : func_info) :
  find_back_registration content template_id = (printed, Some info) ->
  printed = []
  /\ startswith (lit "registerBackLayout(" ++ [dquote] ++ template_id ++ [dquote])
       (drop (start info) content) = true
  /\ start info < brace_start info <= brace_end info
  /\ content !! brace_start info = Some lbrace
  /\ (exists ws,
        Forall (fun c => is_space c = true) ws
        /\ slice content (Z.of_nat (brace_start info - length ws - 2))
             (Z.of_nat (brace_start info)) = lit "=>" ++ ws)
  /\ (end_ info = brace_end info + 1
      \/ exists ws ws',
           Forall (fun c => is_space c = true) ws
           /\ Forall (fun c => is_space c = true) ws'
           /\ slice content (Z.of_nat (brace_end info + 1)) (Z.of_nat (end_ info))
              = ws ++ [rparen] ++ ws' ++ [semicolon])
  /\ body info
     = slice content (Z.of_nat (brace_start info + 1)) (Z.of_nat (brace_end info))
  /\ full info
     = slice content (Z.of_nat (start info)) (Z.of_nat (brace_start info + 1))
       ++ slice content (Z.of_nat (brace_start info + 1)) (Z.of_nat (end_ info))
  /\ content
     = take (start info) content ++ full info ++ drop (end_ info) content.
Proof.
  unfold find_back_registration. cbn zeta.
  assert (0 < length (lit "registerBackLayout(" ++ [dquote] ++ template_id
                        ++ [dquote])) as Hpat.
  { rewrite length_app. simpl. lia. }
  generalize dependent
    (lit "registerBackLayout(" ++ [dquote] ++ template_id ++ [dquote]).
  intros pat Hpat.
  destruct (find_at _ content 0) as [reg_start|] eqn:Hfind; [|done].
  destruct (search_arrow _ 0) as [[arrow_start arrow_len]|] eqn:Harrow; [|done].
  apply find_at_Some in Hfind as (k & -> & Hk & Hat & _).
  apply search_arrow_Some in Harrow as (k' & -> & Hk' & Harrow).
  apply arrow_here_Some in Harrow as (m & -> & Hopens & Hspaces & Hbrace).
  rewrite !drop_drop in Hspaces. rewrite !drop_drop in Hopens.
  rewrite !lookup_drop in Hbrace.
  replace (2 + m + 1 - 1) with (m + 2) by lia.
  cbn [Nat.add] in *.
  set (brace_pos := k + length pat + k' + (m + 2)) in *.
  assert (content !! brace_pos = Some lbrace) as Hbrace'.
  { rewrite <- Hbrace. f_equal. lia. }
  rewrite (find_matching_brace_at_brace _ _ Hbrace').
  assert (brace_pos <= scan content (length content) 1 (brace_pos + 1) - 1) as Hle.
  { destruct (scan_result content (length content) 1 (brace_pos + 1))
      as [Hle _]; lia. }
  revert Hle. generalize (scan content (length content) 1 (brace_pos + 1) - 1).
  intros r Hle.
  set (reg_end := match match_close (drop (r + 1) content) with
                  | Some n => r + 1 + n
                  | None => r + 1
                  end).
  assert (r + 1 <= reg_end) as Hend.
  { subst reg_end. destruct (match_close _); lia. }
  intros [= <- <-]. cbn [start end_ body full brace_start brace_end].
  split; [done|]. split; [done|]. split; [lia|]. split; [done|].
  split.
  { exists (take m (drop (k + length pat + (k' + 2)) content)).
    split; [done|].
    pose proof (lookup_lt_Some _ _ _ Hbrace') as Hlt.
    assert (length (take m (drop (k + length pat + (k' + 2)) content)) = m) as ->.
    { rewrite length_take, length_drop. lia. }
    rewrite slice_nat.
    replace (brace_pos - m - 2) with (k + length pat + k') by lia.
    replace (brace_pos - (k + length pat + k')) with (2 + m) by lia.
    rewrite <- take_take_drop, drop_drop.
    replace (k + length pat + k' + 2) with (k + length pat + (k' + 2)) by lia.
    f_equal. by rewrite <- Hopens. }
  split.
  { subst reg_end.
    destruct (match_close (drop (r + 1) content)) as [n|] eqn:Hclose; [|by left].
    right. apply match_close_Some in Hclose as (Hn & ws & ws' & Hws & Hws' & Htake).
    exists ws, ws'. split; [done|]. split; [done|].
    rewrite slice_nat. rewrite <- Htake. f_equal. lia. }
  split; [done|]. split.
  - apply slice_split. lia.
  - apply slice_splice. lia.
Qed.

End BackRegistration.

Lemma find_back_registration_found_on_sample :
  exists printed info,
    SwapBackRegistration.find_back_registration BackSamples.registration_text
      (PyStr.lit "hex-split") = (printed, Some info)
    /\ SwapFrontBack.start info = 9%nat
    /\ SwapFrontBack.brace_start info = 63%nat
    /\ SwapFrontBack.brace_end info = 78%nat
    /\ SwapFrontBack.end_ info = 83%nat
    /\ BackSamples.registration_text
       = take (SwapFrontBack.start info) BackSamples.registration_text
         ++ SwapFrontBack.full info
         ++ drop (SwapFrontBack.end_ info) BackSamples.registration_text.
Proof.
  destruct (SwapBackRegistration.find_back_registration
              BackSamples.registration_text (PyStr.lit "hex-split"))
    as [printed [info|]] eqn:E.
  - exists printed, info. split; [reflexivity|].
    pose proof (find_back_registration_found _ _ _ _ E) as H.
    vm_compute in E. injection E as <- <-.
    split; [reflexivity|]. split; [reflexivity|]. split; [reflexivity|].
    split; [reflexivity|]. apply H.
  - vm_compute in E. discriminate.
Defined.

(** ** analyze-6ed0.py: the blocks of rows within a card *)

Section CardBlocksFacts.
Import CardBlocks.
Local Open Scope nat_scope.

Variable has_dark : nat -> bool.
Variable top : nat.

(** What holds of a block: its rows are dark, and the row before it, if it
    is a row of the card, is not. *)
Local Abbreviation run := (fun s e : nat =>
  top <= s /\ (forall y, s <= y < e -> has_dark y = true)
   /\ (s = top \/ has_dark (s - 1) = false)).

(** What holds of the variables after the rows from [top] up to [n]. *)
Local Abbreviation segmented := (fun (n : nat) (st : state) =>
  (prev_has_dark st = true ->
      exists s, block_start st = Some s /\ s < n /\ run s n)
   /\ (prev_has_dark st = false ->
         block_start st = None /\ (n = top \/ has_dark (n - 1) = false))
   /\ (forall s e, (s, e) ∈ blocks st ->
         s < e /\ e < n /\ run s e /\ has_dark e = false
         /\ forall s', block_start st = Some s' -> e < s')
   /\ (forall y, top <= y < n -> has_dark y = true ->
         (exists s e, (s, e) ∈ blocks st /\ s <= y < e)
         \/ exists s, block_start st = Some s /\ s <= y)
   /\ (forall i j a b, i < j -> blocks st !! i = Some a ->
         blocks st !! j = Some b -> a.2 < b.1)).

Lemma step_segmented (n : nat) (st : state) :
  top <= n -> segmented n st -> segmented (S n) (step has_dark st n).
Proof.
  intros Hn (Hopen & Hclosed & Hblocks & Hcover & Hsorted).
  unfold step. cbn zeta.
  destruct (has_dark n) eqn:Hhas, (prev_has_dark st) eqn:Hprev; cbn [andb negb].
  - (* the run goes on *)
    destruct (Hopen eq_refl) as (s & Hs & Hsn & Htop & Hrows & Hbefore).
    rewrite Hs. cbn [prev_has_dark block_start blocks].
    split; [|split; [done|split; [|split; [|done]]]].
    + intros _. exists s. split; [done|]. split; [lia|].
      split; [done|]. split; [|done].
      intros y Hy. destruct (decide (y = n)) as [->|]; [done|].
      apply Hrows. lia.
    + intros s0 e0 Hin. destruct (Hblocks s0 e0 Hin) as (? & ? & ? & ? & Hlt).
      split; [done|]. split; [lia|]. split; [done|]. split; [done|].
      intros s' [= <-]. by apply Hlt.
    + intros y Hy Hdark. destruct (decide (y = n)) as [->|].
      * right. exists s. split; [done|lia].
      * destruct (Hcover y ltac:(lia) Hdark) as [?|(s' & Hs' & ?)]; [by left|].
        right. exists s. rewrite Hs in Hs'. injection Hs' as <-. done.
  - (* a run starts *)
    destruct (Hclosed eq_refl) as (Hnone & Hbefore).
    cbn [prev_has_dark block_start blocks].
    split; [|split; [done|split; [|split; [|done]]]].
    + intros _. exists n. split; [done|]. split; [lia|].
      split; [done|]. split.
      * intros y Hy. by replace y with n by lia.
      * replace (n - 1) with (n - 1) by done. done.
    + intros s0 e0 Hin. destruct (Hblocks s0 e0 Hin) as (? & ? & ? & ? & _).
      split; [done|]. split; [lia|]. split; [done|]. split; [done|].
      intros s' [= <-]. done.
    + intros y Hy Hdark. destruct (decide (y = n)) as [->|].
      * right. exists n. done.
      * destruct (Hcover y ltac:(lia) Hdark) as [?|(s' & Hs' & ?)]; [by left|].
        by rewrite Hnone in Hs'.
  - (* the run ends *)
    destruct (Hopen eq_refl) as (s & Hs & Hsn & Htop & Hrows & Hbefore).
    rewrite Hs. cbn [prev_has_dark block_start blocks].
    split; [done|]. split.
    { intros _. split; [done|]. right.
      by replace (S n - 1) with n by lia. }
    split.
    { intros s0 e0 Hin. apply elem_of_app in Hin as [Hin|Hin].
      - destruct (Hblocks s0 e0 Hin) as (? & ? & ? & ? & _).
        split; [done|]. split; [lia|]. split; [done|]. split; [done|]. done.
      - apply list_elem_of_singleton in Hin. injection Hin as -> ->.
        split; [done|]. split; [lia|]. split; [done|]. split; [done|]. done. }
    split.
    { intros y Hy Hdark. left.
      destruct (decide (y = n)) as [->|]; [congruence|].
      destruct (Hcover y ltac:(lia) Hdark) as [(s0 & e0 & Hin & ?)|(s' & Hs' & ?)].
      - exists s0, e0. split; [|done]. apply elem_of_app. by left.
      - rewrite Hs in Hs'. injection Hs' as <-.
        exists s, n. split; [|lia]. apply elem_of_app. right.
        apply list_elem_of_singleton. done. }
    intros i j a b Hij Ha Hb.
    destruct (decide (j < length (blocks st))) as [Hj|Hj].
    + rewrite lookup_app_l in Ha, Hb by lia. by apply (Hsorted i j).
    + rewrite lookup_app_r in Hb by lia.
      destruct (j - length (blocks st)) as [|k] eqn:Hk; [|done].
      injection Hb as <-. cbn [fst].
      assert (i < length (blocks st)) as Hi by lia.
      rewrite lookup_app_l in Ha by done.
      destruct a as [s0 e0].
      apply list_elem_of_lookup_2 in Ha.
      destruct (Hblocks s0 e0 Ha) as (_ & _ & _ & _ & Hlt).
      cbn [snd]. by apply Hlt.
  - (* no run *)
    destruct (Hclosed eq_refl) as (Hnone & Hbefore).
    rewrite Hnone. cbn [prev_has_dark block_start blocks].
    split; [done|]. split.
    { intros _. split; [done|]. right.
      by replace (S n - 1) with n by lia. }
    split.
    { intros s0 e0 Hin. destruct (Hblocks s0 e0 Hin) as (? & ? & ? & ? & _).
      split; [done|]. split; [lia|]. split; [done|]. split; [done|]. done. }
    split; [|done].
    intros y Hy Hdark. destruct (decide (y = n)) as [->|]; [congruence|].
    destruct (Hcover y ltac:(lia) Hdark) as [?|(s' & Hs' & ?)]; [by left|].
    by rewrite Hnone in Hs'.
Qed.

Lemma loop_segmented (k : nat) (st : state) (n : nat) :
  top <= n -> segmented n st ->
  segmented (n + k) (foldl (step has_dark) st (seq n k)).
Proof.
  revert st n. induction k as [|k IH]; intros st n Hn Hst.
  { by rewrite Nat.add_0_r. }
  cbn [seq foldl]. replace (n + S k) with (S n + k) by lia.
  apply IH; [lia|]. by apply step_segmented.
Qed.

(** The blocks the loop finds are the runs of dark rows of the card, from
    the top down.  The rows of a block from its start up to, not including,
    its end are dark, and the rows next to it are not: the row before the
    start, and the row at the end, which for a run that reaches the last
    row of the card is that last row, itself dark.  Every dark row of the
    card lies in a block, and each block ends before the next one starts. *)
Theorem blocks_are_the_dark_runs (bottom : nat) :
  top <= bottom ->
  (forall s e, (s, e) ∈ find_blocks has_dark top bottom ->
     top <= s <= e /\ e <= bottom
     /\ (forall y, s <= y < e -> has_dark y = true)
     /\ (s = top \/ has_dark (s - 1) = false)
     /\ (has_dark e = false \/ e = bottom))
  /\ (forall y, top <= y <= bottom -> has_dark y = true ->
        exists s e, (s, e) ∈ find_blocks has_dark top bottom
                    /\ s <= y /\ (y < e \/ y = bottom /\ e = bottom))
  /\ (forall i j a b, i < j ->
        find_blocks has_dark top bottom !! i = Some a ->
        find_blocks has_dark top bottom !! j = Some b -> a.2 < b.1).
Proof.
  intros Hle. unfold find_blocks. cbn zeta.
  pose proof (loop_segmented (bottom + 1 - top) (State false None []) top) as H.
  replace (top + (bottom + 1 - top)) with (S bottom) in H by lia.
  destruct H as (Hopen & Hclosed & Hblocks & Hcover & Hsorted); [done| |].
  { cbn [prev_has_dark block_start blocks].
    split; [done|]. split; [intros _; split; [done|by left]|].
    split; [intros s e Hin; by apply elem_of_nil in Hin|].
    split; [intros y Hy; lia|]. intros i j a b _ Ha. done. }
  set (st := foldl (step has_dark) (State false None []) _) in *.
  destruct (block_start st) as [s1|] eqn:Hstart.
  - assert (prev_has_dark st = true) as Hprev.
    { destruct (prev_has_dark st); [done|].
      by destruct (Hclosed eq_refl) as [Hnone _]. }
    destruct (Hopen Hprev) as (s & [= <-] & Hs & Htop & Hrows & Hbefore).
    split; [|split].
    + intros s0 e0 Hin. apply elem_of_app in Hin as [Hin|Hin].
      * destruct (Hblocks s0 e0 Hin) as (? & ? & (? & ? & ?) & ? & _).
        split; [lia|]. split; [lia|]. split; [done|]. split; [done|by left].
      * apply list_elem_of_singleton in Hin. injection Hin as -> ->.
        split; [lia|]. split; [lia|]. split; [|split; [done|by right]].
        intros y Hy. apply Hrows. lia.
    + intros y Hy Hdark.
      destruct (Hcover y ltac:(lia) Hdark) as [(s0 & e0 & Hin & ?)|(s' & [= <-] & ?)].
      * exists s0, e0. split; [apply elem_of_app; by left|]. split; [lia|].
        left. lia.
      * exists s1, bottom. split.
        { apply elem_of_app. right. by apply list_elem_of_singleton. }
        split; [done|]. destruct (decide (y = bottom)); [by right|left; lia].
    + intros i j a b Hij Ha Hb.
      destruct (decide (j < length (blocks st))) as [Hj|Hj].
      * rewrite lookup_app_l in Ha, Hb by lia. by apply (Hsorted i j).
      * rewrite lookup_app_r in Hb by lia.
        destruct (j - length (blocks st)) as [|k] eqn:Hk; [|done].
        injection Hb as <-. cbn [fst].
        assert (i < length (blocks st)) as Hi by lia.
        rewrite lookup_app_l in Ha by done.
        destruct a as [s0 e0].
        apply list_elem_of_lookup_2 in Ha.
        destruct (Hblocks s0 e0 Ha) as (_ & _ & _ & _ & Hlt).
        cbn [snd]. by apply Hlt.
  - split; [|split; [|done]].
    + intros s0 e0 Hin.
      destruct (Hblocks s0 e0 Hin) as (? & ? & (? & ? & ?) & ? & _).
      split; [lia|]. split; [lia|]. split; [done|]. split; [done|by left].
    + intros y Hy Hdark.
      destruct (Hcover y ltac:(lia) Hdark) as [(s0 & e0 & Hin & ?)|(s' & ? & ?)];
        [|done].
      exists s0, e0. split; [done|]. split; [lia|]. left. lia.
Qed.

End CardBlocksFacts.

Lemma blocks_are_the_dark_runs_on_sample :
  CardBlocks.find_blocks BlockSamples.dark_rows 1 5 = [(2, 4); (5, 5)]%nat
  /\ (forall s e,
        (s, e) ∈ CardBlocks.find_blocks BlockSamples.dark_rows 1 5 ->
        (1 <= s <= e)%nat /\ (e <= 5)%nat
        /\ (forall y, (s <= y < e)%nat -> BlockSamples.dark_rows y = true)
        /\ (s = 1%nat \/ BlockSamples.dark_rows (s - 1) = false)
        /\ (BlockSamples.dark_rows e = false \/ e = 5%nat)).
Proof.
  split; [vm_compute; reflexivity|].
  apply (blocks_are_the_dark_runs BlockSamples.dark_rows 1 5). lia.
Defined.

(** ** analyze-6ed0.py: the colour clusters *)

Section ColorClustersFacts.
Import Analyze6ed0 ColorClusters.
Local Open Scope nat_scope.

(** The number of pixels of a list that round to a colour. *)
Local Abbreviation occurrences := (fun (c : pixel) (l : list pixel) =>
  length (filter (fun p => rounded p = c) l)).

(** [unique_colors.get(c, 0)] *)
Local Abbreviation get := (fun (d : list (pixel * nat)) (c : pixel) =>
  from_option snd 0 (List.find (fun item => bool_decide (item.1 = c)) d)).

Lemma get_bump (key c : pixel) (d : list (pixel * nat)) :
  get (bump key d) c = if decide (key = c) then get d key + 1 else get d c.
Proof.
  induction d as [|[k n] d IH]; cbn [bump].
  - cbn [List.find fst]. destruct (decide (key = c)); by case_bool_decide.
  - destruct (decide (k = key)) as [->|Hk]; cbn [List.find fst].
    + destruct (decide (key = c)); repeat case_bool_decide; done.
    + destruct (decide (key = c)) as [->|Hne];
        repeat case_bool_decide; subst; try done;
        rewrite IH; by destruct (decide _).
Qed.

(** The items of a dictionary: no key twice, no count of zero, and every
    item holds what [get] gives for its key. *)
Local Abbreviation well_formed := (fun d : list (pixel * nat) =>
  NoDup d.*1 /\ forall c n, (c, n) ∈ d -> 0 < n /\ get d c = n).

Lemma bump_keys (key : pixel) (d : list (pixel * nat)) (c : pixel) :
  c ∈ (bump key d).*1 <-> c = key \/ c ∈ d.*1.
Proof.
  induction d as [|[k n] d IH]; cbn [bump].
  - cbn. rewrite list_elem_of_singleton, elem_of_nil. tauto.
  - destruct (decide (k = key)) as [->|Hk]; cbn [fmap list_fmap fst].
    + rewrite !elem_of_cons. tauto.
    + rewrite !elem_of_cons, IH. tauto.
Qed.

Lemma bump_well_formed (key : pixel) (d : list (pixel * nat)) :
  well_formed d -> well_formed (bump key d).
Proof.
  induction d as [|[k n] d IH]; intros [Hnodup Hitems]; cbn [bump].
  - split; [apply NoDup_singleton|].
    intros c m Hin. apply list_elem_of_singleton in Hin. injection Hin as -> ->.
    split; [lia|]. cbn [List.find fst]. by case_bool_decide.
  - cbn [fmap list_fmap fst] in Hnodup. apply NoDup_cons in Hnodup as [Hk Hnodup].
    assert (well_formed d) as Hd.
    { split; [done|]. intros c m Hin.
      destruct (Hitems c m) as [Hpos Hget]; [by apply elem_of_cons; right|].
      split; [done|]. cbn [List.find fst] in Hget.
      case_bool_decide; [|done].
      subst k. exfalso. apply Hk. apply list_elem_of_fmap. by exists (c, m). }
    destruct (decide (k = key)) as [->|Hne].
    + split.
      * cbn [fmap list_fmap fst]. by apply NoDup_cons.
      * intros c m Hin. apply elem_of_cons in Hin as [[= -> ->]|Hin].
        { split; [lia|]. cbn [List.find fst]. by case_bool_decide. }
        destruct Hd as [_ Hd]. destruct (Hd c m Hin) as [Hpos Hget].
        split; [done|]. cbn [List.find fst].
        case_bool_decide; [|done].
        subst c. exfalso. apply Hk. apply list_elem_of_fmap. by exists (key, m).
    + destruct (IH Hd) as [Hnodup' Hitems'].
      split.
      * cbn [fmap list_fmap fst]. apply NoDup_cons. split; [|done].
        rewrite bump_keys. intros [->|Hin]; [done|by apply Hk].
      * intros c m Hin. apply elem_of_cons in Hin as [[= -> ->]|Hin].
        { destruct (Hitems k n) as [Hpos _]; [by apply elem_of_cons; left|].
          split; [done|]. cbn [List.find fst]. by case_bool_decide. }
        destruct (Hitems' c m Hin) as [Hpos Hget].
        split; [done|]. cbn [List.find fst].
        case_bool_decide; [|done].
        subst c. exfalso.
        assert (k ∈ (bump key d).*1) as Hin'.
        { apply list_elem_of_fmap. by exists (k, m). }
        apply bump_keys in Hin' as [->|Hin']; [done|by apply Hk].
Qed.

Lemma occurrences_snoc (c : pixel) (l : list pixel) (p : pixel) :
  occurrences c (l ++ [p])
  = if decide (rounded p = c) then occurrences c l + 1 else occurrences c l.
Proof.
  cbn beta. rewrite filter_app, length_app.
  destruct (decide (rounded p = c)) as [Hc|Hc].
  - by rewrite filter_cons_True.
  - rewrite filter_cons_False by done. cbn. lia.
Qed.

(** The dictionary after the loop over the pixels [l]. *)
Lemma counted (l : list pixel) :
  let d := foldl (fun d c => bump (rounded c) d) [] l in
  well_formed d
  /\ (forall c, get d c = occurrences c l)
  /\ (forall c, c ∈ d.*1 <-> exists p, p ∈ l /\ rounded p = c).
Proof.
  induction l as [|p l IH] using rev_ind; cbn zeta.
  { split; [split; [apply NoDup_nil_2|intros c n Hin; by apply elem_of_nil in Hin]|].
    split; [done|]. intros c. cbn. rewrite elem_of_nil. split; [done|].
    intros (p & Hp & _). by apply elem_of_nil in Hp. }
  rewrite foldl_app. cbn [foldl].
  destruct IH as (Hwf & Hget & Hkeys).
  split; [by apply bump_well_formed|]. split.
  - intros c. rewrite get_bump, occurrences_snoc.
    destruct (decide (rounded p = c)) as [<-|Hne]; by rewrite Hget.
  - intros c. rewrite bump_keys, Hkeys. split.
    + intros [->|(q & Hq & Hc)].
      * exists p. split; [|done]. apply elem_of_app. right.
        by apply list_elem_of_singleton.
      * exists q. split; [|done]. apply elem_of_app. by left.
    + intros (q & Hq & Hc). apply elem_of_app in Hq as [Hq|Hq].
      * right. by exists q.
      * left. apply list_elem_of_singleton in Hq. by subst.
Qed.

Lemma insert_by_count_perm (x : pixel * nat) (l : list (pixel * nat)) :
  insert_by_count x l ≡ₚ x :: l.
Proof.
  induction l as [|y l IH]; cbn [insert_by_count]; [done|].
  destruct (x.2 <? y.2); [|done]. rewrite IH. apply Permutation_swap.
Qed.

Lemma sorted_by_count_perm (l : list (pixel * nat)) : sorted_by_count l ≡ₚ l.
Proof.
  induction l as [|x l IH]; [done|].
  cbn [sorted_by_count foldr]. rewrite insert_by_count_perm.
  by apply Permutation_cons.
Qed.

(** From the largest count down. *)
Local Abbreviation descending := (fun l : list (pixel * nat) =>
  forall i j a b, i <= j -> l !! i = Some a -> l !! j = Some b -> b.2 <= a.2).

Lemma descending_cons (x : pixel * nat) (l : list (pixel * nat)) :
  (forall y, y ∈ l -> y.2 <= x.2) -> descending l -> descending (x :: l).
Proof.
  intros Hx Hl [|i] [|j] a b Hij Ha Hb; cbn in Ha, Hb.
  - injection Ha as <-. injection Hb as <-. done.
  - injection Ha as <-. apply Hx. by apply list_elem_of_lookup_2 in Hb.
  - lia.
  - apply (Hl i j); [lia|done|done].
Qed.

Lemma descending_inv (x : pixel * nat) (l : list (pixel * nat)) :
  descending (x :: l) -> (forall y, y ∈ l -> y.2 <= x.2) /\ descending l.
Proof.
  intros H. split.
  - intros y Hy. apply list_elem_of_lookup in Hy as [j Hj].
    by apply (H 0 (S j) x y); [lia| |].
  - intros i j a b Hij Ha Hb. by apply (H (S i) (S j)); [lia| |].
Qed.

Lemma insert_by_count_descending (x : pixel * nat) (l : list (pixel * nat)) :
  descending l -> descending (insert_by_count x l).
Proof.
  induction l as [|y l IH]; intros Hl; cbn [insert_by_count].
  { apply descending_cons; [|done]. intros y Hy. by apply elem_of_nil in Hy. }
  apply descending_inv in Hl as [Hy Hl].
  destruct (Nat.ltb_spec x.2 y.2) as [Hlt|Hge].
  - apply descending_cons; [|by apply IH].
    intros z Hz. rewrite insert_by_count_perm in Hz.
    apply elem_of_cons in Hz as [->|Hz]; [lia|by apply Hy].
  - apply descending_cons.
    + intros z Hz. apply elem_of_cons in Hz as [->|Hz]; [done|].
      specialize (Hy z Hz). lia.
    + by apply descending_cons.
Qed.

Lemma sorted_by_count_descending (l : list (pixel * nat)) :
  descending (sorted_by_count l).
Proof.
  induction l as [|x l IH].
  - intros i j a b _ Ha. done.
  - cbn [sorted_by_count foldr]. by apply insert_by_count_descending.
Qed.

(** The sorted list: every colour some sampled pixel rounds to is listed
    once, with the number of sampled pixels that round to it, from the
    largest count down. *)
Lemma sorted_colors_count (img : image) :
  NoDup (sorted_colors img).*1
  /\ (forall c n, (c, n) ∈ sorted_colors img ->
        0 < n /\ n = occurrences c (sampled img))
  /\ (forall p, p ∈ sampled img ->
        exists n, (rounded p, n) ∈ sorted_colors img)
  /\ descending (sorted_colors img).
Proof.
  unfold sorted_colors, unique_colors.
  destruct (counted (sampled img)) as ((Hnodup & Hitems) & Hget & Hkeys).
  set (d := foldl _ [] (sampled img)) in *.
  pose proof (sorted_by_count_perm d) as Hperm.
  split; [by rewrite Hperm|]. split.
  { intros c n Hin. rewrite Hperm in Hin.
    destruct (Hitems c n Hin) as [Hpos Hn]. split; [done|].
    by rewrite <- Hn, Hget. }
  split; [|apply sorted_by_count_descending].
  intros p Hp.
  assert (rounded p ∈ d.*1) as Hin by (apply Hkeys; by exists p).
  apply list_elem_of_fmap in Hin as [[c n] [Hc Hin]]. cbn [fst] in Hc.
  exists n. rewrite Hperm. by rewrite Hc.
Qed.

(** The clusters the script prints are the most frequent rounded colours
    of the sampled pixels, 30 at most: each is printed once, with the number
    of sampled pixels that round to it, from the largest count down, and no
    colour that is left out has more pixels than one that is printed. *)
Theorem top_clusters_are_the_most_frequent (img : image) :
  length (top_clusters img) <= 30
  /\ NoDup (top_clusters img).*1
  /\ (forall c n, (c, n) ∈ top_clusters img ->
        0 < n /\ n = length (filter (fun p => rounded p = c) (sampled img)))
  /\ (forall i j a b, i <= j -> top_clusters img !! i = Some a ->
        top_clusters img !! j = Some b -> b.2 <= a.2)
  /\ (forall p c n, p ∈ sampled img -> rounded p ∉ (top_clusters img).*1 ->
        (c, n) ∈ top_clusters img ->
        length (filter (fun q => rounded q = rounded p) (sampled img)) <= n).
Proof.
  destruct (sorted_colors_count img) as (Hnodup & Hitems & Hall & Hsorted).
  unfold top_clusters. set (l := sorted_colors img) in *.
  split; [rewrite length_take; lia|]. split.
  { rewrite <- (take_drop 30 l), fmap_app in Hnodup.
    by apply NoDup_app in Hnodup as [? _]. }
  split.
  { intros c n Hin. apply Hitems.
    rewrite <- (take_drop 30 l). apply elem_of_app. by left. }
  split.
  { intros i j a b Hij Ha Hb.
    apply lookup_take_Some in Ha as [Ha _]. apply lookup_take_Some in Hb as [Hb _].
    by apply (Hsorted i j). }
  intros p c n Hp Hout Hin.
  destruct (Hall p Hp) as [m Hm].
  destruct (Hitems _ _ Hm) as [_ ->].
  apply list_elem_of_lookup in Hin as [i Hi].
  apply lookup_take_Some in Hi as [Hi Hi30].
  pose proof Hm as Hm'. apply list_elem_of_lookup in Hm' as [j Hj].
  destruct (decide (j < 30)) as [Hlt|Hge].
  - exfalso. apply Hout. apply list_elem_of_fmap.
    exists (rounded p, occurrences (rounded p) (sampled img)). split; [done|].
    apply list_elem_of_lookup. exists j. by apply lookup_take_Some.
  - by apply (Hsorted i j (c, n) _ ltac:(lia) Hi Hj).
Qed.

End ColorClustersFacts.

(** ** fix-cyan-tech.py: the end of the region when the comment is missing *)

Section CyanTechFallback.
Import PyStr IO FixCyanTech.
Local Open Scope nat_scope.

Variable new_function : list N.

Lemma rfind_at_absent (c : N) (s : list N) (i : nat) :
  c ∉ s -> rfind_at [c] s i = None.
Proof.
  revert i. induction s as [|x s IH]; intros i Hc; cbn [rfind_at]; [done|].
  apply not_elem_of_cons in Hc as [Hx Hs]. rewrite IH by done.
  cbn [startswith]. destruct (N.eqb_spec c x); [done|done].
Qed.

(** The highest position of a character in a text that ends with a stretch
    without it. *)
Lemma rfind_at_last (c : N) (p q : list N) (i : nat) :
  c ∉ q -> rfind_at [c] (p ++ [c] ++ q) i = Some (i + length p).
Proof.
  intros Hq. revert i. induction p as [|x p IH]; intros i.
  - cbn [app rfind_at]. rewrite rfind_at_absent by done.
    cbn [startswith]. rewrite N.eqb_refl. cbn. f_equal. lia.
  - cbn [app rfind_at length]. rewrite IH. f_equal. lia.
Qed.

Lemma rfind_last (s : list N) (c : N) (p q : list N) (r : nat) :
  take r s = p ++ [c] ++ q -> r <= length s -> c ∉ q ->
  rfind s [c] 0 (Z.of_nat r) = Z.of_nat (length p).
Proof.
  intros Htake Hr Hq. unfold rfind, clamp, len. cbn zeta.
  change (0 <? 0)%Z with false. cbn iota.
  destruct (Z.ltb_spec (Z.of_nat r) 0); [lia|].
  rewrite Z.min_l, Z.min_l by lia.
  destruct (Z.ltb_spec (Z.of_nat r) 0); [lia|].
  rewrite Z.sub_0_r, Nat2Z.id. change (Z.to_nat 0) with 0. rewrite drop_0.
  by rewrite Htake, rfind_at_last.
Qed.

(** When the comment [// Register cyan-tech back layout] is missing and the
    call [registerBackLayout("cyan-tech"] is there, on a line that has a
    line above it, the replaced region ends where the line above the call
    starts: that line, the call and what follows them are kept. *)
Theorem fix_cyan_tech_falls_back_to_the_call
    (fs : gmap (list N) (list N)) (content : list N) (s r : nat)
    (before line_above indent : list N) :
  fs !! FILE = Some content ->
  find content start_marker 0 = Z.of_nat s ->
  find content end_marker (Z.of_nat s) = (-1)%Z ->
  find content end_marker2 (Z.of_nat s) = Z.of_nat r ->
  take r content = before ++ [nl] ++ line_above ++ [nl] ++ indent ->
  nl ∉ line_above -> nl ∉ indent ->
  exists w,
    run (main new_function) fs = (Ret tt, w)
    /\ files w
       = <[FILE := take s content ++ new_function
                   ++ line_above ++ [nl] ++ indent ++ drop r content]> fs.
Proof.
  intros Hfile Hs Hnone Hr Hshape Hline Hindent.
  pose proof Hr as Hr'. apply find_found in Hr' as ((_ & Hlen) & _).
  assert (rfind content [nl] 0 (Z.of_nat r)
          = Z.of_nat (length (before ++ [nl] ++ line_above))) as H1.
  { apply (rfind_last content nl (before ++ [nl] ++ line_above) indent r);
      [|done|done]. by rewrite Hshape, <- !app_assoc. }
  assert (take (length (before ++ [nl] ++ line_above)) content
          = before ++ [nl] ++ line_above) as Hshape'.
  { assert (length (before ++ [nl] ++ line_above) <= r) as Hle.
    { apply (f_equal length) in Hshape. rewrite length_take in Hshape.
      rewrite !length_app in *. cbn [length] in *. lia. }
    rewrite <- (Nat.min_l _ _ Hle) at 1. rewrite <- take_take, Hshape.
    replace (before ++ [nl] ++ line_above ++ [nl] ++ indent)
      with ((before ++ [nl] ++ line_above) ++ [nl] ++ indent)
      by (by rewrite <- !app_assoc).
    by rewrite take_app_length. }
  assert (rfind content [nl] 0 (Z.of_nat (length (before ++ [nl] ++ line_above)))
          = Z.of_nat (length before)) as H2.
  { apply (rfind_last content nl before line_above); [done| |done].
    apply (f_equal length) in Hshape. rewrite length_take in Hshape.
    rewrite !length_app in *. cbn [length] in *. lia. }
  unfold run, main, find_end, splice.
  unfold mbind, M_bind, read_file, print, emit, write_file, mret, M_ret.
  cbn [files log]. rewrite Hfile, Hs.
  destruct (Z.eqb_spec (Z.of_nat s) (-1)) as [?|_]; [lia|].
  cbn [files log]. rewrite Hnone, Z.eqb_refl.
  rewrite Hr, H1, H2.
  eexists. split; [reflexivity|]. cbn [files].
  replace (Z.of_nat (length before) + 1)%Z with (Z.of_nat (length before + 1)) by lia.
  rewrite slice_to_nat, slice_from_nat. do 3 f_equal.
  rewrite <- (take_drop r content) at 1. rewrite Hshape.
  replace ((before ++ [nl] ++ line_above ++ [nl] ++ indent) ++ drop r content)
    with ((before ++ [nl]) ++ line_above ++ [nl] ++ indent ++ drop r content)
    by (by rewrite <- !app_assoc).
  replace (length before + 1) with (length (before ++ [nl]))
    by (rewrite length_app; cbn; lia).
  by rewrite drop_app_length.
Qed.

End CyanTechFallback.

Lemma fix_cyan_tech_falls_back_to_the_call_on_sample :
  exists w,
    IO.run (FixCyanTech.main MoreSamples.cyan_new_function)
      {[FixCyanTech.FILE := CyanSamples.adapter_without_comment]} = (IO.Ret tt, w)
    /\ IO.files w
       = <[FixCyanTech.FILE :=
             take 8 CyanSamples.adapter_without_comment
             ++ MoreSamples.cyan_new_function
             ++ PyStr.lit "// back" ++ [PyStr.nl] ++ []
             ++ drop 135 CyanSamples.adapter_without_comment]>
           {[FixCyanTech.FILE := CyanSamples.adapter_without_comment]}.
Proof.
  apply (fix_cyan_tech_falls_back_to_the_call MoreSamples.cyan_new_function
           {[FixCyanTech.FILE := CyanSamples.adapter_without_comment]}
           CyanSamples.adapter_without_comment 8 135
           CyanSamples.before_the_comment (PyStr.lit "// back") []).
  - apply lookup_singleton_eq.
  - vm_compute. reflexivity.
  - vm_compute. reflexivity.
  - vm_compute. reflexivity.
  - vm_compute. reflexivity.
  - match goal with |- ?P => apply (bool_decide_unpack P) end. vm_compute. exact I.
  - apply not_elem_of_nil.
Defined.

(** ** fix-contact-overflow.py: the line numbers of the calls *)

Section ContactOverflowCalls.
Import PyStr IO FixContactOverflow.
Local Open Scope nat_scope.

(** The entries of [call_lines] are 20 or more lines apart. *)
Lemma call_lines_apart (i j a b : nat) :
  i < j -> call_lines !! i = Some a -> call_lines !! j = Some b -> a + 20 <= b.
Proof.
  intros Hij Ha Hb.
  assert (j < 14) as Hj by (apply lookup_lt_Some in Hb; exact Hb).
  assert (forallb (fun i => forallb (fun j =>
            match call_lines !! i, call_lines !! j with
            | Some a, Some b => if i <? j then a + 20 <=? b else true
            | _, _ => true
            end) (seq 0 14)) (seq 0 14) = true) as Hall
    by (vm_compute; reflexivity).
  rewrite forallb_forall in Hall.
  specialize (Hall i). rewrite forallb_forall in Hall.
  specialize (Hall ltac:(apply in_seq; lia) j ltac:(apply in_seq; lia)).
  rewrite Ha, Hb in Hall.
  destruct (Nat.ltb_spec i j); [|lia]. by apply Nat.leb_le.
Qed.

Lemma lookup_list_insert_at_after {A} (k n : nat) (x : A) (l : list A) :
  k <= n -> k <= length l -> list_insert_at k x l !! S n = l !! n.
Proof.
  intros Hkn Hk. unfold list_insert_at.
  rewrite lookup_app_r by (rewrite length_take; lia).
  rewrite length_take, Nat.min_l by done.
  replace (S n - k) with (S (n - k)) by lia.
  change ((x :: drop k l) !! S (n - k)) with (drop k l !! (n - k)).
  rewrite lookup_drop. f_equal. lia.
Qed.

Variable original : list (list N).

(** What holds when the loop gets to the position [pos] of [call_lines]:
    the entries from there on have moved by the number of lines inserted so
    far, and so have the lines from the call of that position on. *)
Local Abbreviation adjusted := (fun (pos : nat) (st : state) =>
  length (calls st) = length call_lines
  /\ (forall j ln, pos <= j -> call_lines !! j = Some ln ->
        calls st !! j = Some (ln + changes st))
  /\ (forall ln i, call_lines !! pos = Some ln -> ln - 1 <= i ->
        lines st !! (i + changes st) = original !! i)).

Lemma visit_adjusted (pos : nat) (st st' : state) (w w' : world) :
  visit pos st w = (Ret st', w') -> adjusted pos st -> adjusted (S pos) st'.
Proof.
  intros Hvisit (Hlen & Hcalls & Hlines).
  assert (adjusted (S pos) st) as Hsame.
  { split; [done|]. split; [intros j ln Hj; apply Hcalls; lia|].
    intros ln i Hln Hi.
    destruct (call_lines !! pos) as [ln0|] eqn:Hpos.
    - apply (Hlines ln0); [done|].
      pose proof (call_lines_apart pos (S pos) ln0 ln ltac:(lia) Hpos Hln). lia.
    - apply lookup_ge_None in Hpos. apply lookup_lt_Some in Hln. lia. }
  revert Hvisit. unfold visit.
  destruct (calls st !! pos) as [ln|] eqn:Hpos; [|by intros [= <- _]].
  cbn zeta.
  destruct (find_closing _ _) as [k|] eqn:Hfind; [|by intros [= <- _]].
  apply find_closing_bounds in Hfind. rewrite length_take, length_drop in Hfind.
  destruct (call_lines !! pos) as [ln0|] eqn:Hpos0.
  2:{ apply lookup_ge_None in Hpos0. apply lookup_lt_Some in Hpos. lia. }
  rewrite (Hcalls pos ln0 ltac:(lia) Hpos0) in Hpos. injection Hpos as <-.
  pose proof (Forall_lookup_1 _ _ _ _ call_lines_from_3244 Hpos0) as Hbig.
  cbn beta in Hbig.
  unfold add_max_y. cbn zeta.
  destruct (contains (lit "maxY") _).
  { unfold mbind, M_bind, print, emit, mret, M_ret. by intros [= <- _]. }
  destruct k as [|k]; [lia|]. cbn [prev_index].
  destruct (lines st !! k) as [prev_line|] eqn:Hprev; [|done].
  unfold mbind, M_bind, print, emit, mret, M_ret.
  intros Heq.
  apply (f_equal (fun r => match r.1 with Ret s => Some s | _ => None end)) in Heq.
  cbn [fst] in Heq. injection Heq as <-. cbn [lines calls changes].
  split; [by rewrite length_map|]. split.
  - intros j ln Hj Hln. rewrite list_lookup_fmap, (Hcalls j ln ltac:(lia) Hln).
    cbn [fmap option_fmap option_map].
    pose proof (call_lines_apart pos j ln0 ln ltac:(lia) Hpos0 Hln).
    destruct (Nat.ltb_spec (ln0 + changes st) (ln + changes st)); [|lia].
    f_equal. lia.
  - intros ln i Hln Hi.
    pose proof (call_lines_apart pos (S pos) ln0 ln ltac:(lia) Hpos0 Hln).
    replace (i + S (changes st)) with (S (i + changes st)) by lia.
    rewrite lookup_list_insert_at_after.
    + destruct (endswith _ _).
      * apply (Hlines ln0); [done|lia].
      * rewrite list_lookup_insert_ne by lia. apply (Hlines ln0); [done|lia].
    + lia.
    + destruct (endswith _ _); [lia|]. rewrite length_insert. lia.
Qed.

Lemma visits_adjusted (n pos : nat) (st st' : state) (w w' : world) :
  for_fold visit (seq pos n) st w = (Ret st', w') ->
  adjusted pos st -> adjusted (pos + n) st'.
Proof.
  revert pos st w. induction n as [|n IH]; intros pos st w.
  { cbn [seq for_fold]. intros [= <- _]. by rewrite Nat.add_0_r. }
  cbn [seq]. rewrite for_fold_cons.
  destruct (visit pos st w) as [[st1| |] w1] eqn:Hv; [|done|done].
  intros Hrest Hst. replace (pos + S n) with (S pos + n) by lia.
  apply (IH _ _ _ Hrest). by apply (visit_adjusted pos st st1 w w1).
Qed.

End ContactOverflowCalls.

Section ContactOverflowReach.
Import PyStr IO FixContactOverflow.
Local Open Scope nat_scope.


End ContactOverflowReach.

